(** * AUB capture / decode tools of Mesa's [src/intel/tools]

    A shallow embedding of the capture shim and stream writer
    ([intel_dump_gpu.c]) and of the stream decoder ([aubinator.c]),
    followed by the properties established about them.

    Conventions.
    - C unsigned integers are [Z] with the wrap-around written out
      ([wrap32], [wrap64]); bit operations are [Z.land], [Z.lor],
      [Z.shiftl], [Z.shiftr].
    - Byte buffers and output streams are [list Z] (one element per byte).
    - A [FILE *] is [option (list Z)]: [None] is the null pointer, [Some bs]
      an open stream; [bs] holds the bytes written so far, the most recent
      first, and [stream_of] gives them in file order.
    - [fail_if] prints a diagnostic and raises SIGTRAP: outcome [Trap].
      Dereferencing a null pointer (or any other undefined behaviour the
      model can see) is outcome [Crash]. A loop that never ends is outcome
      [Hang]. *)

From Stdlib Require Import ZArith List Lia Bool String.
From stdpp Require Import base numbers list gmap.

Set Warnings "-register-all".

Import ListNotations.
Local Open Scope Z_scope.

(** ** Machine integers and bytes *)

Definition wrap32 (x : Z) : Z := x mod 2 ^ 32.
Definition wrap64 (x : Z) : Z := x mod 2 ^ 64.

(** [#define ALIGN(x, y) (((x) + (y)-1) & ~((y)-1))] *)
Definition ALIGN (x y : Z) : Z := Z.land (x + y - 1) (Z.lnot (y - 1)).

(** [align_u32]: the same on [uint32_t]. *)
Definition align_u32 (v a : Z) : Z :=
  wrap32 (Z.land (wrap32 (v + a - 1)) (Z.lnot (wrap32 (a - 1)))).

(** Little-endian byte image of the low [n] bytes of [v]. *)
Fixpoint le_bytes (n : nat) (v : Z) : list Z :=
  match n with
  | O => []
  | S k => (v mod 256) :: le_bytes k (v / 256)
  end.

(** Little-endian value of a byte string. *)
Fixpoint le_value (bs : list Z) : Z :=
  match bs with
  | [] => 0
  | b :: r => b + 256 * le_value r
  end.

(** Bytes [off .. off+len) of a buffer. *)
Definition slice (bs : list Z) (off len : Z) : list Z :=
  take (Z.to_nat len) (drop (Z.to_nat off) bs).

(** [memcpy (dst + off, src, |src|)] inside a buffer. *)
Definition blit (dst : list Z) (off : Z) (src : list Z) : list Z :=
  take (Z.to_nat off) dst ++ src ++ drop (Z.to_nat off + length src) dst.

(** ** Outcomes

    What a piece of the code comes to: it returns a value ([Done]); it
    stops the process with a message, as [fail_if], [assert] and [exit] do
    ([Trap]); it runs into undefined behaviour ([Crash]); or it never
    returns ([Hang], the loop without a bound in the decoder's
    [get_ppgtt_batch_bo]). *)

Inductive outcome (A : Type) : Type :=
| Done (a : A)
| Trap (msg : string)
| Crash
| Hang.
Arguments Done {A} a.
Arguments Trap {A} msg.
Arguments Crash {A}.
Arguments Hang {A}.

Definition bind {A B : Type} (m : outcome A) (k : A -> outcome B) : outcome B :=
  match m with
  | Done a => k a
  | Trap msg => Trap msg
  | Crash => Crash
  | Hang => Hang
  end.

#[global] Instance outcome_bind : MBind outcome := fun A B k m => bind m k.
#[global] Instance outcome_ret : MRet outcome := fun A a => Done a.

(** [fail_if (cond, msg)] *)
Definition fail_if (cond : bool) (msg : string) : outcome unit :=
  if cond then Trap msg else Done tt.

(** A counted [for] loop whose body may stop the program. *)
Fixpoint for_each {X S : Type} (body : X -> S -> outcome S)
         (xs : list X) (s : S) : outcome S :=
  match xs with
  | [] => Done s
  | x :: r => s1 ← body x s; for_each body r s1
  end.

(** The values taken by [v] in [for (v = lo; v < hi; v += step)] when the
    body does not assign [v] and [0 < step]. *)
Definition for_values (lo hi step : Z) : list Z :=
  if lo <? hi
  then (fun k => lo + k * step) <$> seqZ 0 ((hi - 1 - lo) / step + 1)
  else [].

(** ** Constants of [intel_aub.h]

    The header comes from libdrm and is not part of the source tree at hand.
    The record classes below are the ones the decoder's [MAKE_HEADER] cases
    recognise; the address-space tags are the ones its
    [handle_memtrace_mem_write] switches on ([p[3] >> 28]). *)

Definition MAKE_HEADER (type opcode subopcode : Z) : Z :=
  Z.lor (Z.lor (Z.shiftl type 29) (Z.shiftl opcode 23)) (Z.shiftl subopcode 16).

Definition TYPE_AUB := 0x7.
Definition OPCODE_AUB := 0x01.
Definition SUBOPCODE_HEADER := 0x05.
Definition SUBOPCODE_BLOCK := 0x41.
Definition SUBOPCODE_BMP := 0x1e.
Definition OPCODE_NEW_AUB := 0x2e.
Definition SUBOPCODE_REG_POLL := 0x02.
Definition SUBOPCODE_REG_WRITE := 0x03.
Definition SUBOPCODE_MEM_POLL := 0x05.
Definition SUBOPCODE_MEM_WRITE := 0x06.
Definition SUBOPCODE_VERSION := 0x0e.

Definition CMD_AUB_HEADER := MAKE_HEADER TYPE_AUB OPCODE_AUB SUBOPCODE_HEADER.
Definition CMD_AUB_TRACE_HEADER_BLOCK := MAKE_HEADER TYPE_AUB OPCODE_AUB SUBOPCODE_BLOCK.
Definition CMD_MEM_TRACE_REGISTER_POLL := MAKE_HEADER TYPE_AUB OPCODE_NEW_AUB SUBOPCODE_REG_POLL.
Definition CMD_MEM_TRACE_REGISTER_WRITE := MAKE_HEADER TYPE_AUB OPCODE_NEW_AUB SUBOPCODE_REG_WRITE.
Definition CMD_MEM_TRACE_MEMORY_WRITE := MAKE_HEADER TYPE_AUB OPCODE_NEW_AUB SUBOPCODE_MEM_WRITE.
Definition CMD_MEM_TRACE_VERSION := MAKE_HEADER TYPE_AUB OPCODE_NEW_AUB SUBOPCODE_VERSION.

Definition AUB_MEM_TRACE_MEMORY_ADDRESS_SPACE_GGTT := 0x00000000.
Definition AUB_MEM_TRACE_MEMORY_ADDRESS_SPACE_LOCAL := 0x10000000.
Definition AUB_MEM_TRACE_MEMORY_ADDRESS_SPACE_PHYSICAL := 0x20000000.
Definition AUB_MEM_TRACE_MEMORY_ADDRESS_SPACE_GGTT_ENTRY := 0x40000000.

Definition AUB_MEM_TRACE_REGISTER_SIZE_DWORD := 0x00020000.
Definition AUB_MEM_TRACE_REGISTER_SPACE_MMIO := 0x00000000.
Definition AUB_MEM_TRACE_VERSION_FILE_VERSION := 1.
Definition AUB_MEM_TRACE_VERSION_DEVICE_SHIFT := 8.

Definition AUB_HEADER_MAJOR_SHIFT := 24.
Definition AUB_HEADER_MINOR_SHIFT := 16.

Definition AUB_TRACE_OPERATION_MASK := 0x000000ff.
Definition AUB_TRACE_OP_COMMAND_WRITE := 0x00000000.
Definition AUB_TRACE_OP_DATA_WRITE := 0x00000001.
Definition AUB_TRACE_TYPE_MASK := 0x0000ff00.
Definition AUB_TRACE_TYPE_NOTYPE := Z.shiftl 0 8.
Definition AUB_TRACE_TYPE_BATCH := Z.shiftl 1 8.
Definition AUB_TRACE_TYPE_RING_PRB0 := Z.shiftl 0 8.
Definition AUB_TRACE_TYPE_RING_PRB1 := Z.shiftl 1 8.
Definition AUB_TRACE_TYPE_RING_PRB2 := Z.shiftl 2 8.
Definition AUB_TRACE_ADDRESS_SPACE_MASK := 0x00ff0000.
Definition AUB_TRACE_MEMTYPE_GTT := Z.shiftl 0 16.
Definition AUB_TRACE_MEMTYPE_GTT_ENTRY := Z.shiftl 4 16.

Definition AUB_MI_BATCH_BUFFER_START := Z.shiftl 0x31 23.

(** Constants of [i915_drm.h] (kernel interface, likewise absent). *)
Definition I915_EXEC_RING_MASK := 7.
Definition I915_EXEC_DEFAULT := 0.
Definition I915_EXEC_RENDER := 1.
Definition I915_EXEC_BSD := 2.
Definition I915_EXEC_BLT := 3.
Definition I915_EXEC_HANDLE_LUT := Z.shiftl 1 12.
Definition I915_EXEC_BATCH_FIRST := Z.shiftl 1 18.
Definition EXEC_OBJECT_PINNED := Z.shiftl 1 4.

(** ** Address-space layout ([intel_dump_gpu.c], defines) *)

Definition MI_BATCH_NON_SECURE_I965 := Z.shiftl 1 8.

Definition MEMORY_MAP_SIZE := 64 * 1024 * 1024.
Definition PTE_SIZE := 4.
Definition GEN8_PTE_SIZE := 8.
Definition NUM_PT_ENTRIES := ALIGN MEMORY_MAP_SIZE 4096 / 4096.

Definition RING_SIZE := 1 * 4096.
Definition PPHWSP_SIZE := 1 * 4096.
Definition GEN10_LR_CONTEXT_RENDER_SIZE := 19 * 4096.
Definition GEN9_LR_CONTEXT_RENDER_SIZE := 22 * 4096.
Definition GEN8_LR_CONTEXT_OTHER_SIZE := 2 * 4096.

Definition STATIC_GGTT_MAP_START := 0.
Definition RENDER_RING_ADDR := STATIC_GGTT_MAP_START.
Definition RENDER_CONTEXT_ADDR := RENDER_RING_ADDR + RING_SIZE.
Definition BLITTER_RING_ADDR :=
  RENDER_CONTEXT_ADDR + PPHWSP_SIZE + GEN10_LR_CONTEXT_RENDER_SIZE.
Definition BLITTER_CONTEXT_ADDR := BLITTER_RING_ADDR + RING_SIZE.
Definition VIDEO_RING_ADDR :=
  BLITTER_CONTEXT_ADDR + PPHWSP_SIZE + GEN8_LR_CONTEXT_OTHER_SIZE.
Definition VIDEO_CONTEXT_ADDR := VIDEO_RING_ADDR + RING_SIZE.
Definition STATIC_GGTT_MAP_END :=
  VIDEO_CONTEXT_ADDR + PPHWSP_SIZE + GEN8_LR_CONTEXT_OTHER_SIZE.
Definition STATIC_GGTT_MAP_SIZE := STATIC_GGTT_MAP_END - STATIC_GGTT_MAP_START.
Definition PML4_PHYS_ADDR := STATIC_GGTT_MAP_END.

Definition CONTEXT_FLAGS := 0x339.
Definition RENDER_CONTEXT_DESCRIPTOR :=
  Z.lor (Z.lor (Z.shiftl 1 62) RENDER_CONTEXT_ADDR) CONTEXT_FLAGS.
Definition BLITTER_CONTEXT_DESCRIPTOR :=
  Z.lor (Z.lor (Z.shiftl 2 62) BLITTER_CONTEXT_ADDR) CONTEXT_FLAGS.
Definition VIDEO_CONTEXT_DESCRIPTOR :=
  Z.lor (Z.lor (Z.shiftl 3 62) VIDEO_CONTEXT_ADDR) CONTEXT_FLAGS.

Definition MAX_BO_COUNT := 64 * 1024.

(** ** The capture side: page tables and stream writer *)

(** The value of one [subtables[i]] pointer. At level 1 the slot holds the
    page's physical address cast to a pointer; at the other levels it points
    to a [calloc]ed [struct aub_ppgtt_table]. *)
Inductive subtable_ptr : Type :=
| NULL
| PhysPtr (addr : Z)
| TablePtr (phys : Z) (subs : list subtable_ptr).

(** [struct aub_ppgtt_table] *)
Record aub_ppgtt_table := mk_table {
  phys_addr : Z;
  subtables : list subtable_ptr
}.

(** [(void * )(v)]: the pointer whose integer value is [v]. *)
Definition ptr_of_Z (v : Z) : subtable_ptr :=
  if v =? 0 then NULL else PhysPtr v.

(** [!table->subtables[i]] *)
Definition is_null (e : subtable_ptr) : bool :=
  match e with NULL => true | _ => false end.

(** [calloc (1, sizeof (struct aub_ppgtt_table))] *)
Definition calloc_table : list subtable_ptr := replicate 512 NULL.

(** [struct gen_device_info], the two fields the tools read. *)
Record gen_device_info := mk_devinfo {
  gen : Z;
  simulator_id : Z
}.

(** [struct aub_file] of the writer. [verbose_log_file] only adds messages
    on stdout and is left out. *)
Record aub_file := mk_aub {
  file : option (list Z);
  pci_id : Z;
  devinfo : gen_device_info;
  addr_bits : Z;
  pml4 : aub_ppgtt_table
}.

Definition set_file (aub : aub_file) (f : option (list Z)) : aub_file :=
  mk_aub f (pci_id aub) (devinfo aub) (addr_bits aub) (pml4 aub).

Definition set_pml4 (aub : aub_file) (t : aub_ppgtt_table) : aub_file :=
  mk_aub (file aub) (pci_id aub) (devinfo aub) (addr_bits aub) t.

(** The bytes of the output file, in file order. *)
Definition stream_of (aub : aub_file) : list Z :=
  match file aub with
  | None => []
  | Some written => reverse written
  end.

Definition aub_use_execlists (aub : aub_file) : bool := 8 <=? gen (devinfo aub).

(** [data_out]: nothing for an empty block, otherwise [fwrite] on
    [aub->file]; writing through a null [FILE *] stops the program. *)
Definition data_out (aub : aub_file) (data : list Z) : outcome aub_file :=
  match data with
  | [] => Done aub
  | _ =>
    match file aub with
    | None => Crash
    | Some written => Done (set_file aub (Some (rev_append data written)))
    end
  end.

Definition dword_out (aub : aub_file) (data : Z) : outcome aub_file :=
  data_out aub (le_bytes 4 (wrap32 data)).

Definition aub_gtt_size (aub : aub_file) : Z :=
  wrap32 (NUM_PT_ENTRIES * (if 32 <? addr_bits aub then GEN8_PTE_SIZE else PTE_SIZE)).

Definition mem_trace_memory_write_header_out
           (aub : aub_file) (addr len addr_space : Z) : outcome aub_file :=
  let dwords := wrap32 (ALIGN len 4 / 4) in
  aub ← dword_out aub (Z.lor CMD_MEM_TRACE_MEMORY_WRITE (wrap32 (5 + dwords - 1)));
  aub ← dword_out aub (Z.land addr 0xFFFFFFFF);
  aub ← dword_out aub (Z.shiftr addr 32);
  aub ← dword_out aub addr_space;
  dword_out aub len.

Definition register_write_out (aub : aub_file) (addr value : Z) : outcome aub_file :=
  let dwords := 1 in
  aub ← dword_out aub (Z.lor CMD_MEM_TRACE_REGISTER_WRITE (5 + dwords - 1));
  aub ← dword_out aub addr;
  aub ← dword_out aub (Z.lor AUB_MEM_TRACE_REGISTER_SIZE_DWORD
                              AUB_MEM_TRACE_REGISTER_SPACE_MMIO);
  aub ← dword_out aub 0xFFFFFFFF;
  aub ← dword_out aub 0x00000000;
  dword_out aub value.

(** A [struct aub_ppgtt_table *] into the tree rooted at [aub->pml4] is the
    list of slot indices leading to the table; [[]] is [&aub->pml4]. *)
Definition table_ref := list nat.

Fixpoint deref (root : aub_ppgtt_table) (p : table_ref) : option aub_ppgtt_table :=
  match p with
  | [] => Some root
  | i :: p' =>
    match subtables root !! i with
    | Some (TablePtr a s) => deref (mk_table a s) p'
    | _ => None
    end
  end.

(** Writing the table a reference points to. *)
Fixpoint store (root : aub_ppgtt_table) (p : table_ref) (t : aub_ppgtt_table)
  : aub_ppgtt_table :=
  match p with
  | [] => t
  | i :: p' =>
    match subtables root !! i with
    | Some (TablePtr a s) =>
      let c := store (mk_table a s) p' t in
      mk_table (phys_addr root)
               (<[i := TablePtr (phys_addr c) (subtables c)]> (subtables root))
    | _ => root
    end
  end.

(** The locals of [populate_ppgtt_table] together with the array it
    updates and the function-static [phys_addrs_allocator]. *)
Record populate_locals := mk_locals {
  pl_subtables : list subtable_ptr;
  pl_allocator : Z;
  pl_entries : list Z;
  dirty_start : Z;
  dirty_end : Z
}.

(** [level == 1 ? (uint64_t)table->subtables[i] : table->subtables[i]->phys_addr] *)
Definition entry_address (level : Z) (e : subtable_ptr) : outcome Z :=
  if level =? 1 then
    match e with
    | NULL => Done 0
    | PhysPtr a => Done a
    | TablePtr _ _ => Crash
    end
  else
    match e with
    | TablePtr a _ => Done a
    | _ => Crash
    end.

(** One iteration of the loop of [populate_ppgtt_table]. *)
Definition populate_iter (level : Z) (i : Z) (st : populate_locals)
  : outcome populate_locals :=
  if negb ((0 <=? i) && (i <? 512)) then Crash else
  match pl_subtables st !! Z.to_nat i with
  | None => Crash
  | Some e =>
    let st1 :=
      if is_null e then
        let a := wrap64 (Z.shiftl (pl_allocator st) 12) in
        mk_locals
          (<[Z.to_nat i := if level =? 1 then ptr_of_Z a
                           else TablePtr a calloc_table]> (pl_subtables st))
          (wrap64 (pl_allocator st + 1))
          (pl_entries st)
          (Z.min (dirty_start st) i)
          (Z.max (dirty_end st) i)
      else st in
    match pl_subtables st1 !! Z.to_nat i with
    | None => Crash
    | Some e1 =>
      a ← entry_address level e1;
      Done (mk_locals (pl_subtables st1) (pl_allocator st1)
                      (<[Z.to_nat i := Z.lor 3 a]> (pl_entries st1))
                      (dirty_start st1) (dirty_end st1))
    end
  end.

(** [populate_ppgtt_table (aub, table, start, end, level)]. The result is the
    writer and the new value of [phys_addrs_allocator]. *)
Definition populate_ppgtt_table (aub : aub_file) (allocator : Z)
           (table : table_ref) (start end_ level : Z) : outcome (aub_file * Z) :=
  match deref (pml4 aub) table with
  | None => Crash
  | Some t =>
    st ← for_each (populate_iter level) (seqZ start (end_ - start + 1))
                   (mk_locals (subtables t) allocator (replicate 512 0) 512 0);
    let aub := set_pml4 aub (store (pml4 aub) table
                                   (mk_table (phys_addr t) (pl_subtables st))) in
    if dirty_start st <=? dirty_end st then
      let write_addr := wrap64 (phys_addr t + dirty_start st * 8) in
      let write_size := wrap64 ((dirty_end st - dirty_start st + 1) * 8) in
      aub ← mem_trace_memory_write_header_out
               aub write_addr write_size
               AUB_MEM_TRACE_MEMORY_ADDRESS_SPACE_PHYSICAL;
      aub ← data_out aub
               (concat (le_bytes 8 <$>
                        slice (pl_entries st) (dirty_start st)
                              (dirty_end st - dirty_start st + 1)));
      Done (aub, pl_allocator st)
    else Done (aub, pl_allocator st)
  end.

Definition L4_index (addr : Z) : Z := Z.land (Z.shiftr addr 39) 0x1ff.
Definition L3_index (addr : Z) : Z := Z.land (Z.shiftr addr 30) 0x1ff.
Definition L2_index (addr : Z) : Z := Z.land (Z.shiftr addr 21) 0x1ff.
Definition L1_index (addr : Z) : Z := Z.land (Z.shiftr addr 12) 0x1ff.

Definition L3_table (addr : Z) : table_ref := [Z.to_nat (L4_index addr)].
Definition L2_table (addr : Z) : table_ref :=
  [Z.to_nat (L4_index addr); Z.to_nat (L3_index addr)].
Definition L1_table (addr : Z) : table_ref :=
  [Z.to_nat (L4_index addr); Z.to_nat (L3_index addr); Z.to_nat (L2_index addr)].

(** [aub_map_ppgtt (aub, start, size)] *)
Definition aub_map_ppgtt (aub : aub_file) (allocator : Z) (start size : Z)
  : outcome (aub_file * Z) :=
  let last := wrap64 (start + size - 1) in
  let l4_start := Z.land start 0xff8000000000 in
  let l4_end := Z.land (Z.lor last 0x007fffffffff) 0xffffffffffff in
  s ← populate_ppgtt_table aub allocator [] (L4_index l4_start) (L4_index l4_end) 4;
  for_each (fun l4 '(aub, allocator) =>
    let l3_start := Z.max l4 (Z.land start 0xffffc0000000) in
    let l3_end := Z.min (l4 + 2 ^ 39 - 1)
                        (Z.land (Z.lor last 0x00003fffffff) 0xffffffffffff) in
    s ← populate_ppgtt_table aub allocator (L3_table l4)
                              (L3_index l3_start) (L3_index l3_end) 3;
    for_each (fun l3 '(aub, allocator) =>
      let l2_start := Z.max l3 (Z.land start 0xffffffe00000) in
      let l2_end := Z.min (l3 + 2 ^ 30 - 1)
                          (Z.land (Z.lor last 0x0000001fffff) 0xffffffffffff) in
      s ← populate_ppgtt_table aub allocator (L2_table l3)
                                (L2_index l2_start) (L2_index l2_end) 2;
      for_each (fun l2 '(aub, allocator) =>
        let l1_start := Z.max l2 (Z.land start 0xfffffffff000) in
        let l1_end := Z.min (l2 + 2 ^ 21 - 1)
                            (Z.land (Z.lor last 0x000000000fff) 0xffffffffffff) in
        populate_ppgtt_table aub allocator (L1_table l2)
                             (L1_index l1_start) (L1_index l1_end) 1)
        (for_values l2_start l2_end (2 ^ 21)) s)
      (for_values l3_start l3_end (2 ^ 30)) s)
    (for_values l4_start l4_end (2 ^ 39)) s.

(** [ppgtt_lookup (aub, ppgtt_addr)] *)
Definition ppgtt_lookup (aub : aub_file) (ppgtt_addr : Z) : outcome Z :=
  match deref (pml4 aub) (L1_table ppgtt_addr) with
  | None => Crash
  | Some t =>
    match subtables t !! Z.to_nat (L1_index ppgtt_addr) with
    | Some NULL => Done 0
    | Some (PhysPtr a) => Done a
    | _ => Crash
    end
  end.

(** [aub_file_init]; [gen_get_device_info] belongs to the device database
    and is passed in already applied to [pci_id]. *)
Definition aub_file_init (f : option (list Z)) (id : Z)
           (info : option gen_device_info) : outcome aub_file :=
  match info with
  | None => Trap "failed to identify chipset"
  | Some di =>
    Done (mk_aub f id di (if 8 <=? gen di then 48 else 32)
                 (mk_table PML4_PHYS_ADDR calloc_table))
  end.

(** The initial value of the static [phys_addrs_allocator]. *)
Definition phys_addrs_allocator_init : Z := Z.shiftr PML4_PHYS_ADDR 12 + 1.


(** ** The capture side: header, memory blocks, relocations, submission *)

(** Digits of [%X] / [%x]. *)
Definition hex_digit (upper : bool) (d : Z) : Z :=
  if d <? 10 then 48 + d else (if upper then 55 else 87) + d.

Fixpoint hex_digits (fuel : nat) (upper : bool) (n : Z) (acc : list Z) : list Z :=
  match fuel with
  | O => acc
  | S k =>
    let acc := hex_digit upper (n mod 16) :: acc in
    if n / 16 =? 0 then acc else hex_digits k upper (n / 16) acc
  end.

Definition format_hex (upper : bool) (n : Z) : list Z := hex_digits 16 upper n [].

(** ASCII codes of a string literal. *)
Definition ascii_codes (s : string) : list Z :=
  (fun c => Z.of_N (Ascii.N_of_ascii c)) <$> list_ascii_of_string s.

(** The contents of a [char buf[n]] after [snprintf (buf, n, ...)] produced
    [text]: at most [n - 1] characters and a terminating NUL. The bytes
    after the NUL are indeterminate in C; they are taken to be 0. *)
Definition snprintf_buffer (n : nat) (text : list Z) : list Z :=
  let kept := take (n - 1) text in
  kept ++ replicate (n - length kept) 0.

(** [context_init] arrays: the initialised prefix, zero-filled to the
    array size, as bytes. *)
Definition MI_LOAD_REGISTER_IMM_n (n : Z) : Z := Z.lor (Z.shiftl 0x22 23) (2 * n - 1).
Definition MI_LRI_FORCE_POSTED : Z := Z.shiftl 1 12.
Definition MI_BATCH_BUFFER_END : Z := Z.shiftl 0xA 23.

Definition dwords_image (size : Z) (init : list Z) : list Z :=
  let bytes := concat (le_bytes 4 <$> (wrap32 <$> init)) in
  bytes ++ replicate (Z.to_nat size - length bytes) 0.

Definition render_context_init : list Z :=
  dwords_image GEN9_LR_CONTEXT_RENDER_SIZE
    ([ 0; Z.lor (MI_LOAD_REGISTER_IMM_n 14) MI_LRI_FORCE_POSTED;
       0x2244; 0x90009;
       0x2034; 0;
       0x2030; 0;
       0x2038; RENDER_RING_ADDR;
       0x203C; Z.lor (RING_SIZE - 4096) 1;
       0x2168; 0;
       0x2140; 0;
       0x2110; 0;
       0x211C; 0;
       0x2114; 0;
       0x2118; 0;
       0x21C0; 0;
       0x21C4; 0;
       0x21C8; 0;
       0; 0;
       0; Z.lor (MI_LOAD_REGISTER_IMM_n 9) MI_LRI_FORCE_POSTED;
       0x23A8; 0;
       0x228C; 0;
       0x2288; 0;
       0x2284; 0;
       0x2280; 0;
       0x227C; 0;
       0x2278; 0;
       0x2274; Z.shiftr PML4_PHYS_ADDR 32;
       0x2270; PML4_PHYS_ADDR;
       0; 0; 0; 0; 0; 0; 0; 0; 0; 0; 0; 0;
       0; MI_LOAD_REGISTER_IMM_n 1;
       0x20C8; 0x7FFFFFFF;
       MI_BATCH_BUFFER_END ]).

Definition blitter_context_init : list Z :=
  dwords_image GEN8_LR_CONTEXT_OTHER_SIZE
    ([ 0; Z.lor (MI_LOAD_REGISTER_IMM_n 11) MI_LRI_FORCE_POSTED;
       0x22244; 0x90009;
       0x22034; 0;
       0x22030; 0;
       0x22038; BLITTER_RING_ADDR;
       0x2203C; Z.lor (RING_SIZE - 4096) 1;
       0x22168; 0;
       0x22140; 0;
       0x22110; 0;
       0x2211C; 0;
       0x22114; 0;
       0x22118; 0;
       0; 0; 0; 0; 0; 0; 0; 0;
       0; Z.lor (MI_LOAD_REGISTER_IMM_n 9) MI_LRI_FORCE_POSTED;
       0x223A8; 0;
       0x2228C; 0;
       0x22288; 0;
       0x22284; 0;
       0x22280; 0;
       0x2227C; 0;
       0x22278; 0;
       0x22274; Z.shiftr PML4_PHYS_ADDR 32;
       0x22270; PML4_PHYS_ADDR;
       0; 0; 0; 0; 0; 0; 0; 0; 0; 0; 0; 0;
       MI_BATCH_BUFFER_END ]).

Definition video_context_init : list Z :=
  dwords_image GEN8_LR_CONTEXT_OTHER_SIZE
    ([ 0; Z.lor (MI_LOAD_REGISTER_IMM_n 11) MI_LRI_FORCE_POSTED;
       0x1C244; 0x90009;
       0x1C034; 0;
       0x1C030; 0;
       0x1C038; VIDEO_RING_ADDR;
       0x1C03C; Z.lor (RING_SIZE - 4096) 1;
       0x1C168; 0;
       0x1C140; 0;
       0x1C110; 0;
       0x1C11C; 0;
       0x1C114; 0;
       0x1C118; 0;
       0; 0; 0; 0; 0; 0; 0; 0;
       0; Z.lor (MI_LOAD_REGISTER_IMM_n 9) MI_LRI_FORCE_POSTED;
       0x1C3A8; 0;
       0x1C28C; 0;
       0x1C288; 0;
       0x1C284; 0;
       0x1C280; 0;
       0x1C27C; 0;
       0x1C278; 0;
       0x1C274; Z.shiftr PML4_PHYS_ADDR 32;
       0x1C270; PML4_PHYS_ADDR;
       0; 0; 0; 0; 0; 0; 0; 0; 0; 0; 0; 0;
       MI_BATCH_BUFFER_END ]).

Definition HWS_PGA_RCSUNIT := 0x02080.
Definition HWS_PGA_VCSUNIT0 := 0x12080.
Definition HWS_PGA_BCSUNIT := 0x22080.
Definition GFX_MODE_RCSUNIT := 0x0229c.
Definition GFX_MODE_VCSUNIT0 := 0x1229c.
Definition GFX_MODE_BCSUNIT := 0x2229c.
Definition EXECLIST_SUBMITPORT_RCSUNIT := 0x02230.
Definition EXECLIST_SUBMITPORT_VCSUNIT0 := 0x12230.
Definition EXECLIST_SUBMITPORT_BCSUNIT := 0x22230.
Definition EXECLIST_STATUS_RCSUNIT := 0x02234.
Definition EXECLIST_STATUS_VCSUNIT0 := 0x12234.
Definition EXECLIST_STATUS_BCSUNIT := 0x22234.
Definition EXECLIST_SQ_CONTENTS0_RCSUNIT := 0x02510.
Definition EXECLIST_SQ_CONTENTS0_VCSUNIT0 := 0x12510.
Definition EXECLIST_SQ_CONTENTS0_BCSUNIT := 0x22510.
Definition EXECLIST_CONTROL_RCSUNIT := 0x02550.
Definition EXECLIST_CONTROL_VCSUNIT0 := 0x12550.
Definition EXECLIST_CONTROL_BCSUNIT := 0x22550.

(** [for (i = 0; i < n; i += 4) dword_out (aub, 0)] *)
Definition zero_dwords_out (aub : aub_file) (n : Z) : outcome aub_file :=
  for_each (fun _ aub => dword_out aub 0) (for_values 0 n 4) aub.

Definition write_execlists_header (aub : aub_file) (name : list Z)
  : outcome aub_file :=
  let text := ascii_codes "PCI-ID=0x" ++ format_hex true (pci_id aub)
              ++ ascii_codes " " ++ name in
  let app_name := snprintf_buffer 32 text in
  let app_name_len := ALIGN (Z.of_nat (length text)) 4 in
  let dwords := 5 + app_name_len / 4 in
  aub ← dword_out aub (Z.lor CMD_MEM_TRACE_VERSION (dwords - 1));
  aub ← dword_out aub AUB_MEM_TRACE_VERSION_FILE_VERSION;
  aub ← dword_out aub (Z.shiftl (simulator_id (devinfo aub))
                                AUB_MEM_TRACE_VERSION_DEVICE_SHIFT);
  aub ← dword_out aub 0;
  aub ← dword_out aub 0;
  (* reading [app_name] past its 32 bytes is out of bounds *)
  aub ← (if 32 <? app_name_len then Crash
         else data_out aub (slice app_name 0 app_name_len));
  (* GGTT PT *)
  let ggtt_ptes := Z.shiftr STATIC_GGTT_MAP_SIZE 12 in
  aub ← mem_trace_memory_write_header_out
          aub (Z.shiftr STATIC_GGTT_MAP_START 12) (ggtt_ptes * GEN8_PTE_SIZE)
          AUB_MEM_TRACE_MEMORY_ADDRESS_SPACE_GGTT_ENTRY;
  aub ← for_each (fun i aub =>
                    aub ← dword_out aub (1 + 0x1000 * i + STATIC_GGTT_MAP_START);
                    dword_out aub 0)
                 (for_values 0 ggtt_ptes 1) aub;
  (* RENDER_RING *)
  aub ← mem_trace_memory_write_header_out
          aub RENDER_RING_ADDR RING_SIZE AUB_MEM_TRACE_MEMORY_ADDRESS_SPACE_GGTT;
  aub ← zero_dwords_out aub RING_SIZE;
  (* RENDER_PPHWSP, RENDER_CONTEXT *)
  aub ← mem_trace_memory_write_header_out
          aub RENDER_CONTEXT_ADDR
          (PPHWSP_SIZE + Z.of_nat (length render_context_init))
          AUB_MEM_TRACE_MEMORY_ADDRESS_SPACE_GGTT;
  aub ← zero_dwords_out aub PPHWSP_SIZE;
  aub ← data_out aub render_context_init;
  (* BLITTER_RING *)
  aub ← mem_trace_memory_write_header_out
          aub BLITTER_RING_ADDR RING_SIZE AUB_MEM_TRACE_MEMORY_ADDRESS_SPACE_GGTT;
  aub ← zero_dwords_out aub RING_SIZE;
  (* BLITTER_PPHWSP, BLITTER_CONTEXT *)
  aub ← mem_trace_memory_write_header_out
          aub BLITTER_CONTEXT_ADDR
          (PPHWSP_SIZE + Z.of_nat (length blitter_context_init))
          AUB_MEM_TRACE_MEMORY_ADDRESS_SPACE_GGTT;
  aub ← zero_dwords_out aub PPHWSP_SIZE;
  aub ← data_out aub blitter_context_init;
  (* VIDEO_RING *)
  aub ← mem_trace_memory_write_header_out
          aub VIDEO_RING_ADDR RING_SIZE AUB_MEM_TRACE_MEMORY_ADDRESS_SPACE_GGTT;
  aub ← zero_dwords_out aub RING_SIZE;
  (* VIDEO_PPHWSP, VIDEO_CONTEXT *)
  aub ← mem_trace_memory_write_header_out
          aub VIDEO_CONTEXT_ADDR
          (PPHWSP_SIZE + Z.of_nat (length video_context_init))
          AUB_MEM_TRACE_MEMORY_ADDRESS_SPACE_GGTT;
  aub ← zero_dwords_out aub PPHWSP_SIZE;
  aub ← data_out aub video_context_init;
  aub ← register_write_out aub HWS_PGA_RCSUNIT RENDER_CONTEXT_ADDR;
  aub ← register_write_out aub HWS_PGA_VCSUNIT0 VIDEO_CONTEXT_ADDR;
  aub ← register_write_out aub HWS_PGA_BCSUNIT BLITTER_CONTEXT_ADDR;
  aub ← register_write_out aub GFX_MODE_RCSUNIT 0x80008000;
  aub ← register_write_out aub GFX_MODE_VCSUNIT0 0x80008000;
  register_write_out aub GFX_MODE_BCSUNIT 0x80008000.

Definition write_legacy_header (aub : aub_file) (name : list Z) : outcome aub_file :=
  let entry := 0x200003 in
  let text := ascii_codes "PCI-ID=0x" ++ format_hex false (pci_id aub) in
  let comment := snprintf_buffer 16 text in
  let comment_len := Z.of_nat (length text) in
  let comment_dwords := (comment_len + 3) / 4 in
  let dwords := 13 + comment_dwords in
  aub ← dword_out aub (Z.lor CMD_AUB_HEADER (dwords - 2));
  aub ← dword_out aub (Z.lor (Z.shiftl 4 AUB_HEADER_MAJOR_SHIFT)
                             (Z.shiftl 0 AUB_HEADER_MINOR_SHIFT));
  (* strncpy into 32 bytes, last byte forced to 0 *)
  let app_name := take 31 (take 32 name ++ replicate (32 - length name) 0) ++ [0] in
  aub ← data_out aub app_name;
  aub ← dword_out aub 0;
  aub ← dword_out aub 0;
  aub ← dword_out aub comment_len;
  aub ← (if 16 <? comment_dwords * 4 then Crash
         else data_out aub (slice comment 0 (comment_dwords * 4)));
  aub ← dword_out aub (Z.lor CMD_AUB_TRACE_HEADER_BLOCK
                             ((if 32 <? addr_bits aub then 6 else 5) - 2));
  aub ← dword_out aub (Z.lor (Z.lor AUB_TRACE_MEMTYPE_GTT_ENTRY AUB_TRACE_TYPE_NOTYPE)
                             AUB_TRACE_OP_DATA_WRITE);
  aub ← dword_out aub 0;
  aub ← dword_out aub 0;
  aub ← dword_out aub (aub_gtt_size aub);
  aub ← (if 32 <? addr_bits aub then dword_out aub 0 else Done aub);
  for_each (fun i aub =>
              aub ← dword_out aub (entry + 0x1000 * i);
              if 32 <? addr_bits aub then dword_out aub 0 else Done aub)
           (for_values 0 NUM_PT_ENTRIES 1) aub.

Definition aub_write_header (aub : aub_file) (app_name : list Z) : outcome aub_file :=
  if aub_use_execlists aub
  then write_execlists_header aub app_name
  else write_legacy_header aub app_name.

(** [static const char null_block[8 * 4096]] *)
Definition null_block : list Z := replicate (Z.to_nat (8 * 4096)) 0.

(** [aub_write_trace_block]. [virtual] is [None] for a null pointer; the
    memory behind it is taken to hold [size] bytes (where the list is
    shorter the slice is, and the C code reads past the end). [fuel]
    bounds the number of passes of the loop; [None] is returned only when
    it runs out while [offset < size] still holds. *)
Fixpoint aub_write_trace_block_loop (fuel : nat) (aub : aub_file)
         (type : Z) (virtual : option (list Z)) (size gtt_offset offset : Z)
  : option (outcome aub_file) :=
  if negb (offset <? size) then Some (Done aub) else
  match fuel with
  | O => None
  | S fuel =>
    let block_size := Z.min (8 * 4096) (wrap32 (size - offset)) in
    let subtype := 0 in
    let head :=
      if aub_use_execlists aub then
        let block_size := Z.min 4096 block_size in
        a ← ppgtt_lookup aub (wrap64 (gtt_offset + offset));
        aub ← mem_trace_memory_write_header_out
                aub a block_size AUB_MEM_TRACE_MEMORY_ADDRESS_SPACE_PHYSICAL;
        Done (aub, block_size)
      else
        aub ← dword_out aub (Z.lor CMD_AUB_TRACE_HEADER_BLOCK
                                   ((if 32 <? addr_bits aub then 6 else 5) - 2));
        aub ← dword_out aub (Z.lor (Z.lor AUB_TRACE_MEMTYPE_GTT type)
                                   AUB_TRACE_OP_DATA_WRITE);
        aub ← dword_out aub subtype;
        aub ← dword_out aub (wrap64 (gtt_offset + offset));
        aub ← dword_out aub (align_u32 block_size 4);
        aub ← (if 32 <? addr_bits aub
               then dword_out aub (Z.shiftr (wrap64 (gtt_offset + offset)) 32)
               else Done aub);
        Done (aub, block_size) in
    match head with
    | Done (aub, block_size) =>
      let payload :=
        match virtual with
        | Some data => data_out aub (slice data offset block_size)
        | None => data_out aub (slice null_block 0 block_size)
        end in
      match (aub ← payload;
             (* Pad to a multiple of 4 bytes. *)
             data_out aub (slice null_block 0 (Z.land (wrap32 (- block_size)) 3))) with
      | Done aub =>
        aub_write_trace_block_loop fuel aub type virtual size gtt_offset
                                   (wrap32 (offset + block_size))
      | Trap m => Some (Trap m)
      | Crash => Some Crash
      | Hang => Some Hang
      end
    | Trap m => Some (Trap m)
    | Crash => Some Crash
    | Hang => Some Hang
    end
  end.

Definition aub_write_trace_block (aub : aub_file) (type : Z)
           (virtual : option (list Z)) (size gtt_offset : Z)
  : option (outcome aub_file) :=
  aub_write_trace_block_loop (Z.to_nat (size / 4096) + 1)
                             aub type virtual size gtt_offset 0.

(** [(((int64_t)v) << shift) >> shift] with [shift = 63 - 47], read back as
    [uint64_t]. *)
Definition canonical_address (v : Z) : Z :=
  let shift := 63 - 47 in
  let shifted := wrap64 (Z.shiftl v shift) in
  let signed := if shifted <? 2 ^ 63 then shifted else shifted - 2 ^ 64 in
  wrap64 (Z.shiftr signed shift).

(** [aub_write_reloc (devinfo, p, v)], where [p] is [buf + off]. A store
    that does not fit the buffer is out of bounds. *)
Definition aub_write_reloc (di : gen_device_info) (buf : list Z) (off v : Z)
  : outcome (list Z) :=
  if 8 <=? gen di then
    if off + 8 <=? Z.of_nat (length buf)
    then Done (blit buf off (le_bytes 8 (canonical_address v)))
    else Crash
  else
    if off + 4 <=? Z.of_nat (length buf)
    then Done (blit buf off (le_bytes 4 (wrap32 v)))
    else Crash.

Definition ring_registers (ring_flag : Z) : outcome (Z * Z * Z * Z * Z * Z) :=
  if (ring_flag =? I915_EXEC_DEFAULT) || (ring_flag =? I915_EXEC_RENDER) then
    Done (RENDER_RING_ADDR, RENDER_CONTEXT_DESCRIPTOR, EXECLIST_SUBMITPORT_RCSUNIT,
          EXECLIST_SQ_CONTENTS0_RCSUNIT, EXECLIST_STATUS_RCSUNIT,
          EXECLIST_CONTROL_RCSUNIT)
  else if ring_flag =? I915_EXEC_BSD then
    Done (VIDEO_RING_ADDR, VIDEO_CONTEXT_DESCRIPTOR, EXECLIST_SUBMITPORT_VCSUNIT0,
          EXECLIST_SQ_CONTENTS0_VCSUNIT0, EXECLIST_STATUS_VCSUNIT0,
          EXECLIST_CONTROL_VCSUNIT0)
  else if ring_flag =? I915_EXEC_BLT then
    Done (BLITTER_RING_ADDR, BLITTER_CONTEXT_DESCRIPTOR, EXECLIST_SUBMITPORT_BCSUNIT,
          EXECLIST_SQ_CONTENTS0_BCSUNIT, EXECLIST_STATUS_BCSUNIT,
          EXECLIST_CONTROL_BCSUNIT)
  else Crash (* unreachable ("unknown ring") *).

Definition aub_dump_execlist (aub : aub_file) (batch_offset ring_flag : Z)
  : outcome aub_file :=
  '(ring_addr, descriptor, elsp_reg, elsq_reg, status_reg, control_reg)
     ← ring_registers ring_flag;
  aub ← mem_trace_memory_write_header_out
          aub ring_addr 16 AUB_MEM_TRACE_MEMORY_ADDRESS_SPACE_GGTT;
  aub ← dword_out aub (Z.lor (Z.lor AUB_MI_BATCH_BUFFER_START MI_BATCH_NON_SECURE_I965)
                             (3 - 2));
  aub ← dword_out aub (Z.land batch_offset 0xFFFFFFFF);
  aub ← dword_out aub (Z.shiftr batch_offset 32);
  aub ← dword_out aub 0;
  aub ← mem_trace_memory_write_header_out
          aub (ring_addr + 8192 + 20) 4 AUB_MEM_TRACE_MEMORY_ADDRESS_SPACE_GGTT;
  aub ← dword_out aub 0; (* RING_BUFFER_HEAD *)
  aub ← mem_trace_memory_write_header_out
          aub (ring_addr + 8192 + 28) 4 AUB_MEM_TRACE_MEMORY_ADDRESS_SPACE_GGTT;
  aub ← dword_out aub 16; (* RING_BUFFER_TAIL *)
  aub ← (if 11 <=? gen (devinfo aub) then
           aub ← register_write_out aub elsq_reg (Z.land descriptor 0xFFFFFFFF);
           aub ← register_write_out aub (elsq_reg + 4) (Z.shiftr descriptor 32);
           register_write_out aub control_reg 1
         else
           aub ← register_write_out aub elsp_reg 0;
           aub ← register_write_out aub elsp_reg 0;
           aub ← register_write_out aub elsp_reg (Z.shiftr descriptor 32);
           register_write_out aub elsp_reg (Z.land descriptor 0xFFFFFFFF));
  aub ← dword_out aub (Z.lor CMD_MEM_TRACE_REGISTER_POLL (5 + 1 - 1));
  aub ← dword_out aub status_reg;
  aub ← dword_out aub (Z.lor AUB_MEM_TRACE_REGISTER_SIZE_DWORD
                             AUB_MEM_TRACE_REGISTER_SPACE_MMIO);
  if 11 <=? gen (devinfo aub) then
    aub ← dword_out aub 0x00000001;
    aub ← dword_out aub 0x00000000;
    dword_out aub 0x00000001
  else
    aub ← dword_out aub 0x00000010;
    aub ← dword_out aub 0x00000000;
    dword_out aub 0x00000000.

Definition aub_dump_ringbuffer (aub : aub_file) (batch_offset offset ring_flag : Z)
  : outcome aub_file :=
  let ring :=
    if ring_flag =? I915_EXEC_BSD then AUB_TRACE_TYPE_RING_PRB1
    else if ring_flag =? I915_EXEC_BLT then AUB_TRACE_TYPE_RING_PRB2
    else AUB_TRACE_TYPE_RING_PRB0 in
  let ringbuffer := replicate (Z.to_nat (4096 * 4)) 0 in
  let aub_mi_bbs_len := if 32 <? addr_bits aub then 3 else 2 in
  let ringbuffer :=
    blit ringbuffer 0 (le_bytes 4 (Z.lor AUB_MI_BATCH_BUFFER_START (aub_mi_bbs_len - 2))) in
  ringbuffer ← aub_write_reloc (devinfo aub) ringbuffer 4 batch_offset;
  let ring_count := aub_mi_bbs_len in
  aub ← dword_out aub (Z.lor CMD_AUB_TRACE_HEADER_BLOCK
                             ((if 32 <? addr_bits aub then 6 else 5) - 2));
  aub ← dword_out aub (Z.lor (Z.lor AUB_TRACE_MEMTYPE_GTT ring)
                             AUB_TRACE_OP_COMMAND_WRITE);
  aub ← dword_out aub 0;
  aub ← dword_out aub offset;
  aub ← dword_out aub (ring_count * 4);
  aub ← (if 32 <? addr_bits aub then dword_out aub (Z.shiftr offset 32) else Done aub);
  data_out aub (slice ringbuffer 0 (ring_count * 4)).

(** [aub_write_exec]; the closing [fflush] does not change the bytes of the
    stream. *)
Definition aub_write_exec (aub : aub_file) (batch_addr offset ring_flag : Z)
  : outcome aub_file :=
  if aub_use_execlists aub
  then aub_dump_execlist aub batch_addr ring_flag
  else aub_dump_ringbuffer aub batch_addr offset ring_flag.

(** ** The capture shim *)

(** The value of [bo->map]: null, [MAP_FAILED], or a mapping with its
    contents; [userptr] is the [USERPTR_FLAG] bit of the pointer. *)
Inductive map_ptr : Type :=
| MapNull
| MapFailed
| Mapped (userptr : bool) (contents : list Z).

(** [struct bo] *)
Record bo := mk_bo {
  bo_size : Z;
  bo_offset : Z;
  bo_map : map_ptr
}.

(** An element of the [calloc]ed [bos] array. *)
Definition zero_bo : bo := mk_bo 0 0 MapNull.

(** [GET_PTR (p)] as the buffer the pointer designates. *)
Definition GET_PTR (p : map_ptr) : option (list Z) :=
  match p with
  | Mapped _ contents => Some contents
  | _ => None
  end.

(** [struct drm_i915_gem_relocation_entry], the fields read. *)
Record relocation_entry := mk_reloc {
  target_handle : Z;
  delta : Z;
  reloc_offset : Z
}.

(** [struct drm_i915_gem_exec_object2], the fields read;
    [relocation_count] is the length of [relocs]. *)
Record exec_object2 := mk_obj {
  handle : Z;
  relocs : list relocation_entry;
  alignment : Z;
  obj_offset : Z;
  obj_flags : Z
}.

(** [struct drm_i915_gem_execbuffer2], the fields read; [buffer_count] is
    the length of [buffers]. *)
Record execbuffer2 := mk_execbuffer2 {
  buffers : list exec_object2;
  batch_start_offset : Z;
  eb_flags : Z
}.

(** What the shim obtains from outside: the kernel's answers and the
    device database. *)
Record environment := mk_env {
  gem_get_param_chipset_id : Z;
  gen_get_device_info : Z -> option gen_device_info;
  gem_mmap : Z -> Z -> map_ptr;
  program_invocation_short_name : list Z
}.

(** The globals of [intel_dump_gpu.c]. [files[i]] and [aubs[i].file] are the
    same [FILE *] once [aub_file_init] has run: the bytes written are kept
    in [aubs[i]], and [files] records which of the two streams are open. *)
Record shim_state := mk_shim {
  files : list bool;
  verbose : Z;
  device_override : bool;
  device : Z;
  shim_devinfo : gen_device_info;
  aubs : list aub_file;
  bos : gmap Z bo;
  phys_addrs_allocator : Z
}.

(** A zero-initialised [struct aub_file]. *)
Definition zero_aub : aub_file :=
  mk_aub None 0 (mk_devinfo 0 0) 0 (mk_table 0 calloc_table).

Definition bos_get (m : gmap Z bo) (h : Z) : bo := default zero_bo (m !! h).

(** [get_bo] *)
Definition get_bo (m : gmap Z bo) (h : Z) : outcome bo :=
  _ ← fail_if (MAX_BO_COUNT <=? h) "bo handle too large";
  Done (bos_get m h).

(** [(int) v] for a 32-bit quantity [v]. *)
Definition to_int (v : Z) : Z :=
  let w := wrap32 v in if w <? 2 ^ 31 then w else w - 2 ^ 32.

(** [add_new_bo]; [handle] is an [int] and [bo->size] a [uint32_t]. A
    handle of [MAX_BO_COUNT] or more stops at the first [fail_if]; a
    negative one passes both and the stores land before the array. *)
Definition add_new_bo (m : gmap Z bo) (h size : Z) (map : map_ptr)
  : outcome (gmap Z bo) :=
  _ ← fail_if (MAX_BO_COUNT <=? h) "intel_aubdump: bo handle out of range";
  _ ← fail_if (size =? 0) "intel_aubdump: bo size is invalid";
  if h <? 0 then Crash
  else Done (<[h := mk_bo (wrap32 size) (bo_offset (bos_get m h)) map]> m).

(** [remove_bo] *)
Definition remove_bo (m : gmap Z bo) (h : Z) : outcome (gmap Z bo) :=
  b ← get_bo m h;
  Done (<[h := mk_bo 0 (bo_offset b) MapNull]> m).

(** One pass of the loop of [relocate_bo]: the relocation [r] of the buffer
    [b] is applied to the private copy. *)
Definition relocate_entry (di : gen_device_info) (m : gmap Z bo) (b : bo)
           (eb : execbuffer2) (r : relocation_entry) (relocated : list Z)
  : outcome (list Z) :=
  _ ← fail_if (bo_size b <=? reloc_offset r) "intel_aubdump: reloc outside bo";
  h ← (if negb (Z.land (eb_flags eb) I915_EXEC_HANDLE_LUT =? 0) then
         match buffers eb !! Z.to_nat (target_handle r) with
         | Some o => Done (handle o)
         | None => Crash
         end
       else Done (target_handle r));
  target ← get_bo m h;
  aub_write_reloc di relocated (reloc_offset r)
                  (wrap64 (bo_offset target + delta r)).

(** [relocate_bo]: the relocated private copy of the buffer's contents. *)
Definition relocate_bo (di : gen_device_info) (m : gmap Z bo) (b : bo)
           (eb : execbuffer2) (obj : exec_object2) : outcome (list Z) :=
  match GET_PTR (bo_map b) with
  | None => Crash
  | Some contents =>
    for_each (relocate_entry di m b eb) (relocs obj) (slice contents 0 (bo_size b))
  end.

(** Applying a writer operation to [aubs[i]] for every open [files[i]]. *)
Definition for_open_files (st : shim_state)
           (op : aub_file -> Z -> outcome (aub_file * Z)) : outcome shim_state :=
  for_each (fun i st =>
    match files st !! i, aubs st !! i with
    | Some true, Some aub =>
      '(aub, allocator) ← op aub (phys_addrs_allocator st);
      Done (mk_shim (files st) (verbose st) (device_override st) (device st)
                    (shim_devinfo st) (<[i := aub]> (aubs st)) (bos st) allocator)
    | _, _ => Done st
    end) (seq 0 2) st.

Definition set_bos (st : shim_state) (m : gmap Z bo) : shim_state :=
  mk_shim (files st) (verbose st) (device_override st) (device st)
          (shim_devinfo st) (aubs st) m (phys_addrs_allocator st).

(** The result of the first loop of [dump_execbuffer2]: it either runs to
    the end, leaving the value of [offset], or executes the [return] of the
    invalid-buffer test. *)
Inductive first_pass : Type :=
| Continue (st : shim_state) (offset : Z)
| Returned (st : shim_state).

Definition assign_offsets_step (env : environment) (obj : exec_object2)
           (r : first_pass) : outcome first_pass :=
  match r with
  | Returned st => Done (Returned st)
  | Continue st offset =>
    b ← get_bo (bos st) (handle obj);
    (* If bo->size == 0, this means they passed us an invalid buffer.
       The kernel will reject it and so should we. *)
    if bo_size b =? 0 then Done (Returned st) else
    let '(b, offset) :=
      if negb (Z.land (obj_flags obj) EXEC_OBJECT_PINNED =? 0) then
        (mk_bo (bo_size b) (obj_offset obj) (bo_map b), offset)
      else
        let offset := if negb (alignment obj =? 0)
                      then align_u32 offset (alignment obj) else offset in
        (mk_bo (bo_size b) offset (bo_map b),
         align_u32 (wrap32 (offset + bo_size b + 4095)) 4096) in
    let b := match bo_map b with
             | MapNull => if 0 <? bo_size b
                          then mk_bo (bo_size b) (bo_offset b)
                                     (gem_mmap env (handle obj) (bo_size b))
                          else b
             | _ => b
             end in
    _ ← fail_if (match bo_map b with MapFailed => true | _ => false end)
                "intel_aubdump: bo mmap failed";
    let st := set_bos st (<[handle obj := b]> (bos st)) in
    st ← for_open_files st (fun aub allocator =>
            if aub_use_execlists aub
            then aub_map_ppgtt aub allocator (bo_offset b) (bo_size b)
            else Done (aub, allocator));
    Done (Continue st offset)
  end.

(** The initialisation block at the top of [dump_execbuffer2]. *)
Definition dump_execbuffer2_init (env : environment) (st : shim_state)
  : outcome shim_state :=
  st ← (if device st =? 0 then
          let dev := gem_get_param_chipset_id env in
          _ ← fail_if ((dev =? 0) || (gen (shim_devinfo st) =? 0))
                      "failed to identify chipset";
          Done (mk_shim (files st) (verbose st) (device_override st) dev
                        (shim_devinfo st) (aubs st) (bos st) (phys_addrs_allocator st))
        else Done st);
  if gen (shim_devinfo st) =? 0 then
    match gen_get_device_info env (device st) with
    | None => Trap "failed to identify chipset"
    | Some di =>
      let st := mk_shim (files st) (verbose st) (device_override st) (device st)
                        di (aubs st) (bos st) (phys_addrs_allocator st) in
      for_each (fun i st =>
        match files st !! i with
        | Some true =>
          aub ← aub_file_init (Some []) (device st)
                              (gen_get_device_info env (device st));
          aub ← aub_write_header aub (program_invocation_short_name env);
          Done (mk_shim (files st) (verbose st) (device_override st) (device st)
                        (shim_devinfo st) (<[i := aub]> (aubs st)) (bos st)
                        (phys_addrs_allocator st))
        | _ => Done st
        end) (seq 0 2) st
    end
  else Done st.

(** The second loop of [dump_execbuffer2]: every buffer's contents are
    written to every open file. *)
Definition write_buffers_step (eb : execbuffer2) (batch_handle : Z)
           (obj : exec_object2) (st : shim_state) : outcome shim_state :=
  b ← get_bo (bos st) (handle obj);
  data ← (if 0 <? Z.of_nat (length (relocs obj))
          then d ← relocate_bo (shim_devinfo st) (bos st) b eb obj; Done (Some d)
          else Done (GET_PTR (bo_map b)));
  for_each (fun i st =>
    match files st !! i, aubs st !! i with
    | Some true, Some aub =>
      let type := if handle obj =? batch_handle
                  then AUB_TRACE_TYPE_BATCH else AUB_TRACE_TYPE_NOTYPE in
      match aub_write_trace_block aub type data (bo_size b) (bo_offset b) with
      | None => Crash
      | Some r =>
        aub ← r;
        Done (mk_shim (files st) (verbose st) (device_override st) (device st)
                      (shim_devinfo st) (<[i := aub]> (aubs st)) (bos st)
                      (phys_addrs_allocator st))
      end
    | _, _ => Done st
    end) (seq 0 2) st.

(** The third loop of [dump_execbuffer2], as written:
[[
   for (int i = 0; i < ARRAY_SIZE(files); i++) {
      if (files[i] != NULL)
         continue;
      aub_write_exec(&aubs[i], ...);
   }
]] *)
Definition write_exec_step (batch_addr offset ring_flag : Z) (i : nat) (st : shim_state)
  : outcome shim_state :=
  match files st !! i, aubs st !! i with
  | Some opened, Some aub =>
    if opened : bool then Done st (* files[i] != NULL: continue *)
    else
      aub ← aub_write_exec aub batch_addr offset ring_flag;
      Done (mk_shim (files st) (verbose st) (device_override st) (device st)
                    (shim_devinfo st) (<[i := aub]> (aubs st)) (bos st)
                    (phys_addrs_allocator st))
  | _, _ => Crash
  end.

Definition write_exec_loop (st : shim_state) (batch_addr offset ring_flag : Z)
  : outcome shim_state :=
  for_each (write_exec_step batch_addr offset ring_flag) (seq 0 2) st.

(** [dump_execbuffer2]. The trailing fence signalling only issues ioctls
    and is left out. *)
Definition dump_execbuffer2 (env : environment) (st : shim_state) (eb : execbuffer2)
  : outcome shim_state :=
  let ring_flag := Z.land (eb_flags eb) I915_EXEC_RING_MASK in
  st ← dump_execbuffer2_init env st;
  any_aub ← (match (if default false (files st !! 0%nat) then aubs st !! 0%nat
                    else aubs st !! 1%nat) with
             | Some aub => Done aub
             | None => Crash
             end);
  let offset := if aub_use_execlists any_aub then 0x1000 else aub_gtt_size any_aub in
  r ← for_each (assign_offsets_step env) (buffers eb) (Continue st offset);
  match r with
  | Returned st => Done st
  | Continue st offset =>
    let buffer_count := Z.of_nat (length (buffers eb)) in
    let batch_index :=
      if negb (Z.land (eb_flags eb) I915_EXEC_BATCH_FIRST =? 0) then 0
      else wrap32 (buffer_count - 1) in
    match buffers eb !! Z.to_nat batch_index with
    | None => Crash
    | Some batch_obj =>
      batch_bo ← get_bo (bos st) (handle batch_obj);
      st ← for_each (write_buffers_step eb (handle batch_obj)) (buffers eb) st;
      batch_bo ← get_bo (bos st) (handle batch_obj);
      write_exec_loop st (wrap64 (bo_offset batch_bo + batch_start_offset eb))
                      offset ring_flag
    end
  end.

(** ** Vocabulary of the statements about the capture side *)

(** The slot [subs[j]]; [NULL] outside the array. *)
Definition slot (subs : list subtable_ptr) (j : Z) : subtable_ptr :=
  default NULL (subs !! Z.to_nat j).

(** Slots of a table of the given level hold what that level stores. *)
Definition slot_typed (level : Z) (e : subtable_ptr) : Prop :=
  match e with
  | NULL => True
  | PhysPtr _ => level = 1
  | TablePtr _ _ => level <> 1
  end.

(** The page-table entry written for a slot: address, present, writable. *)
Definition entry_of (e : subtable_ptr) : Z :=
  Z.lor 3 (match e with NULL => 0 | PhysPtr a => a | TablePtr a _ => a end).

(** What [populate_ppgtt_table] stores in an empty slot. *)
Definition new_slot (level allocator : Z) : subtable_ptr :=
  let a := wrap64 (Z.shiftl allocator 12) in
  if level =? 1 then ptr_of_Z a else TablePtr a calloc_table.

(** The effect of the loop of [populate_ppgtt_table] over the slots
    [start .. start + n - 1]. *)
Record populate_loop_post (level start : Z) (n : nat) (st st' : populate_locals) : Prop := {
  plp_len : length (pl_subtables st') = 512%nat;
  plp_elen : length (pl_entries st') = length (pl_entries st);
  plp_typed : Forall (slot_typed level) (pl_subtables st');
  plp_keep : forall j, slot (pl_subtables st) j <> NULL ->
                       slot (pl_subtables st') j = slot (pl_subtables st) j;
  plp_new : forall j, 0 <= j ->
                      slot (pl_subtables st') j = slot (pl_subtables st) j
                      \/ exists a, slot (pl_subtables st') j = new_slot level a;
  plp_out : forall j, 0 <= j -> ~ (start <= j < start + Z.of_nat n) ->
                      slot (pl_subtables st') j = slot (pl_subtables st) j
                      /\ pl_entries st' !! Z.to_nat j = pl_entries st !! Z.to_nat j;
  plp_entries : forall j, start <= j < start + Z.of_nat n ->
                          pl_entries st' !! Z.to_nat j
                          = Some (entry_of (slot (pl_subtables st') j));
  plp_cover : forall j, start <= j < start + Z.of_nat n ->
                        slot (pl_subtables st) j = NULL ->
                        dirty_start st' <= j <= dirty_end st';
  plp_ds : dirty_start st' = dirty_start st
           \/ (start <= dirty_start st' < start + Z.of_nat n
               /\ slot (pl_subtables st) (dirty_start st') = NULL
               /\ dirty_start st' <= dirty_start st);
  plp_de : dirty_end st' = dirty_end st
           \/ (start <= dirty_end st' < start + Z.of_nat n
               /\ slot (pl_subtables st) (dirty_end st') = NULL
               /\ dirty_end st <= dirty_end st');
  plp_noop : (forall j, start <= j < start + Z.of_nat n ->
                        slot (pl_subtables st) j <> NULL) ->
             pl_subtables st' = pl_subtables st
             /\ pl_allocator st' = pl_allocator st
             /\ dirty_start st' = dirty_start st
             /\ dirty_end st' = dirty_end st;
  plp_alloc : 0 < pl_allocator st -> pl_allocator st + Z.of_nat n <= 2 ^ 52 ->
              pl_allocator st <= pl_allocator st' <= pl_allocator st + Z.of_nat n
              /\ forall j, start <= j < start + Z.of_nat n ->
                           slot (pl_subtables st') j <> NULL
}.

(** A table of level [lvl] (4 for the root, 1 for the leaves): 512 slots,
    each empty or holding what the level stores. *)
Fixpoint wf_subs (lvl : nat) (subs : list subtable_ptr) : Prop :=
  length subs = 512%nat /\
  match lvl with
  | O => False
  | S k => Forall (fun e => match e with
                            | NULL => True
                            | PhysPtr _ => k = O
                            | TablePtr _ s => k <> O /\ wf_subs k s
                            end) subs
  end.

(** The slot reached from a table by a non-empty chain of indices. *)
Fixpoint walk (subs : list subtable_ptr) (idxs : list nat) : subtable_ptr :=
  match idxs with
  | [] => NULL
  | i :: rest =>
    match rest with
    | [] => default NULL (subs !! i)
    | _ => match subs !! i with
           | Some (TablePtr _ s) => walk s rest
           | _ => NULL
           end
    end
  end.

(** The chain of indices is populated all the way. *)
Definition present (root : aub_ppgtt_table) (idxs : list nat) : Prop :=
  walk (subtables root) idxs <> NULL.

(** [aub'] is [aub] after [bytes] were written to its open stream. *)
Definition appended (aub : aub_file) (bytes : list Z) (aub' : aub_file) : Prop :=
  exists w, file aub = Some w /\ aub' = set_file aub (Some (rev_append bytes w)).

(** The bytes of [dword_out]. *)
Definition dword_bytes (v : Z) : list Z := le_bytes 4 (wrap32 v).

(** The bytes of [mem_trace_memory_write_header_out]. *)
Definition memory_write_header (addr len addr_space : Z) : list Z :=
  dword_bytes (Z.lor CMD_MEM_TRACE_MEMORY_WRITE (wrap32 (5 + wrap32 (ALIGN len 4 / 4) - 1)))
  ++ dword_bytes (Z.land addr 0xFFFFFFFF)
  ++ dword_bytes (Z.shiftr addr 32)
  ++ dword_bytes addr_space
  ++ dword_bytes len.

(** The record [populate_ppgtt_table] emits for the dirty range
    [ds .. de] of a table at [phys] whose slots are [subs] on return. *)
Definition dirty_record (phys : Z) (subs : list subtable_ptr) (ds de : Z) : list Z :=
  memory_write_header (wrap64 (phys + ds * 8)) (wrap64 ((de - ds + 1) * 8))
                      AUB_MEM_TRACE_MEMORY_ADDRESS_SPACE_PHYSICAL
  ++ concat (le_bytes 8 <$> ((fun j => entry_of (slot subs j)) <$> seqZ ds (de - ds + 1))).

Definition populate_init (t : aub_ppgtt_table) (allocator : Z) : populate_locals :=
  mk_locals (subtables t) allocator (replicate 512 0) 512 0.

Definition wstate : Type := aub_file * Z.

Definition st_ok (s : wstate) : Prop :=
  wf_subs 4 (subtables (pml4 s.1)) /\ is_Some (file s.1).

(** Populated chains stay populated. *)
Definition st_ext (s s' : wstate) : Prop :=
  forall idxs, present (pml4 s.1) idxs -> present (pml4 s'.1) idxs.

(** The bodies of the three nested loops. *)
Definition map_l1 (start last l2 : Z) (s : wstate) : outcome wstate :=
  let l1_start := Z.max l2 (Z.land start 0xfffffffff000) in
  let l1_end := Z.min (l2 + 2 ^ 21 - 1)
                      (Z.land (Z.lor last 0x000000000fff) 0xffffffffffff) in
  populate_ppgtt_table s.1 s.2 (L1_table l2) (L1_index l1_start) (L1_index l1_end) 1.

Definition map_l2 (start last l3 : Z) (s : wstate) : outcome wstate :=
  let l2_start := Z.max l3 (Z.land start 0xffffffe00000) in
  let l2_end := Z.min (l3 + 2 ^ 30 - 1)
                      (Z.land (Z.lor last 0x0000001fffff) 0xffffffffffff) in
  s ← populate_ppgtt_table s.1 s.2 (L2_table l3) (L2_index l2_start) (L2_index l2_end) 2;
  for_each (map_l1 start last) (for_values l2_start l2_end (2 ^ 21)) s.

Definition map_l3 (start last l4 : Z) (s : wstate) : outcome wstate :=
  let l3_start := Z.max l4 (Z.land start 0xffffc0000000) in
  let l3_end := Z.min (l4 + 2 ^ 39 - 1)
                      (Z.land (Z.lor last 0x00003fffffff) 0xffffffffffff) in
  s ← populate_ppgtt_table s.1 s.2 (L3_table l4) (L3_index l3_start) (L3_index l3_end) 3;
  for_each (map_l2 start last) (for_values l3_start l3_end (2 ^ 30)) s.

(** The chain of indices of the page of address [a]. *)
Definition page_path (a : Z) : list nat := L1_table a ++ [Z.to_nat (L1_index a)].

(** The page of [a] is mapped. *)
Definition mapped (s : wstate) (a : Z) : Prop := present (pml4 s.1) (page_path a).

(** Bounds on the number of slots one pass of each loop can populate. *)
Definition K1 : Z := 512.

Definition K2 : Z := 512 + K1 * 512.

Definition K3 : Z := 512 + K2 * 512.

Definition K4 : Z := 512 + K3 * 512.

(** A valid range of the 48-bit address space. *)
Definition valid_range (start size : Z) : Prop :=
  0 <= start /\ 0 < size /\ start + size <= 2 ^ 48.

(** A writer fresh from [aub_file_init]. *)
Definition fresh_aub (g : Z) : aub_file :=
  mk_aub (Some []) 0 (mk_devinfo g 0) (if 8 <=? g then 48 else 32)
         (mk_table PML4_PHYS_ADDR calloc_table).

(** The bytes that pad a block to a multiple of four. *)
Definition padding (block_size : Z) : list Z :=
  slice null_block 0 (Z.land (wrap32 (- block_size)) 3).

(** The bytes of a block taken from the buffer, or zeros for a null
    buffer. *)
Definition block_data (virtual : option (list Z)) (offset block_size : Z) : list Z :=
  match virtual with
  | Some data => slice data offset block_size
  | None => slice null_block 0 block_size
  end.

(** The header of a legacy trace block. *)
Definition trace_block_header (aub : aub_file) (type addr block_size : Z) : list Z :=
  dword_bytes (Z.lor CMD_AUB_TRACE_HEADER_BLOCK
                     ((if 32 <? addr_bits aub then 6 else 5) - 2))
  ++ dword_bytes (Z.lor (Z.lor AUB_TRACE_MEMTYPE_GTT type) AUB_TRACE_OP_DATA_WRITE)
  ++ dword_bytes 0
  ++ dword_bytes addr
  ++ dword_bytes (align_u32 block_size 4)
  ++ (if 32 <? addr_bits aub then dword_bytes (Z.shiftr addr 32) else []).

(** The largest block of each dialect. *)
Definition chunk_limit (aub : aub_file) : Z :=
  if aub_use_execlists aub then 4096 else 8 * 4096.

(** The physical address [ppgtt_lookup] yields; 0 when it does not
    return. *)
Definition translated (aub : aub_file) (a : Z) : Z :=
  match ppgtt_lookup aub a with Done p => p | _ => 0 end.

(** The record written for the block at [offset] of a buffer of [size]
    bytes placed at [gtt_offset]. *)
Definition block_record (aub : aub_file) (type : Z) (virtual : option (list Z))
           (size gtt_offset offset : Z) : list Z :=
  let block_size := Z.min (chunk_limit aub) (size - offset) in
  let address := wrap64 (gtt_offset + offset) in
  (if aub_use_execlists aub
   then memory_write_header (translated aub address) block_size
                            AUB_MEM_TRACE_MEMORY_ADDRESS_SPACE_PHYSICAL
   else trace_block_header aub type address block_size)
  ++ block_data virtual offset block_size ++ padding block_size.

(** The target address a record carries: dwords 1 and 2 of a memory write
    of the paged dialect; dword 3 of a legacy trace block, with dword 5 as
    high half where the header has six dwords. *)
Definition record_target (aub : aub_file) (rec : list Z) : Z :=
  let dword k := le_value (slice rec (4 * k) 4) in
  if aub_use_execlists aub then dword 1 + 2 ^ 32 * dword 2
  else if 32 <? addr_bits aub then dword 3 + 2 ^ 32 * dword 5
  else dword 3.

(** The width of the target address of a record. *)
Definition target_bits (aub : aub_file) : Z :=
  if aub_use_execlists aub then 64 else if 32 <? addr_bits aub then 64 else 32.

(** A writer of the paged dialect in which page 2 was mapped before
    pages 1 and 2 were. *)
Definition remapped_aub : aub_file :=
  match (s ← aub_map_ppgtt (fresh_aub 9) phys_addrs_allocator_init 0x2000 4096;
         aub_map_ppgtt s.1 s.2 0x1000 8192) with
  | Done s => set_file s.1 (Some [])
  | _ => fresh_aub 9
  end.

(** A device table with one generation-9 part. *)
Definition device_db (id : Z) : option gen_device_info :=
  if id =? 0x1912 then Some (mk_devinfo 9 12) else None.

(** The scenario of the specification: a generation-9 device, buffer A
    (handle 1, 4096 bytes) and buffer B (handle 2, 8192 bytes), neither
    pinned, one relocation in A at offset 0x20 pointing at B + 0x10, and a
    submission of B and A with A, the last buffer, as batch. Mapping a
    buffer gives its handle in every byte. *)
Definition scenario_env : environment :=
  mk_env 0x1912 device_db
         (fun h size => Mapped false (replicate (Z.to_nat size) (h mod 256)))
         (ascii_codes "app").

(** The buffers A and B as registered, not yet placed or mapped. *)
Definition scenario_bos : gmap Z bo :=
  <[2 := mk_bo 8192 0 MapNull]> (<[1 := mk_bo 4096 0 MapNull]> ∅).

(** The shim before the first submission, with the given output streams
    open, after the application asked for the chipset id. *)
Definition scenario_state (opened : list bool) : shim_state :=
  mk_shim opened 0 false 0x1912 (mk_devinfo 0 0) [zero_aub; zero_aub]
          scenario_bos phys_addrs_allocator_init.

(** B, then A with its relocation; no flag set, so the render ring and the
    last buffer as batch. *)
Definition scenario_submit : execbuffer2 :=
  mk_execbuffer2 [mk_obj 2 [] 0 0 0; mk_obj 1 [mk_reloc 2 0x10 0x20] 0 0 0] 0 0.

(** A submission naming a handle that was never registered. *)
Definition invalid_submit : execbuffer2 :=
  mk_execbuffer2 [mk_obj 5 [] 0 0 0] 0 0.

(** The last [n] bytes written to a stream. *)
Definition stream_tail (aub : aub_file) (n : Z) : list Z :=
  slice (stream_of aub) (Z.of_nat (length (stream_of aub)) - n) n.

(** Buffer A of the scenario as it must be written: B is placed at 0x1000,
    so the relocation stores 0x1010 at offset 0x20. *)
Definition relocated_batch : list Z :=
  blit (replicate (Z.to_nat 4096) 1) 0x20 (le_bytes 8 0x1010).

(** Whether a call returned to its caller. *)
Definition returns {A} (o : outcome A) : bool :=
  match o with Done _ => true | _ => false end.

(** ** The decoder ([aubinator.c]) *)

Module Aubinator.

(** *** Ordered tables

    Modelled from the spec: [util/rb_tree.h] is not part of the source tree
    at hand; per the design notes any ordered map with exact and
    nearest-match lookup will do. A table is an association list kept in
    increasing key order. *)

Definition rb_tree (V : Type) : Type := list (Z * V).

(** [rb_tree_search]: the node comparing equal to the key. *)
Fixpoint rb_tree_search {V} (t : rb_tree V) (key : Z) : option V :=
  match t with
  | [] => None
  | (k, v) :: r => if k =? key then Some v
                   else if key <? k then None else rb_tree_search r key
  end.

(** The node for [key] after [rb_tree_insert_at] of a fresh node, or after
    assignment through the node found. *)
Fixpoint rb_tree_put {V} (t : rb_tree V) (key : Z) (v : V) : rb_tree V :=
  match t with
  | [] => [(key, v)]
  | (k, w) :: r => if k =? key then (key, v) :: r
                   else if key <? k then (key, v) :: (k, w) :: r
                   else (k, w) :: rb_tree_put r key v
  end.

(** The first node whose key is at least [key]: what
    [rb_tree_search_sloppy] followed by one [rb_node_next] step on a smaller
    key yields. *)
Fixpoint rb_tree_first_ge {V} (t : rb_tree V) (key : Z) : rb_tree V :=
  match t with
  | [] => []
  | (k, v) :: r => if key <=? k then t else rb_tree_first_ge r key
  end.

(** *** Decoder state *)

(** [struct gen_batch_decode_bo]. [bo_mapping] is the memory the [map]
    pointer designates, [None] for a null pointer. *)
Record gen_batch_decode_bo := mk_decode_bo {
  bo_addr : Z;
  bo_mapping : option (list Z);
  bo_size : Z
}.

Definition empty_bo : gen_batch_decode_bo := mk_decode_bo 0 None 0.

(** [struct bo_map] *)
Record bo_map := mk_bo_map {
  bo : gen_batch_decode_bo;
  unmap_after_use : bool
}.

(** [struct phys_mem] without its key: one page of backing storage. *)
Record phys_mem := mk_phys_mem {
  fd_offset : Z;
  data : list Z
}.

(** The function-static [struct execlist_regs]. *)
Record execlist_regs := mk_regs {
  render_elsp : list Z;
  render_elsp_index : Z;
  blitter_elsp : list Z;
  blitter_elsp_index : Z
}.

Definition execlist_regs_init : execlist_regs :=
  mk_regs [0; 0; 0; 0] 0 [0; 0; 0; 0] 0.

(** Which callback [batch_ctx.get_bo] holds, with [user_data]. *)
Inductive get_bo_callback : Type :=
| GetBoUnset
| GetGgttBatchBo
| GetPpgttBatchBo (pml4 : Z).

(** One call of the disassembler, [gen_print_batch (&batch_ctx, commands,
    size, 0)]: the callback installed, the buffer [commands] points into and
    the offset of [commands] in it, and the byte count passed. *)
Record batch_call := mk_batch_call {
  call_get_bo : get_bo_callback;
  call_bo : gen_batch_decode_bo;
  call_offset : Z;
  call_size : Z
}.

(** The bytes handed over by a call. *)
Definition call_commands (c : batch_call) : list Z :=
  match bo_mapping (call_bo c) with
  | None => []
  | Some m => slice m (call_offset c) (call_size c)
  end.

(** What the decoder prints on [outfile], one constructor per message. *)
Inductive message : Type :=
| MsgBanner (aub_pci_id : Z) (app_name : list Z)
| MsgUnknownRing (type : Z)
| MsgUnknownOpcode (opcode position total : Z)
| MsgMemoryPoll (dwords : Z)
| MsgUnknownBlock (type opcode subopcode h : Z).

(** [struct aub_file] of the decoder: the mapped file as bytes, [end] and
    [cursor] as dword indices from [map]. *)
Record aub_file := mk_file {
  map : list Z;
  end_ : Z;
  cursor : Z
}.

(** The globals of [aubinator.c]; [outfile] and [batches] grow at the
    front. *)
Record decoder := mk_decoder {
  pci_id : Z;
  devinfo : gen_device_info;
  maps : list bo_map;
  ggtt : rb_tree Z;
  mem : rb_tree phys_mem;
  mem_fd_len : Z;
  state : execlist_regs;
  get_bo : get_bo_callback;
  outfile : list message;
  batches : list batch_call
}.

Definition decoder_init (pci : Z) : decoder :=
  mk_decoder pci (mk_devinfo 0 0) [] [] [] 0 execlist_regs_init GetBoUnset [] [].

Definition set_maps (d : decoder) (m : list bo_map) : decoder :=
  mk_decoder (pci_id d) (devinfo d) m (ggtt d) (mem d) (mem_fd_len d)
             (state d) (get_bo d) (outfile d) (batches d).

Definition set_ggtt (d : decoder) (g : rb_tree Z) : decoder :=
  mk_decoder (pci_id d) (devinfo d) (maps d) g (mem d) (mem_fd_len d)
             (state d) (get_bo d) (outfile d) (batches d).

Definition set_mem (d : decoder) (m : rb_tree phys_mem) (len : Z) : decoder :=
  mk_decoder (pci_id d) (devinfo d) (maps d) (ggtt d) m len
             (state d) (get_bo d) (outfile d) (batches d).

Definition set_state (d : decoder) (s : execlist_regs) : decoder :=
  mk_decoder (pci_id d) (devinfo d) (maps d) (ggtt d) (mem d) (mem_fd_len d)
             s (get_bo d) (outfile d) (batches d).

Definition set_get_bo (d : decoder) (g : get_bo_callback) : decoder :=
  mk_decoder (pci_id d) (devinfo d) (maps d) (ggtt d) (mem d) (mem_fd_len d)
             (state d) g (outfile d) (batches d).

Definition print (d : decoder) (m : message) : decoder :=
  mk_decoder (pci_id d) (devinfo d) (maps d) (ggtt d) (mem d) (mem_fd_len d)
             (state d) (get_bo d) (m :: outfile d) (batches d).

Definition add_batch (d : decoder) (c : batch_call) : decoder :=
  mk_decoder (pci_id d) (devinfo d) (maps d) (ggtt d) (mem d) (mem_fd_len d)
             (state d) (get_bo d) (outfile d) (c :: batches d).

(** [add_gtt_bo_map]: [list_add] puts the new element first. *)
Definition add_gtt_bo_map (d : decoder) (b : gen_batch_decode_bo) (unmap : bool)
  : decoder :=
  set_maps d (mk_bo_map b unmap :: maps d).

(** [clear_bo_maps]: every element of [maps] is unlinked and freed. The
    tables [ggtt] and [mem] are not touched. *)
Definition clear_bo_maps (d : decoder) : decoder :=
  fold_left (fun d _ => set_maps d (tail (maps d))) (maps d) d.

(** [ensure_ggtt_entry] followed by the caller's [pt->phys_addr = v]. *)
Definition ensure_ggtt_entry (g : rb_tree Z) (virt_addr : Z) : rb_tree Z :=
  match rb_tree_search g virt_addr with
  | Some _ => g
  | None => rb_tree_put g virt_addr 0
  end.

Definition search_ggtt_entry (g : rb_tree Z) (virt_addr : Z) : option Z :=
  rb_tree_search g (Z.land virt_addr (Z.lnot 0xfff)).

(** [ensure_phys_mem]: a new page is a fresh, zero-filled page of the
    memfd. *)
Definition ensure_phys_mem (d : decoder) (phys_addr : Z) : decoder :=
  match rb_tree_search (mem d) phys_addr with
  | Some _ => d
  | None =>
    set_mem d (rb_tree_put (mem d) phys_addr
                           (mk_phys_mem (mem_fd_len d) (replicate 4096 0)))
            (mem_fd_len d + 4096)
  end.

Definition search_phys_mem (d : decoder) (phys_addr : Z) : option phys_mem :=
  rb_tree_search (mem d) (Z.land phys_addr (Z.lnot 0xfff)).

(** The 64-bit quantities of a buffer, eight bytes at a time. *)
Fixpoint qwords (n : nat) (bs : list Z) : list Z :=
  match n with
  | O => []
  | S k => le_value (take 8 bs) :: qwords k (drop 8 bs)
  end.

Definition handle_ggtt_entry_write (d : decoder) (address : Z) (data_ : list Z)
           (size_ : Z) : decoder :=
  let virt_addr := wrap64 (Z.shiftl (address / 8) 12) in
  let size := size_ / 8 in
  let entries := qwords (Z.to_nat size) data_ in
  fst (fold_left
         (fun '(d, virt_addr) entry =>
            let g := ensure_ggtt_entry (ggtt d) virt_addr in
            (set_ggtt d (rb_tree_put g virt_addr entry), wrap64 (virt_addr + 4096)))
         entries (d, virt_addr)).

(** The locals [to_write] and [data] that the two page-splitting loops
    carry. *)
Definition handle_physical_write (d : decoder) (phys_address : Z) (data_ : list Z)
           (size : Z) : decoder :=
  fst (fold_left
         (fun '(d, (to_write, data_)) page =>
            let d := ensure_phys_mem d page in
            let offset := Z.max page phys_address - page in
            let size_this_page := Z.min to_write (4096 - offset) in
            let d :=
              match rb_tree_search (mem d) page with
              | Some m =>
                set_mem d (rb_tree_put (mem d) page
                             (mk_phys_mem (fd_offset m)
                                (blit (data m) offset (slice data_ 0 size_this_page))))
                        (mem_fd_len d)
              | None => d
              end in
            (d, (wrap32 (to_write - size_this_page),
                 drop (Z.to_nat size_this_page) data_)))
         (for_values (Z.land phys_address (Z.lnot 0xfff)) (phys_address + size) 4096)
         (d, (size, data_))).

Definition handle_ggtt_write (d : decoder) (virt_address : Z) (data_ : list Z)
           (size : Z) : outcome decoder :=
  r ← for_each
        (fun page '(d, (to_write, data_)) =>
           match search_ggtt_entry (ggtt d) page with
           | None => Trap "assert(entry && entry->phys_addr & 0x1)"
           | Some phys =>
             if Z.land phys 1 =? 0 then Trap "assert(entry && entry->phys_addr & 0x1)"
             else
               let offset := Z.max page virt_address - page in
               let size_this_page := Z.min to_write (4096 - offset) in
               let phys_page := Z.land phys (Z.lnot 0xfff) in
               let d := handle_physical_write d (phys_page + offset) data_
                                              size_this_page in
               Done (d, (wrap32 (to_write - size_this_page),
                         drop (Z.to_nat size_this_page) data_))
           end)
        (for_values (Z.land virt_address (Z.lnot 0xfff)) (virt_address + size) 4096)
        (d, (size, data_));
  Done (fst r).

(** The run of entries with consecutive pages at the head of a table:
    [start] up to [last] in [get_ggtt_batch_bo]. *)
Fixpoint contiguous_run (first : Z * Z) (rest : rb_tree Z) : list (Z * Z) :=
  match rest with
  | [] => [first]
  | next :: rest' =>
    if fst first + 4096 =? fst next
    then first :: contiguous_run next rest'
    else [first]
  end.

(** [get_ggtt_batch_bo] *)
Definition get_ggtt_batch_bo (d : decoder) (address : Z)
  : decoder * gen_batch_decode_bo :=
  match filter (fun i => bo_addr (bo i) <= address
                         /\ address < bo_addr (bo i) + bo_size (bo i)) (maps d) with
  | i :: _ => (d, bo i)
  | [] =>
    let address := Z.land address (Z.lnot 0xfff) in
    match rb_tree_first_ge (ggtt d) address with
    | [] => (d, empty_bo)
    | start :: rest =>
      let run := contiguous_run start rest in
      let last := List.last run start in
      let addr := Z.min address (fst start) in
      let size := fst last - addr + 4096 in
      let anonymous := replicate (Z.to_nat size) 0 in
      let mapped :=
        fold_left
          (fun m '(virt_addr, phys_addr) =>
             match search_phys_mem d (Z.land phys_addr (Z.lnot 0xfff)) with
             | None => m
             | Some pm => blit m (wrap32 (virt_addr - address)) (data pm)
             end) run anonymous in
      let b := mk_decode_bo addr (Some mapped) size in
      (add_gtt_bo_map d b true, b)
    end
  end.

(** [ppgtt_walk] *)
Definition ppgtt_walk (d : decoder) (pml4 address : Z) : option phys_mem :=
  let step (acc : option (Z * Z)) (_ : Z) : option (Z * Z) :=
    '(addr, shift) ← acc;
    table ← search_phys_mem d addr;
    let index := Z.land (Z.shiftr address shift) 0x1ff in
    let entry := le_value (slice (data table) (8 * index) 8) in
    if Z.land entry 1 =? 0 then None
    else Some (Z.land entry (Z.lnot 0xfff), shift - 9) in
  '(addr, _) ← fold_left step [4; 3; 2; 1] (Some (pml4, 39));
  search_phys_mem d addr.

Definition ppgtt_mapped (d : decoder) (pml4 address : Z) : bool :=
  match ppgtt_walk d pml4 address with Some _ => true | None => false end.

(** At most [n] passes of a loop [while (cond (x)) x = next (x);]: [inl x]
    when the loop has ended, with [x]; [inr x] when [n] passes were made and
    the loop has not ended, [x] being the value reached. *)
Fixpoint while_passes {X : Type} (n : positive) (cond : X -> bool) (next : X -> X)
         (x : X) : X + X :=
  match n with
  | xH => if cond x then inr (next x) else inl x
  | xO n =>
    match while_passes n cond next x with
    | inl r => inl r
    | inr y => while_passes n cond next y
    end
  | xI n =>
    if cond x then
      match while_passes n cond next (next x) with
      | inl r => inl r
      | inr y => while_passes n cond next y
      end
    else inl x
  end.

(** [get_ppgtt_batch_bo]. The loop
    [while (ppgtt_mapped (pml4, end)) end += 4096;] has no bound.
    [ppgtt_walk] reads bits 12 to 47 of the address only, so what
    [ppgtt_mapped] answers repeats every 2^36 pages: a loop that has not
    ended after 2^36 passes never ends. The second loop dereferences what
    [ppgtt_walk] returns for each page below [end]. *)
Definition get_ppgtt_batch_bo (d : decoder) (pml4 address : Z)
  : outcome (decoder * gen_batch_decode_bo) :=
  let address := Z.land address (Z.lnot 0xfff) in
  if negb (ppgtt_mapped d pml4 address) then Done (d, empty_bo) else
  match while_passes (2 ^ 36) (ppgtt_mapped d pml4) (fun e => wrap64 (e + 4096))
                     address with
  | inr _ => Hang
  | inl end_ =>
    let size := wrap64 (end_ - address) in
    let anonymous := replicate (Z.to_nat size) 0 in
    mapped ← for_each
               (fun page m =>
                  match ppgtt_walk d pml4 page with
                  | None => Crash
                  | Some pm => Done (blit m (page - address) (data pm))
                  end)
               (for_values address end_ 4096) anonymous;
    let b := mk_decode_bo address (Some mapped) size in
    Done (add_gtt_bo_map d b true, b)
  end.

(** [gen_48b_address] of [common/gen_gem.h], absent from the tree: the
    callers' comment says it zeroes the top 16 bits. *)
Definition gen_48b_address (v : Z) : Z := v mod 2 ^ 48.

(** The dword [p[k]] of the record at the cursor. *)
Definition dword_at (f : aub_file) (k : Z) : Z :=
  le_value (slice (map f) (4 * (cursor f + k)) 4).

(** The bytes from [&p[k]] on. *)
Definition bytes_at (f : aub_file) (k : Z) (size : Z) : list Z :=
  slice (map f) (4 * (cursor f + k)) size.

Definition GEN_ENGINE_RENDER := 1.
Definition GEN_ENGINE_BLITTER := 2.

(** The disassembler, [gen_print_batch], is an external collaborator, taken
    to return. What the decoder's state sees of a call is the addresses the
    disassembler passes to [batch_ctx.get_bo], each chosen knowing the
    buffers returned for the addresses before. *)
Inductive get_bo_calls : Type :=
| NoMoreCalls
| CallGetBo (address : Z) (next : gen_batch_decode_bo -> get_bo_calls).

Definition disassembler : Type := decoder -> batch_call -> get_bo_calls.

(** [batch_ctx.get_bo (batch_ctx.user_data, address)]; the address is a
    [uint64_t]. *)
Definition batch_ctx_get_bo (d : decoder) (address : Z)
  : outcome (decoder * gen_batch_decode_bo) :=
  match get_bo d with
  | GetBoUnset => Crash
  | GetGgttBatchBo => Done (get_ggtt_batch_bo d (wrap64 address))
  | GetPpgttBatchBo pml4 => get_ppgtt_batch_bo d pml4 (wrap64 address)
  end.

(** The callbacks of one call of the disassembler, run in turn. *)
Fixpoint run_get_bo_calls (calls : get_bo_calls) (d : decoder) : outcome decoder :=
  match calls with
  | NoMoreCalls => Done d
  | CallGetBo address next =>
    '(d, b) ← batch_ctx_get_bo d address;
    run_get_bo_calls (next b) d
  end.

Definition gen_print_batch (dis : disassembler) (d : decoder)
           (b : gen_batch_decode_bo) (offset size : Z) : outcome decoder :=
  let c := mk_batch_call (get_bo d) b offset size in
  let d := add_batch d c in
  run_get_bo_calls (dis d c) d.

Definition handle_trace_block (dis : disassembler) (d : decoder) (f : aub_file)
  : outcome decoder :=
  let p := dword_at f in
  let operation := Z.land (p 1) AUB_TRACE_OPERATION_MASK in
  let type := Z.land (p 1) AUB_TRACE_TYPE_MASK in
  let address_space := Z.land (p 1) AUB_TRACE_ADDRESS_SPACE_MASK in
  let header_length := Z.land (p 0) 0xffff in
  let b := mk_decode_bo
             (gen_48b_address
                (Z.lor (if 8 <=? gen (devinfo d) then Z.shiftl (p 5) 32 else 0) (p 3)))
             (Some (bytes_at f (header_length + 2) (p 4)))
             (p 4) in
  if operation =? AUB_TRACE_OP_DATA_WRITE then
    if address_space =? AUB_TRACE_MEMTYPE_GTT then Done (add_gtt_bo_map d b false)
    else Done d
  else if operation =? AUB_TRACE_OP_COMMAND_WRITE then
    let d := if (type =? AUB_TRACE_TYPE_RING_PRB0) || (type =? AUB_TRACE_TYPE_RING_PRB2)
             then d else print d (MsgUnknownRing type) in
    let d := set_get_bo d GetGgttBatchBo in
    d ← gen_print_batch dis d b 0 (bo_size b);
    Done (clear_bo_maps d)
  else Done d.

(** [aubinator_init]: unknown devices end the program; the banner is
    printed. The decode context set up here belongs to the disassembler. *)
Definition aubinator_init (lookup : Z -> option gen_device_info) (d : decoder)
           (aub_pci_id : Z) (app_name : list Z) : outcome decoder :=
  match lookup (pci_id d) with
  | None => Trap "can't find device information"
  | Some di =>
    Done (print (mk_decoder (pci_id d) di (maps d) (ggtt d) (mem d) (mem_fd_len d)
                            (state d) (get_bo d) (outfile d) (batches d))
                (MsgBanner aub_pci_id app_name))
  end.

(** Value of a digit character in the given base, if it is one. *)
Definition digit_value (base c : Z) : option Z :=
  let v := if (48 <=? c) && (c <=? 57) then c - 48
           else if (97 <=? c) && (c <=? 102) then c - 87
           else if (65 <=? c) && (c <=? 70) then c - 55
           else 16 in
  if v <? base then Some v else None.

Fixpoint scan_digits (base : Z) (text : list Z) (acc : Z) (n : Z) : Z * Z :=
  match text with
  | [] => (acc, n)
  | c :: r =>
    match digit_value base c with
    | Some v => scan_digits base r (acc * base + v) (n + 1)
    | None => (acc, n)
    end
  end.

(** [%i] of [sscanf] on an unsigned literal: the value and the number of
    characters consumed, or [None] when no number is there. *)
Definition scan_int (text : list Z) : option (Z * Z) :=
  match text with
  | 48 :: x :: r =>
    if (x =? 120) || (x =? 88) then
      let '(v, n) := scan_digits 16 r 0 0 in
      if n =? 0 then Some (0, 1) else Some (v, n + 2)
    else
      let '(v, n) := scan_digits 8 (x :: r) 0 0 in Some (v, n + 1)
  | _ =>
    let '(v, n) := scan_digits 10 text 0 0 in
    if n =? 0 then None else Some (v, n)
  end.

(** The string at a [char *]: the bytes before the first NUL. *)
Fixpoint c_string (bs : list Z) : list Z :=
  match bs with
  | [] => []
  | c :: r => if c =? 0 then [] else c :: c_string r
  end.

(** Number of leading blanks. *)
Fixpoint count_spaces (text : list Z) : Z :=
  match text with
  | c :: r => if c =? 32 then 1 + count_spaces r else 0
  | [] => 0
  end.

(** [sscanf (text, "PCI-ID=%i %n", &aub_pci_id, &pci_id_len)]: both
    outputs keep their initial 0 when the text does not match. *)
Definition sscanf_pci_id (text : list Z) : Z * Z :=
  let text := c_string text in
  let tag := ascii_codes "PCI-ID=" in
  if decide (take (length tag) text = tag) then
    match scan_int (drop (length tag) text) with
    | None => (0, 0)
    | Some (v, n) =>
      let rest := drop (length tag + Z.to_nat n) text in
      (wrap32 v, Z.of_nat (length tag) + n + count_spaces rest)
    end
  else (0, 0).

Definition handle_trace_header (lookup : Z -> option gen_device_info)
           (d : decoder) (f : aub_file) : outcome decoder :=
  let p := dword_at f in
  let len := Z.land (p 0) 0xffff + 2 in
  let aub_pci_id :=
    if (12 <? len) && (0 <? p 12)
    then fst (sscanf_pci_id (bytes_at f 13 (4 * (len - 13))))
    else 0 in
  let d := if pci_id d =? 0
           then mk_decoder (Z.land aub_pci_id 0xffff) (devinfo d) (maps d) (ggtt d)
                           (mem d) (mem_fd_len d) (state d) (get_bo d)
                           (outfile d) (batches d)
           else d in
  let app_name := c_string (bytes_at f 2 32) in
  aubinator_init lookup d aub_pci_id app_name.

(** [handle_memtrace_version]. [MIN2] compares the [int]
    [4 * (header_length + 1 - 5)] with the [size_t] of [ARRAY_SIZE], so as
    unsigned 64-bit numbers: a negative length gives 63. *)
Definition handle_memtrace_version (lookup : Z -> option gen_device_info)
           (d : decoder) (f : aub_file) : outcome decoder :=
  let p := dword_at f in
  let header_length := Z.land (p 0) 0xffff in
  let app_name_len := Z.min (wrap64 (4 * (header_length + 1 - 5))) (64 - 1) in
  let app_name := c_string (bytes_at f 5 app_name_len) in
  let '(aub_pci_id, pci_id_len) := sscanf_pci_id app_name in
  let d := if pci_id d =? 0
           then mk_decoder (Z.land aub_pci_id 0xffff) (devinfo d) (maps d) (ggtt d)
                           (mem d) (mem_fd_len d) (state d) (get_bo d)
                           (outfile d) (batches d)
           else d in
  aubinator_init lookup d aub_pci_id (drop (Z.to_nat pci_id_len) app_name).

(** [array[i] = v] on one of the four-element register arrays; an index
    outside the array is out of bounds. *)
Definition elsp_set (a : list Z) (i v : Z) : outcome (list Z) :=
  if (0 <=? i) && (i <? 4) then Done (<[Z.to_nat i := v]> a) else Crash.

Definition elsp_get (a : list Z) (i : nat) : Z := default 0 (a !! i).

(** The first part of [handle_memtrace_reg_write]: the [switch] on the
    register offset. [None] stands for the [return] of the cases that only
    record a value; otherwise the engine and the context descriptor. *)
Definition execlist_switch (s : execlist_regs) (offset value : Z)
  : outcome (execlist_regs * option (Z * Z)) :=
  let descriptor (elsp : list Z) :=
    Z.lor (Z.shiftl (elsp_get elsp 2) 32) (elsp_get elsp 3) in
  if offset =? 0x2230 then (* render elsp *)
    a ← elsp_set (render_elsp s) (render_elsp_index s) value;
    let index := render_elsp_index s + 1 in
    if index <? 4
    then Done (mk_regs a index (blitter_elsp s) (blitter_elsp_index s), None)
    else Done (mk_regs a 0 (blitter_elsp s) (blitter_elsp_index s),
               Some (GEN_ENGINE_RENDER, descriptor a))
  else if offset =? 0x22230 then (* blitter elsp *)
    a ← elsp_set (blitter_elsp s) (blitter_elsp_index s) value;
    let index := blitter_elsp_index s + 1 in
    if index <? 4
    then Done (mk_regs (render_elsp s) (render_elsp_index s) a index, None)
    else Done (mk_regs (render_elsp s) (render_elsp_index s) a 0,
               Some (GEN_ENGINE_BLITTER, descriptor a))
  else if offset =? 0x2510 then (* render elsq0 lo *)
    Done (mk_regs (<[3%nat := value]> (render_elsp s)) (render_elsp_index s)
                  (blitter_elsp s) (blitter_elsp_index s), None)
  else if offset =? 0x2514 then (* render elsq0 hi *)
    Done (mk_regs (<[2%nat := value]> (render_elsp s)) (render_elsp_index s)
                  (blitter_elsp s) (blitter_elsp_index s), None)
  else if offset =? 0x22510 then (* blitter elsq0 lo *)
    Done (mk_regs (render_elsp s) (render_elsp_index s)
                  (<[3%nat := value]> (blitter_elsp s)) (blitter_elsp_index s), None)
  else if offset =? 0x22514 then (* blitter elsq0 hi *)
    Done (mk_regs (render_elsp s) (render_elsp_index s)
                  (<[2%nat := value]> (blitter_elsp s)) (blitter_elsp_index s), None)
  else if offset =? 0x2550 then (* render elsc *)
    Done (s, Some (GEN_ENGINE_RENDER, descriptor (render_elsp s)))
  else if offset =? 0x22550 then (* blitter elsc *)
    Done (s, Some (GEN_ENGINE_BLITTER, descriptor (blitter_elsp s)))
  else Done (s, None).

(** [((uint32_t * )base)[k]] inside a mapped buffer; reading outside the
    mapping, or through a null [map], stops the program. *)
Definition read_u32 (m : option (list Z)) (byte_offset : Z) : outcome Z :=
  match m with
  | None => Crash
  | Some bytes =>
    if (0 <=? byte_offset) && (byte_offset + 4 <=? Z.of_nat (length bytes))
    then Done (le_value (slice bytes byte_offset 4))
    else Crash
  end.

(** The second part of [handle_memtrace_reg_write]: the submission of the
    context [context_descriptor]. *)
Definition execlist_submit (dis : disassembler) (d : decoder)
           (context_descriptor : Z) : outcome decoder :=
  let pphwsp_size := 4096 in
  let pphwsp_addr := Z.land context_descriptor 0xfffff000 in
  let '(d, pphwsp_bo) := get_ggtt_batch_bo d pphwsp_addr in
  let context := wrap32 (pphwsp_addr - bo_addr pphwsp_bo) + pphwsp_size in
  ring_buffer_head ← read_u32 (bo_mapping pphwsp_bo) (context + 4 * 5);
  ring_buffer_tail ← read_u32 (bo_mapping pphwsp_bo) (context + 4 * 7);
  ring_buffer_start ← read_u32 (bo_mapping pphwsp_bo) (context + 4 * 9);
  pml4_hi ← read_u32 (bo_mapping pphwsp_bo) (context + 4 * 49);
  pml4_lo ← read_u32 (bo_mapping pphwsp_bo) (context + 4 * 51);
  let pml4 := Z.lor (Z.shiftl pml4_hi 32) pml4_lo in
  let '(d, ring_bo) := get_ggtt_batch_bo d ring_buffer_start in
  _ ← fail_if (negb (0 <? bo_size ring_bo)) "assert(ring_bo.size > 0)";
  let commands := wrap32 (ring_buffer_start - bo_addr ring_bo) in
  let d := if negb (Z.land context_descriptor 0x100 =? 0)
           then set_get_bo d (GetPpgttBatchBo pml4)
           else set_get_bo d GetGgttBatchBo in
  d ← gen_print_batch dis d ring_bo commands
                      (wrap32 (ring_buffer_tail - ring_buffer_head));
  Done (clear_bo_maps d).

Definition handle_memtrace_reg_write (dis : disassembler) (d : decoder) (f : aub_file)
  : outcome decoder :=
  let offset := dword_at f 1 in
  let value := dword_at f 5 in
  '(s, submit) ← execlist_switch (state d) offset value;
  let d := set_state d s in
  match submit with
  | None => Done d
  | Some (engine, context_descriptor) => execlist_submit dis d context_descriptor
  end.

Definition handle_memtrace_mem_write (d : decoder) (f : aub_file) : outcome decoder :=
  let p := dword_at f in
  let b := mk_decode_bo (gen_48b_address (Z.lor (p 1) (Z.shiftl (p 2) 32)))
                        (Some (bytes_at f 5 (p 4)))
                        (p 4) in
  let address_space := Z.shiftr (p 3) 28 in
  if address_space =? 0 then (* GGTT *)
    handle_ggtt_write d (bo_addr b) (bytes_at f 5 (p 4)) (bo_size b)
  else if address_space =? 1 then (* Local *)
    Done (add_gtt_bo_map d b false)
  else if address_space =? 2 then (* Physical *)
    Done (handle_physical_write d (bo_addr b) (bytes_at f 5 (p 4)) (bo_size b))
  else if address_space =? 4 then (* GGTT Entry *)
    Done (handle_ggtt_entry_write d (bo_addr b) (bytes_at f 5 (p 4)) (bo_size b))
  else Done d.

Definition TYPE (dw : Z) : Z := Z.land (Z.shiftr dw 29) 7.
Definition OPCODE (dw : Z) : Z := Z.land (Z.shiftr dw 23) 0x3f.
Definition SUBOPCODE (dw : Z) : Z := Z.land (Z.shiftr dw 16) 0x7f.

Inductive decode_status : Type :=
| AUB_ITEM_DECODE_OK
| AUB_ITEM_DECODE_FAILED
| AUB_ITEM_DECODE_NEED_MORE_DATA.

(** What the decoder consults outside [aubinator.c]. *)
Record collaborators := mk_collab {
  device_info : Z -> option gen_device_info;
  disasm : disassembler
}.

(** [aub_file_decode_batch]; the [assert]s stop the program. *)
Definition aub_file_decode_batch (co : collaborators) (d : decoder) (f : aub_file)
  : outcome (decoder * aub_file * decode_status) :=
  _ ← fail_if (negb (cursor f <? end_ f)) "assert(file->cursor < file->end)";
  let h := dword_at f 0 in
  let header_length := Z.land h 0xffff in
  let bias := if OPCODE h =? OPCODE_AUB then Some 2
              else if OPCODE h =? OPCODE_NEW_AUB then Some 1
              else None in
  match bias with
  | None =>
    Done (print d (MsgUnknownOpcode (OPCODE h) (cursor f) (end_ f)), f,
          AUB_ITEM_DECODE_FAILED)
  | Some bias =>
    let tag := Z.land h 0xffff0000 in
    let new_cursor := cursor f + header_length + bias in
    new_cursor ←
      (if tag =? MAKE_HEADER TYPE_AUB OPCODE_AUB SUBOPCODE_BLOCK then
         _ ← fail_if (negb (4 <=? end_ f - cursor f))
                     "assert(file->end - file->cursor >= 4)";
         Done (new_cursor + dword_at f 4 / 4)
       else Done new_cursor);
    _ ← fail_if (negb (new_cursor <=? end_ f)) "assert(new_cursor <= file->end)";
    d ← (if tag =? MAKE_HEADER TYPE_AUB OPCODE_AUB SUBOPCODE_HEADER then
           handle_trace_header (device_info co) d f
         else if tag =? MAKE_HEADER TYPE_AUB OPCODE_AUB SUBOPCODE_BLOCK then
           handle_trace_block (disasm co) d f
         else if tag =? MAKE_HEADER TYPE_AUB OPCODE_AUB SUBOPCODE_BMP then
           Done d
         else if tag =? MAKE_HEADER TYPE_AUB OPCODE_NEW_AUB SUBOPCODE_VERSION then
           handle_memtrace_version (device_info co) d f
         else if tag =? MAKE_HEADER TYPE_AUB OPCODE_NEW_AUB SUBOPCODE_REG_WRITE then
           handle_memtrace_reg_write (disasm co) d f
         else if tag =? MAKE_HEADER TYPE_AUB OPCODE_NEW_AUB SUBOPCODE_MEM_WRITE then
           handle_memtrace_mem_write d f
         else if tag =? MAKE_HEADER TYPE_AUB OPCODE_NEW_AUB SUBOPCODE_MEM_POLL then
           Done (print d (MsgMemoryPoll (Z.land h 0xffff)))
         else if tag =? MAKE_HEADER TYPE_AUB OPCODE_NEW_AUB SUBOPCODE_REG_POLL then
           Done d
         else
           Done (print d (MsgUnknownBlock (TYPE h) (OPCODE h) (SUBOPCODE h) h)));
    Done (d, mk_file (map f) (end_ f) new_cursor, AUB_ITEM_DECODE_OK)
  end.

(** [aub_file_more_stuff]; [file->stream] is never set, the file is
    mapped whole. *)
Definition aub_file_more_stuff (f : aub_file) : bool := cursor f <? end_ f.

(** The loop of [main]:
    [while (aub_file_more_stuff (file) &&
            aub_file_decode_batch (file) == AUB_ITEM_DECODE_OK);]
    [None] is returned only when [fuel] runs out with the loop still
    going. *)
Fixpoint decode_loop (fuel : nat) (co : collaborators) (d : decoder) (f : aub_file)
  : option (outcome (decoder * aub_file)) :=
  if negb (aub_file_more_stuff f) then Some (Done (d, f)) else
  match fuel with
  | O => None
  | S fuel =>
    match aub_file_decode_batch co d f with
    | Done (d, f, AUB_ITEM_DECODE_OK) => decode_loop fuel co d f
    | Done (d, f, _) => Some (Done (d, f))
    | Trap m => Some (Trap m)
    | Crash => Some Crash
    | Hang => Some Hang
    end
  end.

(** The [struct aub_file] of a file mapped whole: the cursor at the first
    dword, [end] after the last whole dword. *)
Definition mapped_file (bytes : list Z) : aub_file :=
  mk_file bytes (Z.of_nat (length bytes) / 4) 0.

(** [aub_file_open] on an existing, readable file with the given bytes:
    [mmap] refuses a length of 0. *)
Definition aub_file_open (bytes : list Z) : outcome aub_file :=
  match bytes with
  | [] => Trap "mmap failed"
  | _ => Done (mapped_file bytes)
  end.

(** [main] from [list_inithead (&maps)] on, for an input file with the given
    bytes and [pci_id] as set by the options (0 when [--gen] is not
    given). *)
Definition main (co : collaborators) (pci : Z) (bytes : list Z)
  : option (outcome (decoder * aub_file)) :=
  match aub_file_open bytes with
  | Done f => decode_loop (Z.to_nat (end_ f)) co (decoder_init pci) f
  | Trap m => Some (Trap m)
  | Crash => Some Crash
  | Hang => Some Hang
  end.

(** *** Vocabulary of the statements about the decoder *)

(** The record kinds [aub_file_decode_batch] has a case for. *)
Definition handled_tags : list Z :=
  [MAKE_HEADER TYPE_AUB OPCODE_AUB SUBOPCODE_HEADER;
   MAKE_HEADER TYPE_AUB OPCODE_AUB SUBOPCODE_BLOCK;
   MAKE_HEADER TYPE_AUB OPCODE_AUB SUBOPCODE_BMP;
   MAKE_HEADER TYPE_AUB OPCODE_NEW_AUB SUBOPCODE_VERSION;
   MAKE_HEADER TYPE_AUB OPCODE_NEW_AUB SUBOPCODE_REG_WRITE;
   MAKE_HEADER TYPE_AUB OPCODE_NEW_AUB SUBOPCODE_MEM_WRITE;
   MAKE_HEADER TYPE_AUB OPCODE_NEW_AUB SUBOPCODE_MEM_POLL;
   MAKE_HEADER TYPE_AUB OPCODE_NEW_AUB SUBOPCODE_REG_POLL].

(** The [bias] of a recognized top-level opcode. *)
Definition opcode_bias (h : Z) : option Z :=
  if OPCODE h =? OPCODE_AUB then Some 2
  else if OPCODE h =? OPCODE_NEW_AUB then Some 1
  else None.

(** The context image of a trace: 52 dwords with the ring head, tail and
    start (0) at dwords 5, 7 and 9. *)
Definition context_image (head tail : Z) : list Z :=
  <[7%nat := tail]> (<[5%nat := head]> (replicate 52 0)).

(** A small execlists trace: three GGTT entries for the pages 0, 0x1000 and
    0x2000; eight ring dwords 0xA0 .. 0xA7 at GGTT address 0; the context
    image at 0x2000, behind the status page at 0x1000; the four submit-port
    writes of the render engine for the descriptor 0x1000. *)
Definition sample_trace (head tail : Z) : list Z :=
  let dwords := for_each (fun v aub => dword_out aub v) in
  let written :=
    aub ← mem_trace_memory_write_header_out
            (fresh_aub 9) 0 24 AUB_MEM_TRACE_MEMORY_ADDRESS_SPACE_GGTT_ENTRY;
    aub ← dwords [0x10001; 0; 0x11001; 0; 0x12001; 0] aub;
    aub ← mem_trace_memory_write_header_out
            aub 0 32 AUB_MEM_TRACE_MEMORY_ADDRESS_SPACE_GGTT;
    aub ← dwords [0xA0; 0xA1; 0xA2; 0xA3; 0xA4; 0xA5; 0xA6; 0xA7] aub;
    aub ← mem_trace_memory_write_header_out
            aub 0x2000 208 AUB_MEM_TRACE_MEMORY_ADDRESS_SPACE_GGTT;
    aub ← dwords (context_image head tail) aub;
    aub ← register_write_out aub 0x2230 0;
    aub ← register_write_out aub 0x2230 0;
    aub ← register_write_out aub 0x2230 0;
    register_write_out aub 0x2230 0x1000 in
  match written with Done aub => stream_of aub | _ => [] end.

(** [d'] differs from [d] in [maps] at most. *)
Definition maps_only (d d' : decoder) : Prop :=
  pci_id d' = pci_id d /\ devinfo d' = devinfo d /\ ggtt d' = ggtt d
  /\ mem d' = mem d /\ mem_fd_len d' = mem_fd_len d /\ state d' = state d
  /\ get_bo d' = get_bo d /\ outfile d' = outfile d /\ batches d' = batches d.

(** [d'] differs from [d] in [outfile] at most. *)
Definition outfile_only (d d' : decoder) : Prop :=
  pci_id d' = pci_id d /\ devinfo d' = devinfo d /\ maps d' = maps d
  /\ ggtt d' = ggtt d /\ mem d' = mem d /\ mem_fd_len d' = mem_fd_len d
  /\ state d' = state d /\ get_bo d' = get_bo d /\ batches d' = batches d.

(** A disassembler that asks for no further buffer. *)
Definition plain_collaborators (lookup : Z -> option gen_device_info) : collaborators :=
  mk_collab lookup (fun _ _ => NoMoreCalls).

(** The memory of [sample_trace]: its three memory writes, without the
    register writes. *)
Definition sample_memory (head tail : Z) : list Z :=
  let dwords := for_each (fun v aub => dword_out aub v) in
  let written :=
    aub ← mem_trace_memory_write_header_out
            (fresh_aub 9) 0 24 AUB_MEM_TRACE_MEMORY_ADDRESS_SPACE_GGTT_ENTRY;
    aub ← dwords [0x10001; 0; 0x11001; 0; 0x12001; 0] aub;
    aub ← mem_trace_memory_write_header_out
            aub 0 32 AUB_MEM_TRACE_MEMORY_ADDRESS_SPACE_GGTT;
    aub ← dwords [0xA0; 0xA1; 0xA2; 0xA3; 0xA4; 0xA5; 0xA6; 0xA7] aub;
    aub ← mem_trace_memory_write_header_out
            aub 0x2000 208 AUB_MEM_TRACE_MEMORY_ADDRESS_SPACE_GGTT;
    dwords (context_image head tail) aub in
  match written with Done aub => stream_of aub | _ => [] end.

(** A disassembler that asks once, for the buffer at the address of the
    buffer its commands lie in. *)
Definition asks_batch_bo : disassembler :=
  fun _ c => CallGetBo (bo_addr (call_bo c)) (fun _ => NoMoreCalls).

(** The decoder's globals after [main] has run over a file. *)
Definition decoded (co : collaborators) (pci : Z) (bytes : list Z) : option decoder :=
  match main co pci bytes with
  | Some (Done (d, _)) => Some d
  | _ => None
  end.

(** The decoder once it has read [sample_memory]. *)
Definition sample_decoder (head tail : Z) : decoder :=
  match decoded (plain_collaborators device_db) 0x1912 (sample_memory head tail) with
  | Some d => d
  | None => decoder_init 0x1912
  end.

(** A decoder holding one mapped buffer of two pages at address 0. *)
Definition two_page_decoder : decoder :=
  mk_decoder 0 (mk_devinfo 9 0)
             [mk_bo_map (mk_decode_bo 0 (Some (replicate (Z.to_nat 8192) 0)) 8192) false]
             [] [] 0 execlist_regs_init GetBoUnset [] [].

(** A decoder whose physical memory is one page, at 0x1000, of 512
    entries that all point back at the page: a page table that maps every
    address. *)
Definition looping_tables : decoder :=
  mk_decoder 0 (mk_devinfo 9 0) [] []
             [(0x1000, mk_phys_mem 0 (concat (replicate 512 (le_bytes 8 0x1001))))]
             4096 execlist_regs_init GetBoUnset [] [].

(** What decoding a capture stream hands to the disassembler: for each
    call, the bytes passed and, when the call resolves addresses through
    the PPGTT, the page the decoder holds for [address]. *)
Definition decoded_calls (bytes : list Z) (address : Z)
  : option (list (list Z * option (list Z))) :=
  d ← decoded (plain_collaborators device_db) 0 bytes;
  Some ((fun c => (call_commands c,
                   match call_get_bo c with
                   | GetPpgttBatchBo pml4 => data <$> ppgtt_walk d pml4 address
                   | _ => None
                   end)) <$> batches d).

End Aubinator.

(** * Page-table invariants, the intercepted [ioctl], records *)

(** The page the tables hold for the chain of indices [idxs] is never at
    physical address 0. *)
Definition no_zero_page (root : aub_ppgtt_table) : Prop :=
  forall idxs, walk (subtables root) idxs <> PhysPtr 0.

(** Every page the tables reach in [s] is reached, at the same physical
    address, in [s']. *)
Definition keeps_pages (s s' : wstate) : Prop :=
  forall idxs a, walk (subtables (pml4 s.1)) idxs = PhysPtr a ->
                 walk (subtables (pml4 s'.1)) idxs = PhysPtr a.

(** [subs'] is [subs] with some empty slots filled by
    [populate_ppgtt_table] at the given level. *)
Definition filled (level : Z) (subs subs' : list subtable_ptr) : Prop :=
  forall j, subs' !! j = subs !! j
            \/ (subs !! j = Some NULL /\ exists al, subs' !! j = Some (new_slot level al)).

(** [remapped_aub] after one more range was mapped. *)
Definition mapped_twice : wstate :=
  match aub_map_ppgtt remapped_aub 0x23 0x200000 8192 with
  | Done s => s
  | _ => (remapped_aub, 0x23)
  end.

(** What one call of [populate_ppgtt_table] keeps. *)
Definition page_order (s s' : wstate) : Prop :=
  keeps_pages s s'
  /\ (no_zero_page (pml4 s.1) -> no_zero_page (pml4 s'.1)).

(** The width of the store of [aub_write_reloc]. *)
Definition reloc_width (di : gen_device_info) : Z := if 8 <=? gen di then 8 else 4.

(** ** The intercepted [ioctl] *)

(** [I915_PARAM_CHIPSET_ID] of [i915_drm.h]. *)
Definition I915_PARAM_CHIPSET_ID := 4.

(** The requests the [switch] of [ioctl] tells apart, each with the fields
    of [argp] the shim reads, as they are once [libc_ioctl] has returned
    (the kernel fills in [handle], [size] and [*value]). [user_memory] is the
    memory at [user_ptr]; [lseek_end] is what [lseek (prime->fd, 0,
    SEEK_END)] returns. [DRM_IOCTL_I915_GEM_EXECBUFFER2_WR] shares the case
    of [DRM_IOCTL_I915_GEM_EXECBUFFER2]. *)
Inductive drm_request : Type :=
| DRM_IOCTL_I915_GETPARAM (param value : Z)
| DRM_IOCTL_I915_GEM_EXECBUFFER
| DRM_IOCTL_I915_GEM_EXECBUFFER2 (eb : execbuffer2)
| DRM_IOCTL_I915_GEM_CREATE (create_handle create_size : Z)
| DRM_IOCTL_I915_GEM_USERPTR (userptr_handle user_size : Z) (user_memory : list Z)
| DRM_IOCTL_GEM_CLOSE (close_handle : Z)
| DRM_IOCTL_GEM_OPEN (open_handle open_size : Z)
| DRM_IOCTL_PRIME_FD_TO_HANDLE (prime_handle lseek_end : Z)
| DRM_IOCTL_other.

Definition set_device (st : shim_state) (dev : Z) : shim_state :=
  mk_shim (files st) (verbose st) (device_override st) dev (shim_devinfo st)
          (aubs st) (bos st) (phys_addrs_allocator st).

(** [ioctl], the branch [fd == drm_fd] once [maybe_init] has run.
    [libc_ret] is what [libc_ioctl (fd, request, argp)] returns where the
    shim calls it. The result is the new globals, the value returned to the
    application and, for [DRM_IOCTL_I915_GETPARAM], the 32 bits left in
    [*getparam->value]. Messages on [stdout] and [stderr] are left out. *)
Definition ioctl (env : environment) (st : shim_state) (request : drm_request)
           (libc_ret : Z) : outcome (shim_state * Z * option Z) :=
  match request with
  | DRM_IOCTL_I915_GETPARAM param value =>
    if device_override st && (param =? I915_PARAM_CHIPSET_ID)
    then Done (st, 0, Some (device st))
    else
      (* If the application looks up chipset_id (they typically do), we'll
         piggy-back on their ioctl and store the id for later use. *)
      let st := if param =? I915_PARAM_CHIPSET_ID
                then set_device st (wrap32 value) else st in
      Done (st, libc_ret, Some (wrap32 value))
  | DRM_IOCTL_I915_GEM_EXECBUFFER => Done (st, libc_ret, None)
  | DRM_IOCTL_I915_GEM_EXECBUFFER2 eb =>
    st ← dump_execbuffer2 env st eb;
    if device_override st then Done (st, 0, None) else Done (st, libc_ret, None)
  | DRM_IOCTL_I915_GEM_CREATE h size =>
    if libc_ret =? 0 then
      m ← add_new_bo (bos st) (to_int h) size MapNull;
      Done (set_bos st m, libc_ret, None)
    else Done (st, libc_ret, None)
  | DRM_IOCTL_I915_GEM_USERPTR h size memory =>
    if libc_ret =? 0 then
      m ← add_new_bo (bos st) (to_int h) size (Mapped true memory);
      Done (set_bos st m, libc_ret, None)
    else Done (st, libc_ret, None)
  | DRM_IOCTL_GEM_CLOSE h =>
    m ← remove_bo (bos st) h;
    Done (set_bos st m, libc_ret, None)
  | DRM_IOCTL_GEM_OPEN h size =>
    if libc_ret =? 0 then
      m ← add_new_bo (bos st) (to_int h) size MapNull;
      Done (set_bos st m, libc_ret, None)
    else Done (st, libc_ret, None)
  | DRM_IOCTL_PRIME_FD_TO_HANDLE h size =>
    if libc_ret =? 0 then
      _ ← fail_if (size =? -1) "intel_aubdump: failed to get prime bo size";
      m ← add_new_bo (bos st) (to_int h) (wrap64 size) MapNull;
      Done (set_bos st m, libc_ret, None)
    else Done (st, libc_ret, None)
  | DRM_IOCTL_other => Done (st, libc_ret, None)
  end.

(** The scenario's shim, one output open, after the initialisation of its
    first submission. *)
Definition scenario_initialised : shim_state :=
  match dump_execbuffer2_init scenario_env (scenario_state [true; false]) with
  | Done st => st
  | _ => scenario_state [true; false]
  end.

(** The settings read from the configuration: [dump_execbuffer2] and the
    other cases of [ioctl] leave them alone. *)
Definition same_config (s s' : shim_state) : Prop :=
  files s' = files s /\ verbose s' = verbose s /\ device_override s' = device_override s.

Definition first_pass_state (r : first_pass) : shim_state :=
  match r with Continue st _ => st | Returned st => st end.

(** Whether the request is a submission. *)
Definition is_submission (request : drm_request) : bool :=
  match request with DRM_IOCTL_I915_GEM_EXECBUFFER2 _ => true | _ => false end.

(** Whether the request registers a buffer when the kernel accepts it. *)
Definition registers_buffer (request : drm_request) : bool :=
  match request with
  | DRM_IOCTL_I915_GEM_CREATE _ _ | DRM_IOCTL_I915_GEM_USERPTR _ _ _
  | DRM_IOCTL_GEM_OPEN _ _ | DRM_IOCTL_PRIME_FD_TO_HANDLE _ _ => true
  | _ => false
  end.

(** The room the first loop of [dump_execbuffer2] may take for the
    unpinned buffers [objs]: for each, the alignment, the size, and the
    rounding to pages with its guard. *)
Definition placement_span (m : gmap Z bo) (objs : list exec_object2) : Z :=
  foldr (fun o acc => alignment o + bo_size (bos_get m (handle o)) + 8190 + acc) 0 objs.

(** ** Records as the decoder meets them *)

(** The bytes of [register_write_out]. *)
Definition register_write_record (addr value : Z) : list Z :=
  concat (dword_bytes <$>
          [Z.lor CMD_MEM_TRACE_REGISTER_WRITE (5 + 1 - 1); addr;
           Z.lor AUB_MEM_TRACE_REGISTER_SIZE_DWORD AUB_MEM_TRACE_REGISTER_SPACE_MMIO;
           0xFFFFFFFF; 0x00000000; value]).

(** The record [rec] lies at the cursor of the decoder's file, inside the
    file. *)
Definition record_at (f : Aubinator.aub_file) (rec : list Z) : Prop :=
  0 <= Aubinator.cursor f
  /\ slice (Aubinator.map f) (4 * Aubinator.cursor f) (Z.of_nat (length rec)) = rec
  /\ Aubinator.cursor f + Z.of_nat (length rec) / 4 <= Aubinator.end_ f.

(** The file with the cursor moved by [n] dwords. *)
Definition advance (f : Aubinator.aub_file) (n : Z) : Aubinator.aub_file :=
  Aubinator.mk_file (Aubinator.map f) (Aubinator.end_ f) (Aubinator.cursor f + n).

(** [handle_memtrace_reg_write] for a record with the given register
    offset and value. *)
Definition reg_write_event (dis : Aubinator.disassembler) (d : Aubinator.decoder)
           (offset value : Z) : outcome Aubinator.decoder :=
  '(s, submit) ← Aubinator.execlist_switch (Aubinator.state d) offset value;
  let d := Aubinator.set_state d s in
  match submit with
  | None => Done d
  | Some (engine, context_descriptor) =>
    Aubinator.execlist_submit dis d context_descriptor
  end.

(** [handle_memtrace_mem_write] for a record with the given address,
    address-space code, payload and size. *)
Definition mem_write_event (d : Aubinator.decoder) (address address_space : Z)
           (payload : list Z) (size : Z) : outcome Aubinator.decoder :=
  if address_space =? 0 then Aubinator.handle_ggtt_write d address payload size
  else if address_space =? 1 then
    Done (Aubinator.add_gtt_bo_map d (Aubinator.mk_decode_bo address (Some payload) size)
                                   false)
  else if address_space =? 2 then
    Done (Aubinator.handle_physical_write d address payload size)
  else if address_space =? 4 then
    Done (Aubinator.handle_ggtt_entry_write d address payload size)
  else Done d.

(** * Arithmetic of masks and indices *)

Lemma land_high_mask (x n k : Z) :
  0 <= k <= n ->
  Z.land x (Z.ldiff (Z.ones n) (Z.ones k)) = (x mod 2 ^ n) / 2 ^ k * 2 ^ k.
Proof.
  intros Hk.
  rewrite Z.ldiff_land, Z.land_assoc, <- Z.ldiff_land.
  rewrite Z.land_ones by lia.
  rewrite Z.ldiff_ones_r by lia.
  rewrite Z.shiftl_mul_pow2, Z.shiftr_div_pow2 by lia.
  reflexivity.
Qed.

Lemma lor_low_mask (x k : Z) :
  0 <= k ->
  Z.lor x (Z.ones k) = x / 2 ^ k * 2 ^ k + (2 ^ k - 1).
Proof.
  intros Hk.
  assert (Hd : Z.land (Z.ldiff x (Z.ones k)) (Z.ones k) = 0).
  { rewrite Z.ldiff_land, <- Z.land_assoc, (Z.land_comm (Z.lnot _)), Z.land_lnot_diag.
    apply Z.land_0_r. }
  assert (He : Z.lor x (Z.ones k) = Z.lor (Z.ldiff x (Z.ones k)) (Z.ones k)).
  { apply Z.bits_inj'. intros i Hi.
    rewrite !Z.lor_spec, Z.ldiff_spec.
    destruct (Z.testbit x i), (Z.testbit (Z.ones k) i); reflexivity. }
  rewrite He, <- Z.lxor_lor by exact Hd.
  rewrite <- Z.add_nocarry_lxor by exact Hd.
  rewrite Z.ldiff_ones_r by lia.
  rewrite Z.shiftl_mul_pow2, Z.shiftr_div_pow2 by lia.
  rewrite Z.ones_equiv. lia.
Qed.

Lemma index_div (x k : Z) :
  0 <= k -> Z.land (Z.shiftr x k) 0x1ff = (x / 2 ^ k) mod 512.
Proof.
  intros. rewrite Z.shiftr_div_pow2 by lia.
  change 0x1ff with (Z.ones 9). rewrite Z.land_ones by lia. reflexivity.
Qed.

Lemma L4_index_div x : L4_index x = (x / 2 ^ 39) mod 512.
Proof. apply index_div. lia. Qed.

Lemma L3_index_div x : L3_index x = (x / 2 ^ 30) mod 512.
Proof. apply index_div. lia. Qed.

Lemma L2_index_div x : L2_index x = (x / 2 ^ 21) mod 512.
Proof. apply index_div. lia. Qed.

Lemma L1_index_div x : L1_index x = (x / 2 ^ 12) mod 512.
Proof. apply index_div. lia. Qed.

Lemma mask39 x : Z.land x 0xff8000000000 = (x mod 2 ^ 48) / 2 ^ 39 * 2 ^ 39.
Proof. apply (land_high_mask x 48 39). lia. Qed.

Lemma mask30 x : Z.land x 0xffffc0000000 = (x mod 2 ^ 48) / 2 ^ 30 * 2 ^ 30.
Proof. apply (land_high_mask x 48 30). lia. Qed.

Lemma mask21 x : Z.land x 0xffffffe00000 = (x mod 2 ^ 48) / 2 ^ 21 * 2 ^ 21.
Proof. apply (land_high_mask x 48 21). lia. Qed.

Lemma mask12 x : Z.land x 0xfffffffff000 = (x mod 2 ^ 48) / 2 ^ 12 * 2 ^ 12.
Proof. apply (land_high_mask x 48 12). lia. Qed.

Lemma fill39 x : Z.land (Z.lor x 0x007fffffffff) 0xffffffffffff
                  = (x / 2 ^ 39 * 2 ^ 39 + (2 ^ 39 - 1)) mod 2 ^ 48.
Proof.
  change 0x007fffffffff with (Z.ones 39). change 0xffffffffffff with (Z.ones 48).
  rewrite lor_low_mask, Z.land_ones by lia. reflexivity.
Qed.

Lemma fill30 x : Z.land (Z.lor x 0x00003fffffff) 0xffffffffffff
                  = (x / 2 ^ 30 * 2 ^ 30 + (2 ^ 30 - 1)) mod 2 ^ 48.
Proof.
  change 0x00003fffffff with (Z.ones 30). change 0xffffffffffff with (Z.ones 48).
  rewrite lor_low_mask, Z.land_ones by lia. reflexivity.
Qed.

Lemma fill21 x : Z.land (Z.lor x 0x0000001fffff) 0xffffffffffff
                  = (x / 2 ^ 21 * 2 ^ 21 + (2 ^ 21 - 1)) mod 2 ^ 48.
Proof.
  change 0x0000001fffff with (Z.ones 21). change 0xffffffffffff with (Z.ones 48).
  rewrite lor_low_mask, Z.land_ones by lia. reflexivity.
Qed.

Lemma fill12 x : Z.land (Z.lor x 0x000000000fff) 0xffffffffffff
                  = (x / 2 ^ 12 * 2 ^ 12 + (2 ^ 12 - 1)) mod 2 ^ 48.
Proof.
  change 0x000000000fff with (Z.ones 12). change 0xffffffffffff with (Z.ones 48).
  rewrite lor_low_mask, Z.land_ones by lia. reflexivity.
Qed.

(** * Bytes and slices *)

Lemma le_value_le_bytes (n : nat) v :
  le_value (le_bytes n v) = v mod 2 ^ (8 * Z.of_nat n).
Proof.
  revert v. induction n as [|n IH]; intros v.
  - simpl. rewrite Z.mod_1_r. reflexivity.
  - cbn [le_bytes le_value]. rewrite IH.
    replace (8 * Z.of_nat (S n)) with (8 + 8 * Z.of_nat n) by lia.
    rewrite Z.pow_add_r by lia. change (2 ^ 8) with 256.
    rewrite Z.rem_mul_r by lia. reflexivity.
Qed.

Lemma length_le_bytes n v : length (le_bytes n v) = n.
Proof. revert v. induction n; intros v; simpl; auto. Qed.

Lemma slice_blit buf off src len :
  len = Z.of_nat (length src) ->
  0 <= off -> off + len <= Z.of_nat (length buf) ->
  slice (blit buf off src) off len = src.
Proof.
  intros -> H0 H1. unfold slice, blit.
  rewrite drop_app_length' by (rewrite length_take; lia).
  rewrite Nat2Z.id. rewrite take_app_length. reflexivity.
Qed.

Lemma slice_slice bs off len o l :
  0 <= off -> 0 <= o -> 0 <= l -> o + l <= len ->
  slice (slice bs off len) o l = slice bs (off + o) l.
Proof.
  intros H1 H2 H3 H4. unfold slice.
  replace (Z.to_nat len) with (Z.to_nat o + (Z.to_nat len - Z.to_nat o))%nat by lia.
  rewrite <- take_drop_commute, drop_drop, take_take.
  f_equal; [lia|]. f_equal. lia.
Qed.

Lemma length_dword_bytes v : length (dword_bytes v) = 4%nat.
Proof. apply length_le_bytes. Qed.

Lemma slice_app_l bs tail l :
  l = Z.of_nat (length bs) -> slice (bs ++ tail) 0 l = bs.
Proof.
  intros ->. unfold slice. rewrite Nat2Z.id. cbn [Z.to_nat drop]. apply take_app_length.
Qed.

Lemma slice_app_r bs tail off l :
  Z.of_nat (length bs) <= off ->
  slice (bs ++ tail) off l = slice tail (off - Z.of_nat (length bs)) l.
Proof.
  intros H. unfold slice. rewrite drop_app_ge by lia. f_equal. f_equal. lia.
Qed.

Lemma dwords_lookup vs : forall tail (k : nat) v,
  vs !! k = Some v ->
  slice (concat (dword_bytes <$> vs) ++ tail) (4 * Z.of_nat k) 4 = dword_bytes v.
Proof.
  induction vs as [|w vs IH]; intros tail k v H; [discriminate|].
  cbn [fmap list_fmap concat]. rewrite <- app_assoc.
  destruct k as [|k].
  - injection H as ->. apply slice_app_l. rewrite length_dword_bytes. reflexivity.
  - rewrite slice_app_r by (rewrite length_dword_bytes; lia).
    rewrite length_dword_bytes.
    replace (4 * Z.of_nat (S k) - Z.of_nat 4) with (4 * Z.of_nat k) by lia.
    apply IH. exact H.
Qed.

Lemma le_value_dword_bytes v : le_value (dword_bytes v) = wrap32 v.
Proof.
  unfold dword_bytes. rewrite le_value_le_bytes. unfold wrap32.
  change (2 ^ (8 * Z.of_nat 4)) with (2 ^ 32). apply Z.mod_mod. lia.
Qed.

Lemma length_blit buf off src :
  0 <= off -> off + Z.of_nat (length src) <= Z.of_nat (length buf) ->
  length (blit buf off src) = length buf.
Proof.
  intros H0 H1. unfold blit. rewrite !length_app, length_take, length_drop. lia.
Qed.

Lemma lookup_blit_outside buf off src (k : nat) :
  0 <= off -> off + Z.of_nat (length src) <= Z.of_nat (length buf) ->
  ~ (off <= Z.of_nat k < off + Z.of_nat (length src)) ->
  blit buf off src !! k = buf !! k.
Proof.
  intros H0 H1 Hk. unfold blit.
  destruct (Z.lt_ge_cases (Z.of_nat k) off) as [Hlt | Hge].
  - rewrite lookup_app_l by (rewrite length_take; lia).
    apply lookup_take_lt. lia.
  - rewrite lookup_app_r by (rewrite length_take; lia).
    rewrite length_take.
    rewrite lookup_app_r by lia.
    rewrite lookup_drop. f_equal. lia.
Qed.

Lemma slice_ext (l1 l2 : list Z) off w :
  0 <= off ->
  (forall k : nat, off <= Z.of_nat k < off + w -> l1 !! k = l2 !! k) ->
  slice l1 off w = slice l2 off w.
Proof.
  intros Hoff H. unfold slice. apply list_eq. intros i.
  destruct (Nat.lt_ge_cases i (Z.to_nat w)) as [Hlt | Hge].
  - rewrite !lookup_take_lt by exact Hlt. rewrite !lookup_drop. apply H. lia.
  - rewrite !lookup_take_ge by exact Hge. reflexivity.
Qed.

(** * Counted loops *)

Lemma bind_done {A B} (m : outcome A) (k : A -> outcome B) b :
  m ≫= k = Done b -> exists a, m = Done a /\ k a = Done b.
Proof. destruct m as [a| | |]; try discriminate. intros H. exists a. auto. Qed.

Lemma for_each_app {X S} (f : X -> S -> outcome S) l1 l2 s :
  for_each f (l1 ++ l2) s = for_each f l1 s ≫= for_each f l2.
Proof.
  revert s. induction l1 as [|x l1 IH]; intros s; simpl; [reflexivity|].
  destruct (f x s); simpl; auto.
Qed.

Lemma for_each_order {X S} (R : S -> S -> Prop) (f : X -> S -> outcome S) l :
  (forall s, R s s) -> (forall s1 s2 s3, R s1 s2 -> R s2 s3 -> R s1 s3) ->
  (forall x s s', f x s = Done s' -> R s s') ->
  forall s s', for_each f l s = Done s' -> R s s'.
Proof.
  intros Hr Ht Hf. induction l as [|x l IH]; intros s s'; cbn [for_each].
  - intros [= <-]. apply Hr.
  - intros H. apply bind_done in H as (s1 & H1 & H). eauto.
Qed.

Lemma for_values_spec (lo hi step x : Z) :
  0 < step ->
  x ∈ for_values lo hi step <-> (lo <= x < hi /\ (x - lo) mod step = 0).
Proof.
  intros Hs. unfold for_values.
  destruct (Z.ltb_spec lo hi) as [Hlt | Hge].
  - rewrite list_elem_of_fmap. split.
    + intros (k & -> & Hk). apply elem_of_seqZ in Hk.
      split.
      * assert (k <= (hi - 1 - lo) / step) by lia.
        assert (step * ((hi - 1 - lo) / step) <= hi - 1 - lo)
          by (apply Z.mul_div_le; lia).
        nia.
      * replace (lo + k * step - lo) with (k * step) by lia.
        apply Z.mod_mul. lia.
    + intros [Hx Hm]. exists ((x - lo) / step). split.
      * pose proof (Z.div_mod (x - lo) step ltac:(lia)). lia.
      * apply elem_of_seqZ. split.
        -- apply Z.div_pos; lia.
        -- assert ((x - lo) / step <= (hi - 1 - lo) / step)
             by (apply Z.div_le_mono; lia). lia.
  - rewrite elem_of_nil. lia.
Qed.

Lemma for_values_length (lo hi step n : Z) :
  0 < step -> 0 <= n -> hi - lo <= n * step ->
  Z.of_nat (length (for_values lo hi step)) <= n.
Proof.
  intros Hs Hn Hb. unfold for_values.
  destruct (Z.ltb_spec lo hi) as [Hlt | Hge]; [| simpl; lia].
  rewrite length_fmap, length_seqZ.
  assert ((hi - 1 - lo) / step < n).
  { apply Z.div_lt_upper_bound; lia. }
  assert (0 <= (hi - 1 - lo) / step) by (apply Z.div_pos; lia).
  lia.
Qed.

Lemma slot_lookup subs j e :
  0 <= j -> subs !! Z.to_nat j = Some e -> slot subs j = e.
Proof. intros _ H. unfold slot. rewrite H. reflexivity. Qed.

Lemma lookup_slot subs j :
  0 <= j < Z.of_nat (length subs) -> subs !! Z.to_nat j = Some (slot subs j).
Proof.
  intros H. unfold slot.
  destruct (subs !! Z.to_nat j) eqn:E; [reflexivity|].
  apply lookup_ge_None in E. lia.
Qed.

Lemma slot_insert_eq subs j e :
  0 <= j < Z.of_nat (length subs) -> slot (<[Z.to_nat j := e]> subs) j = e.
Proof.
  intros H. unfold slot. rewrite list_lookup_insert_eq by lia. reflexivity.
Qed.

Lemma slot_insert_ne subs i j e :
  0 <= i -> 0 <= j -> i <> j -> slot (<[Z.to_nat i := e]> subs) j = slot subs j.
Proof.
  intros Hi Hj H. unfold slot. rewrite list_lookup_insert_ne by lia. reflexivity.
Qed.

Lemma slot_neg subs j : j < 0 -> slot subs j = slot subs 0.
Proof. intros H. unfold slot. replace (Z.to_nat j) with (Z.to_nat 0) by lia. reflexivity. Qed.

Lemma new_slot_typed level a : slot_typed level (new_slot level a).
Proof.
  unfold new_slot, ptr_of_Z.
  destruct (Z.eqb_spec level 1); [destruct (_ =? 0)|]; simpl; auto.
Qed.

Lemma populate_iter_spec level i st :
  0 <= i < 512 ->
  length (pl_subtables st) = 512%nat ->
  Forall (slot_typed level) (pl_subtables st) ->
  populate_iter level i st =
  let fresh := is_null (slot (pl_subtables st) i) in
  let subs1 := if fresh then <[Z.to_nat i := new_slot level (pl_allocator st)]> (pl_subtables st)
               else pl_subtables st in
  Done (mk_locals subs1
          (if fresh then wrap64 (pl_allocator st + 1) else pl_allocator st)
          (<[Z.to_nat i := entry_of (slot subs1 i)]> (pl_entries st))
          (if fresh then Z.min (dirty_start st) i else dirty_start st)
          (if fresh then Z.max (dirty_end st) i else dirty_end st)).
Proof.
  intros Hi Hlen Hty. unfold populate_iter.
  replace ((0 <=? i) && (i <? 512)) with true by lia. simpl negb. cbv iota.
  rewrite (lookup_slot (pl_subtables st) i) by lia.
  assert (Ht : slot_typed level (slot (pl_subtables st) i)).
  { eapply Forall_lookup_1; [exact Hty|]. apply lookup_slot. lia. }
  destruct (slot (pl_subtables st) i) as [|a|a s] eqn:E; simpl in Ht |- *.
  - rewrite list_lookup_insert_eq by lia.
    rewrite slot_insert_eq by lia.
    fold (new_slot level (pl_allocator st)).
    unfold new_slot, entry_address, ptr_of_Z.
    destruct (Z.eqb_spec level 1); [destruct (_ =? 0)|]; reflexivity.
  - rewrite (lookup_slot (pl_subtables st) i) by lia. rewrite E.
    unfold entry_address. subst level. reflexivity.
  - rewrite (lookup_slot (pl_subtables st) i) by lia. rewrite E.
    unfold entry_address. destruct (Z.eqb_spec level 1); [contradiction|]. reflexivity.
Qed.

Lemma new_slot_not_null level a :
  0 < a < 2 ^ 52 -> new_slot level a <> NULL.
Proof.
  intros Ha. unfold new_slot, ptr_of_Z, wrap64.
  destruct (level =? 1); [|discriminate].
  rewrite Z.shiftl_mul_pow2 by lia.
  rewrite Z.mod_small by lia.
  destruct (Z.eqb_spec (a * 2 ^ 12) 0); [lia | discriminate].
Qed.

Lemma populate_loop_spec level (n : nat) :
  forall start st,
    0 <= start -> start + Z.of_nat n <= 512 ->
    length (pl_subtables st) = 512%nat ->
    length (pl_entries st) = 512%nat ->
    Forall (slot_typed level) (pl_subtables st) ->
    exists st',
      for_each (populate_iter level) (seqZ start (Z.of_nat n)) st = Done st'
      /\ populate_loop_post level start n st st'.
Proof.
  induction n as [|n IH]; intros start st Hs Hn Hlen Helen Hty.
  - exists st. split; [reflexivity|].
    constructor; auto; try lia; intros; try lia.
    all: try (split; auto; lia).
  - rewrite seqZ_cons by lia. simpl for_each.
    rewrite populate_iter_spec by (auto; lia).
    cbv zeta.
    set (fresh := is_null (slot (pl_subtables st) start)).
    set (subs1 := if fresh then _ else pl_subtables st).
    set (st1 := mk_locals subs1 _ _ _ _).
    change (Done st1 ≫= for_each (populate_iter level) (seqZ (Z.succ start) (Z.pred (Z.of_nat (S n)))))
      with (for_each (populate_iter level) (seqZ (Z.succ start) (Z.pred (Z.of_nat (S n)))) st1).
    replace (Z.pred (Z.of_nat (S n))) with (Z.of_nat n) by lia.
    assert (Hlen1 : length subs1 = 512%nat).
    { unfold subs1. destruct fresh; [rewrite length_insert|]; exact Hlen. }
    assert (Hty1 : Forall (slot_typed level) subs1).
    { unfold subs1. destruct fresh; [|exact Hty].
      apply Forall_insert; [exact Hty | apply new_slot_typed]. }
    assert (Hkeep1 : forall j, slot (pl_subtables st) j <> NULL ->
                               slot subs1 j = slot (pl_subtables st) j).
    { intros j Hj. unfold subs1, fresh.
      destruct (slot (pl_subtables st) start) eqn:E; simpl; auto.
      destruct (Z.eq_dec (Z.max j 0) start) as [Heq|Hne].
      - exfalso. apply Hj. destruct (Z.le_gt_cases 0 j).
        + replace j with start by lia. exact E.
        + rewrite slot_neg by lia. replace 0 with start by lia. exact E.
      - unfold slot. rewrite list_lookup_insert_ne by lia. reflexivity. }
    assert (Hout1 : forall j, 0 <= j -> j <> start -> slot subs1 j = slot (pl_subtables st) j).
    { intros j Hj Hne. unfold subs1. destruct fresh; [|reflexivity].
      apply slot_insert_ne; lia. }
    destruct (IH (Z.succ start) st1) as (st' & Hrun & P); simpl; auto; try lia.
    { rewrite length_insert. exact Helen. }
    exists st'. split; [exact Hrun|].
    destruct P as [Plen Pelen Pty Pkeep Pnew Pout Pent Pcov Pds Pde Pnoop Palloc].
    simpl in *.
    constructor; simpl.
    + exact Plen.
    + rewrite Pelen, length_insert. reflexivity.
    + exact Pty.
    + intros j Hj. rewrite Pkeep; rewrite Hkeep1; auto.
    + intros j Hj. destruct (Pnew j Hj) as [Pe | Pe]; [|right; exact Pe].
      rewrite Pe. destruct (Z.eq_dec j start) as [->|Hne]; [|left; apply Hout1; lia].
      unfold subs1. destruct fresh; [|left; reflexivity].
      right. eexists. apply slot_insert_eq. lia.
    + intros j Hj0 Hj. destruct (Pout j) as [Pa Pb]; [lia | lia |].
      rewrite Pa, Pb. split; [apply Hout1; lia|].
      apply list_lookup_insert_ne. lia.
    + intros j Hj. destruct (Z.eq_dec j start) as [->|Hne].
      * destruct (Pout start) as [Pa Pb]; [lia | lia |].
        rewrite Pa, Pb. apply list_lookup_insert_eq. lia.
      * apply Pent. lia.
    + intros j Hj Hnull. destruct (Z.eq_dec j start) as [->|Hne].
      * assert (Hf : fresh = true) by (unfold fresh; rewrite Hnull; reflexivity).
        rewrite Hf in *.
        destruct Pds as [Pds | (? & ? & ?)], Pde as [Pde | (? & ? & ?)]; lia.
      * apply Pcov; [lia|]. rewrite Hout1 by lia. exact Hnull.
    + destruct Pds as [Pds | (Hr & Hnull & Hle)].
      * rewrite Pds. unfold fresh.
        destruct (slot (pl_subtables st) start) eqn:E; simpl; auto.
        destruct (Z.min_spec (dirty_start st) start) as [[? ->]|[? ->]]; auto.
        right. repeat split; auto; lia.
      * right. split; [lia|]. split.
        -- rewrite <- (Hout1 (dirty_start st')) by lia. exact Hnull.
        -- destruct fresh; lia.
    + destruct Pde as [Pde | (Hr & Hnull & Hle)].
      * rewrite Pde. unfold fresh.
        destruct (slot (pl_subtables st) start) eqn:E; simpl; auto.
        destruct (Z.max_spec (dirty_end st) start) as [[? ->]|[? ->]]; auto.
        right. repeat split; auto; lia.
      * right. split; [lia|]. split.
        -- rewrite <- (Hout1 (dirty_end st')) by lia. exact Hnull.
        -- destruct fresh; lia.
    + intros Hall.
      assert (Hf : fresh = false).
      { unfold fresh. specialize (Hall start ltac:(lia)).
        destruct (slot (pl_subtables st) start); [contradiction | reflexivity | reflexivity]. }
      rewrite Hf in *. unfold subs1 in *. rewrite Hf in *.
      apply Pnoop. intros j Hj. apply Hall. lia.
    + intros Ha Hb.
      assert (Ha1 : pl_allocator st <= (if fresh then wrap64 (pl_allocator st + 1) else pl_allocator st)
                    <= pl_allocator st + 1).
      { destruct fresh; [|lia]. unfold wrap64. rewrite Z.mod_small; lia. }
      destruct Palloc as [Pb Pc]; [lia | lia |].
      split; [lia|].
      intros j Hj. destruct (Z.eq_dec j start) as [->|Hne]; [|apply Pc; lia].
      destruct (Pout start) as [Pa _]; [lia | lia |].
      rewrite Pa. unfold subs1, fresh.
      destruct (slot (pl_subtables st) start) eqn:E; simpl; try (rewrite E; discriminate).
      rewrite slot_insert_eq by lia. apply new_slot_not_null. lia.
Qed.

Lemma wf_subs_length lvl subs : wf_subs lvl subs -> length subs = 512%nat.
Proof. destruct lvl; simpl; tauto. Qed.

Lemma wf_subs_typed lvl subs :
  wf_subs lvl subs -> Forall (slot_typed (Z.of_nat lvl)) subs.
Proof.
  destruct lvl as [|k]; simpl; [tauto|]. intros [_ H].
  eapply Forall_impl; [exact H|]. intros [|a|a s]; simpl; auto; try lia.
Qed.

Lemma wf_subs_child k subs i a s :
  wf_subs (S k) subs -> subs !! i = Some (TablePtr a s) -> k <> O /\ wf_subs k s.
Proof.
  simpl. intros [_ H] Hl. exact (Forall_lookup_1 _ _ _ _ H Hl).
Qed.

Lemma wf_calloc k : wf_subs (S k) calloc_table.
Proof.
  simpl. split; [reflexivity|]. apply Forall_replicate. exact I.
Qed.

Lemma walk_cons subs i rest :
  rest <> [] ->
  walk subs (i :: rest) = match subs !! i with
                          | Some (TablePtr _ s) => walk s rest
                          | _ => NULL
                          end.
Proof. destruct rest; [congruence | reflexivity]. Qed.

Lemma deref_walk root p j t :
  deref root p = Some t ->
  walk (subtables root) (p ++ [j]) = default NULL (subtables t !! j).
Proof.
  revert root. induction p as [|i p IH]; intros root H; simpl in H.
  - inversion H. reflexivity.
  - simpl app. rewrite walk_cons by (destruct p; discriminate).
    destruct (subtables root !! i) as [[|a|a s]|]; try discriminate.
    apply (IH (mk_table a s)). exact H.
Qed.

Lemma present_deref root p j :
  present root (p ++ [j]) -> exists t, deref root p = Some t /\ default NULL (subtables t !! j) <> NULL.
Proof.
  unfold present. revert root. induction p as [|i p IH]; intros root H.
  - exists root. split; [reflexivity | exact H].
  - simpl app in H. rewrite walk_cons in H by (destruct p; discriminate).
    simpl. destruct (subtables root !! i) as [[|a|a s]|]; try congruence.
    apply (IH (mk_table a s)). exact H.
Qed.


Lemma deref_wf root p t k :
  wf_subs (length p + k) (subtables root) -> deref root p = Some t ->
  wf_subs k (subtables t).
Proof.
  revert root. induction p as [|i p IH]; intros root Hwf H; simpl in H.
  - inversion H. subst. exact Hwf.
  - destruct (subtables root !! i) as [[|a|a s]|] eqn:E; try discriminate.
    apply (IH (mk_table a s)); [|exact H].
    simpl length in Hwf. simpl plus in Hwf.
    exact (proj2 (wf_subs_child _ _ _ _ _ Hwf E)).
Qed.


Lemma store_phys root p t t' :
  deref root p = Some t -> phys_addr t' = phys_addr t ->
  phys_addr (store root p t') = phys_addr root.
Proof.
  destruct p as [|i p]; simpl; intros H Hp.
  - congruence.
  - destruct (subtables root !! i) as [[|a|a s]|]; reflexivity.
Qed.

Lemma store_length root p t t' :
  deref root p = Some t -> length (subtables t') = length (subtables t) ->
  length (subtables (store root p t')) = length (subtables root).
Proof.
  destruct p as [|i p]; simpl; intros H Hp.
  - congruence.
  - destruct (subtables root !! i) as [[|a|a s]|]; try reflexivity.
    simpl. apply length_insert.
Qed.

Lemma store_wf root p t subs' k :
  wf_subs (length p + k) (subtables root) -> deref root p = Some t ->
  wf_subs k subs' ->
  wf_subs (length p + k) (subtables (store root p (mk_table (phys_addr t) subs'))).
Proof.
  revert root. induction p as [|i p IH]; intros root Hwf H Hs; simpl in H |- *.
  - exact Hs.
  - destruct (subtables root !! i) as [[|a|a s]|] eqn:E; try discriminate.
    simpl. destruct Hwf as [Hlen Hall]. fold wf_subs in Hall.
    split; [rewrite length_insert; exact Hlen|].
    apply Forall_insert; [exact Hall|].
    pose proof (Forall_lookup_1 _ _ _ _ Hall E) as [Hk Hc]. simpl in Hc.
    split; [exact Hk|].
    apply (IH (mk_table a s)); assumption.
Qed.

(** Storing a table whose slots only went from empty to populated keeps
    every populated chain populated, and populates the new slots. *)
Lemma store_present_mono root p t subs' :
  deref root p = Some t ->
  (forall j, default NULL (subtables t !! j) <> NULL -> subs' !! j = subtables t !! j) ->
  forall idxs, present root idxs ->
               present (store root p (mk_table (phys_addr t) subs')) idxs.
Proof.
  unfold present.
  revert root. induction p as [|i p IH]; intros root H Hk idxs Hp; simpl in H |- *.
  - inversion H; subst t; clear H.
    destruct idxs as [|j rest]; [exact Hp|].
    destruct rest as [|j' rest].
    + simpl in *. rewrite Hk; exact Hp.
    + rewrite walk_cons in * by discriminate.
      destruct (subtables root !! j) as [[|a|a s]|] eqn:E; try congruence.
      rewrite Hk by (rewrite E; discriminate). rewrite E. exact Hp.
  - destruct (subtables root !! i) as [[|a|a s]|] eqn:E; try discriminate.
    simpl.
    destruct idxs as [|j rest]; [exact Hp|].
    destruct (Nat.eq_dec j i) as [->|Hne].
    + destruct rest as [|j' rest].
      * simpl. rewrite list_lookup_insert_eq by (apply lookup_lt_Some in E; exact E).
        discriminate.
      * rewrite walk_cons in * by discriminate.
        rewrite list_lookup_insert_eq by (apply lookup_lt_Some in E; exact E).
        rewrite E in Hp.
        apply (IH (mk_table a s)); assumption.
    + destruct rest as [|j' rest].
      * simpl in *. rewrite list_lookup_insert_ne by auto. exact Hp.
      * rewrite walk_cons in * by discriminate.
        rewrite list_lookup_insert_ne by auto. exact Hp.
Qed.

Lemma store_present_new root p t subs' j :
  deref root p = Some t ->
  default NULL (subs' !! j) <> NULL ->
  present (store root p (mk_table (phys_addr t) subs')) (p ++ [j]).
Proof.
  unfold present.
  revert root. induction p as [|i p IH]; intros root H Hj; simpl in H.
  - exact Hj.
  - simpl store. simpl app.
    destruct (subtables root !! i) as [[|a|a s]|] eqn:E; try discriminate.
    rewrite walk_cons by (destruct p; discriminate). simpl subtables.
    rewrite list_lookup_insert_eq by (apply lookup_lt_Some in E; exact E).
    apply (IH (mk_table a s)); assumption.
Qed.

(** * Output streams *)

Lemma set_file_id aub w : file aub = Some w -> set_file aub (Some w) = aub.
Proof. destruct aub; simpl; intros ->; reflexivity. Qed.

Lemma appended_nil aub : is_Some (file aub) -> appended aub [] aub.
Proof. intros [w H]. exists w. split; [exact H|]. simpl. symmetry. apply set_file_id, H. Qed.

Lemma appended_app a b1 a1 b2 a2 :
  appended a b1 a1 -> appended a1 b2 a2 -> appended a (b1 ++ b2) a2.
Proof.
  intros (w & Hw & ->) (w1 & Hw1 & ->). simpl in Hw1. inversion Hw1; subst w1.
  exists w. split; [exact Hw|]. unfold set_file; simpl.
  rewrite !rev_append_rev, rev_app_distr, app_assoc. reflexivity.
Qed.

Lemma appended_open a b a' : appended a b a' -> is_Some (file a').
Proof. intros (w & _ & ->). simpl. eauto. Qed.

Lemma appended_pml4 a b a' : appended a b a' -> pml4 a' = pml4 a.
Proof. intros (w & _ & ->). reflexivity. Qed.

Lemma appended_devinfo a b a' : appended a b a' -> devinfo a' = devinfo a.
Proof. intros (w & _ & ->). reflexivity. Qed.

Lemma appended_addr_bits a b a' : appended a b a' -> addr_bits a' = addr_bits a.
Proof. intros (w & _ & ->). reflexivity. Qed.

Lemma appended_stream a b a' : appended a b a' -> stream_of a' = stream_of a ++ b.
Proof.
  intros (w & Hw & ->). unfold stream_of. rewrite Hw. simpl.
  unfold reverse. rewrite !rev_append_rev, !app_nil_r, rev_app_distr, rev_involutive.
  reflexivity.
Qed.

Lemma data_out_appended aub data :
  is_Some (file aub) -> exists aub', data_out aub data = Done aub' /\ appended aub data aub'.
Proof.
  intros [w Hw]. unfold data_out. rewrite Hw.
  destruct data as [|b data].
  - exists aub. split; [reflexivity|]. apply appended_nil. eauto.
  - eexists. split; [reflexivity|]. exists w. auto.
Qed.

Lemma dword_out_appended aub v :
  is_Some (file aub) ->
  exists aub', dword_out aub v = Done aub' /\ appended aub (dword_bytes v) aub'.
Proof. intros H. apply data_out_appended, H. Qed.

(** Chaining writer steps. *)
Ltac step_out H :=
  let a := fresh "aub" in
  let E := fresh "E" in
  let A := fresh "A" in
  destruct H as (a & E & A); rewrite E; clear E;
  change (Done a ≫= ?k) with (k a); cbv beta.

Lemma mem_trace_memory_write_header_out_appended aub addr len addr_space :
  is_Some (file aub) ->
  exists aub', mem_trace_memory_write_header_out aub addr len addr_space = Done aub'
               /\ appended aub (memory_write_header addr len addr_space) aub'.
Proof.
  intros H0. unfold mem_trace_memory_write_header_out, memory_write_header. cbv zeta.
  pose proof (dword_out_appended aub
    (Z.lor CMD_MEM_TRACE_MEMORY_WRITE (wrap32 (5 + wrap32 (ALIGN len 4 / 4) - 1))) H0) as H1.
  step_out H1.
  pose proof (dword_out_appended aub0 (Z.land addr 0xFFFFFFFF) (appended_open _ _ _ A)) as H2.
  step_out H2.
  pose proof (dword_out_appended aub1 (Z.shiftr addr 32) (appended_open _ _ _ A0)) as H3.
  step_out H3.
  pose proof (dword_out_appended aub2 addr_space (appended_open _ _ _ A1)) as H4.
  step_out H4.
  pose proof (dword_out_appended aub3 len (appended_open _ _ _ A2)) as H5.
  destruct H5 as (aub4 & E & A3). exists aub4. split; [exact E|].
  eauto using appended_app.
Qed.

(** * [populate_ppgtt_table] *)

Lemma slice_entries entries subs start n ds de :
  length entries = 512%nat ->
  (forall j, start <= j < start + n ->
             entries !! Z.to_nat j = Some (entry_of (slot subs j))) ->
  start <= ds -> de < start + n -> 0 <= start ->
  slice entries ds (de - ds + 1) = (fun j => entry_of (slot subs j)) <$> seqZ ds (de - ds + 1).
Proof.
  intros Hlen He Hs Hd H0. unfold slice.
  apply list_eq. intros i.
  rewrite list_lookup_fmap.
  destruct (decide (Z.of_nat i < de - ds + 1)) as [Hi|Hi].
  - rewrite lookup_take_lt by lia. rewrite lookup_drop.
    rewrite (lookup_seqZ_lt ds (de - ds + 1) i) by lia. simpl.
    replace (Z.to_nat ds + i)%nat with (Z.to_nat (ds + Z.of_nat i)) by lia.
    apply He. lia.
  - rewrite lookup_take_ge by lia.
    rewrite lookup_seqZ_ge by lia. reflexivity.
Qed.

Lemma seqZ_to_nat m len : seqZ m len = seqZ m (Z.of_nat (Z.to_nat len)).
Proof. unfold seqZ. rewrite Nat2Z.id. reflexivity. Qed.

Lemma populate_table_spec aub allocator p start end_ (lvl : nat) t :
  wf_subs (length p + lvl) (subtables (pml4 aub)) ->
  deref (pml4 aub) p = Some t ->
  0 <= start < 512 -> end_ < 512 ->
  is_Some (file aub) ->
  exists st' aub',
    populate_loop_post (Z.of_nat lvl) start (Z.to_nat (end_ - start + 1))
                       (populate_init t allocator) st'
    /\ populate_ppgtt_table aub allocator p start end_ (Z.of_nat lvl)
       = Done (aub', pl_allocator st')
    /\ appended (set_pml4 aub (store (pml4 aub) p
                                     (mk_table (phys_addr t) (pl_subtables st'))))
                (if dirty_start st' <=? dirty_end st'
                 then dirty_record (phys_addr t) (pl_subtables st')
                                   (dirty_start st') (dirty_end st')
                 else [])
                aub'.
Proof.
  intros Hwf Hd Hs He Hf.
  pose proof (deref_wf _ _ _ _ Hwf Hd) as Hwt.
  destruct (populate_loop_spec (Z.of_nat lvl) (Z.to_nat (end_ - start + 1)) start
                               (populate_init t allocator))
    as (st' & Hrun & P).
  { lia. }
  { lia. }
  { simpl. eapply wf_subs_length; eauto. }
  { reflexivity. }
  { simpl. apply wf_subs_typed; auto. }
  exists st'. unfold populate_ppgtt_table. rewrite Hd.
  fold (populate_init t allocator).
  rewrite (seqZ_to_nat start (end_ - start + 1)).
  rewrite Hrun.
  change (Done st' ≫= ?k) with (k st'). cbv beta.
  set (aub1 := set_pml4 aub _).
  assert (Hf1 : is_Some (file aub1)) by exact Hf.
  destruct (dirty_start st' <=? dirty_end st') eqn:Hdirty.
  - pose proof (mem_trace_memory_write_header_out_appended aub1
        (wrap64 (phys_addr t + dirty_start st' * 8))
        (wrap64 ((dirty_end st' - dirty_start st' + 1) * 8))
        AUB_MEM_TRACE_MEMORY_ADDRESS_SPACE_PHYSICAL Hf1) as H1.
    cbv zeta. step_out H1.
    pose proof (data_out_appended aub0
        (concat (le_bytes 8 <$> slice (pl_entries st') (dirty_start st')
                                      (dirty_end st' - dirty_start st' + 1)))
        (appended_open _ _ _ A)) as H2.
    step_out H2.
    exists aub2. split; [exact P|]. split; [reflexivity|].
    unfold dirty_record.
    rewrite <- (slice_entries (pl_entries st') (pl_subtables st') start
                              (Z.of_nat (Z.to_nat (end_ - start + 1)))).
    + eauto using appended_app.
    + rewrite (plp_elen _ _ _ _ _ P). apply length_replicate.
    + apply (plp_entries _ _ _ _ _ P).
    + destruct (plp_ds _ _ _ _ _ P) as [Hds | Hds]; simpl in Hds; [|lia].
      destruct (plp_de _ _ _ _ _ P) as [Hde | Hde]; simpl in Hde; lia.
    + destruct (plp_de _ _ _ _ _ P) as [Hde | Hde]; simpl in Hde; [|lia].
      destruct (plp_ds _ _ _ _ _ P) as [Hds | Hds]; simpl in Hds; lia.
    + lia.
  - exists aub1. split; [exact P|]. split; [reflexivity|].
    apply appended_nil. exact Hf1.
Qed.

(** * Writer states: the file being written and the page allocator *)

Lemma st_ext_refl s : st_ext s s.
Proof. intros idxs H. exact H. Qed.

Lemma st_ext_trans s1 s2 s3 : st_ext s1 s2 -> st_ext s2 s3 -> st_ext s1 s3.
Proof. intros H1 H2 idxs H. apply H2, H1, H. Qed.

Lemma deref_app root p q :
  deref root (p ++ q) = deref root p ≫= fun t => deref t q.
Proof.
  revert root. induction p as [|i p IH]; intros root; simpl.
  - reflexivity.
  - destruct (subtables root !! i) as [[|a|a s]|]; try reflexivity. apply IH.
Qed.

Lemma present_table root p lvl :
  wf_subs (length p + S lvl) (subtables root) ->
  p <> [] -> present root p -> exists t, deref root p = Some t.
Proof.
  intros Hwf Hp Hpr.
  destruct (exists_last Hp) as (q & j & ->).
  destruct (present_deref _ _ _ Hpr) as (tq & Hq & Hj).
  rewrite deref_app, Hq. simpl.
  rewrite length_app in Hwf. simpl in Hwf.
  replace (length q + 1 + S lvl)%nat with (length q + S (S lvl))%nat in Hwf by lia.
  pose proof (deref_wf _ _ _ _ Hwf Hq) as Hwq.
  destruct (subtables tq !! j) as [[|a|a s]|] eqn:E; simpl in Hj; try congruence.
  - destruct Hwq as [_ Hall]. pose proof (Forall_lookup_1 _ _ _ _ Hall E) as Hbad.
    simpl in Hbad. discriminate.
  - eauto.
Qed.

Lemma new_slot_wf k a :
  match new_slot (Z.of_nat (S k)) a with
  | NULL => True
  | PhysPtr _ => k = O
  | TablePtr _ s => k <> O /\ wf_subs k s
  end.
Proof.
  unfold new_slot, ptr_of_Z.
  destruct (Z.eqb_spec (Z.of_nat (S k)) 1) as [E|E].
  - destruct (_ =? 0); [exact I | lia].
  - destruct k as [|k]; [lia|]. split; [discriminate | apply wf_calloc].
Qed.

Lemma populate_ok (s : wstate) p start end_ (k : nat) :
  st_ok s -> (length p + S k = 4)%nat ->
  (p = [] \/ present (pml4 s.1) p) ->
  0 <= start < 512 -> end_ < 512 ->
  0 < s.2 -> s.2 + 512 <= 2 ^ 52 ->
  exists s', populate_ppgtt_table s.1 s.2 p start end_ (Z.of_nat (S k)) = Done s'
             /\ st_ok s' /\ st_ext s s' /\ s.2 <= s'.2 <= s.2 + 512
             /\ forall j, start <= j <= end_ -> present (pml4 s'.1) (p ++ [Z.to_nat j]).
Proof.
  intros [Hwf Hf] Hlen Hg Hs He Ha Hb.
  rewrite <- Hlen in Hwf.
  assert (Hd : exists t, deref (pml4 s.1) p = Some t).
  { destruct Hg as [-> | Hg]; [eexists; reflexivity|].
    apply (present_table _ _ k); auto.
    intros ->. apply Hg. reflexivity. }
  destruct Hd as (t & Hd).
  destruct (populate_table_spec s.1 s.2 p start end_ (S k) t Hwf Hd Hs He Hf)
    as (st' & aub' & P & Hrun & Happ).
  exists (aub', pl_allocator st'). split; [exact Hrun|].
  pose proof (appended_pml4 _ _ _ Happ) as Hp. simpl in Hp.
  pose proof (deref_wf _ _ _ _ Hwf Hd) as Hwt.
  assert (Hn : Z.of_nat (Z.to_nat (end_ - start + 1)) <= 512) by lia.
  destruct (plp_alloc _ _ _ _ _ P) as [Pa Pn]; simpl; [lia | lia |].
  simpl in Pa.
  pose proof (plp_len _ _ _ _ _ P) as Hlen'.
  pose proof (wf_subs_length _ _ Hwt) as Hlent.
  split; [|split; [|split]].
  - unfold st_ok. cbn [fst snd]. split.
    + rewrite Hp, <- Hlen. apply store_wf; auto.
      split; [exact Hlen'|].
      apply Forall_lookup_2. intros i x Hx.
      assert (Hi : (i < 512)%nat) by (apply lookup_lt_Some in Hx; lia).
      destruct (plp_new _ _ _ _ _ P (Z.of_nat i) ltac:(lia)) as [Pe | (a & Pe)];
        unfold slot in Pe; rewrite Nat2Z.id, Hx in Pe; simpl in Pe.
      * destruct Hwt as [_ Hall].
        destruct (subtables t !! i) as [e|] eqn:E.
        -- simpl in Pe. subst x. exact (Forall_lookup_1 _ _ _ _ Hall E).
        -- apply lookup_ge_None in E. lia.
      * subst x. apply new_slot_wf.
    + eapply appended_open; eauto.
  - intros idxs Hpr. cbn [fst snd]. rewrite Hp.
    apply store_present_mono; auto.
    intros j Hj.
    pose proof (plp_keep _ _ _ _ _ P (Z.of_nat j)) as Hk. simpl in Hk.
    unfold slot in Hk. rewrite Nat2Z.id in Hk. specialize (Hk Hj).
    destruct (subtables t !! j) as [e|] eqn:E; [|simpl in Hj; congruence].
    assert (j < 512)%nat by (apply lookup_lt_Some in E; lia).
    destruct (pl_subtables st' !! j) as [e'|] eqn:E'.
    + simpl in Hk. congruence.
    + apply lookup_ge_None in E'. lia.
  - cbn [fst snd]. lia.
  - intros j Hj. cbn [fst snd]. rewrite Hp.
    apply store_present_new; auto.
    apply (Pn j). lia.
Qed.




(** * Loops over writer states *)

Lemma for_each_pointwise {X S} (f g : X -> S -> outcome S) l s :
  (forall x s, f x s = g x s) -> for_each f l s = for_each g l s.
Proof.
  intros H. revert s. induction l as [|x l IH]; intros s; simpl; [reflexivity|].
  rewrite H. destruct (g x s); simpl; auto.
Qed.


Lemma for_each_ext {X} (body : X -> wstate -> outcome wstate) (K : Z)
      (G : wstate -> Prop) (Q : X -> wstate -> Prop) (l : list X) :
  0 <= K ->
  (forall s s', st_ext s s' -> G s -> G s') ->
  (forall x s s', st_ext s s' -> Q x s -> Q x s') ->
  (forall x s, x ∈ l -> st_ok s -> G s -> 0 < s.2 -> s.2 + K <= 2 ^ 52 ->
               exists s', body x s = Done s' /\ st_ok s' /\ st_ext s s'
                          /\ s.2 <= s'.2 <= s.2 + K /\ Q x s') ->
  forall s, st_ok s -> G s -> 0 < s.2 -> s.2 + K * Z.of_nat (length l) <= 2 ^ 52 ->
            exists s', for_each body l s = Done s' /\ st_ok s' /\ st_ext s s'
                       /\ s.2 <= s'.2 <= s.2 + K * Z.of_nat (length l)
                       /\ forall x, x ∈ l -> Q x s'.
Proof.
  intros HK HG HQ. induction l as [|x l IH]; intros Hbody s Hok Hg Ha Hb.
  - exists s. simpl. split; [reflexivity|]. split; [exact Hok|].
    split; [apply st_ext_refl|]. split; [lia|].
    intros x Hx. inversion Hx.
  - simpl length in Hb. rewrite Nat2Z.inj_succ in Hb.
    destruct (Hbody x s) as (s1 & E1 & Hok1 & Hext1 & Hal1 & Hq1); auto; try lia.
    { left. }
    destruct (IH (fun y s Hy => Hbody y s (proj2 (elem_of_cons _ _ _) (or_intror Hy))) s1)
      as (s2 & E2 & Hok2 & Hext2 & Hal2 & Hq2); auto; try lia.
    { eapply HG; eauto. }
    exists s2. simpl. rewrite E1. simpl.
    split; [exact E2|]. split; [exact Hok2|].
    split; [eapply st_ext_trans; eauto|].
    split; [rewrite Nat2Z.inj_succ; lia|].
    intros y Hy. apply elem_of_cons in Hy as [-> | Hy].
    + eapply HQ; eauto.
    + apply Hq2, Hy.
Qed.

(** * [aub_map_ppgtt] *)

Lemma bind_pointwise {A B} (m : outcome A) (f g : A -> outcome B) :
  (forall a, f a = g a) -> m ≫= f = m ≫= g.
Proof. intros H. destruct m; simpl; auto. Qed.

Lemma aub_map_ppgtt_unfold aub allocator start size :
  aub_map_ppgtt aub allocator start size =
  let last := wrap64 (start + size - 1) in
  let l4_start := Z.land start 0xff8000000000 in
  let l4_end := Z.land (Z.lor last 0x007fffffffff) 0xffffffffffff in
  s ← populate_ppgtt_table aub allocator [] (L4_index l4_start) (L4_index l4_end) 4;
  for_each (map_l3 start last) (for_values l4_start l4_end (2 ^ 39)) s.
Proof.
  unfold aub_map_ppgtt. cbv zeta.
  apply bind_pointwise. intros s.
  apply for_each_pointwise. intros l4 [a1 al1].
  unfold map_l3. cbv zeta. cbn [fst snd].
  apply bind_pointwise. intros s1.
  apply for_each_pointwise. intros l3 [a2 al2].
  unfold map_l2. cbv zeta. cbn [fst snd].
  apply bind_pointwise. intros s2.
  apply for_each_pointwise. intros l2 [a3 al3].
  reflexivity.
Qed.

Ltac arith :=
  rewrite ?L4_index_div, ?L3_index_div, ?L2_index_div, ?L1_index_div,
          ?mask39, ?mask30, ?mask21, ?mask12, ?fill39, ?fill30, ?fill21, ?fill12 in *;
  change (2 ^ 12) with 4096 in *;
  change (2 ^ 21) with 2097152 in *;
  change (2 ^ 30) with 1073741824 in *;
  change (2 ^ 39) with 549755813888 in *;
  change (2 ^ 48) with 281474976710656 in *;
  Z.div_mod_to_equations; lia.

Lemma index_range_4 x : 0 <= L4_index x < 512.
Proof. arith. Qed.

Lemma index_range_3 x : 0 <= L3_index x < 512.
Proof. arith. Qed.

Lemma index_range_2 x : 0 <= L2_index x < 512.
Proof. arith. Qed.

Lemma index_range_1 x : 0 <= L1_index x < 512.
Proof. arith. Qed.

Lemma same_block_21 a b :
  a / 2 ^ 21 = b / 2 ^ 21 -> L1_table a = L1_table b.
Proof.
  intros H. unfold L1_table.
  assert (L4_index a = L4_index b) as -> by arith.
  assert (L3_index a = L3_index b) as -> by arith.
  assert (L2_index a = L2_index b) as -> by arith.
  reflexivity.
Qed.

Lemma same_block_30 a b :
  a / 2 ^ 30 = b / 2 ^ 30 -> L2_table a = L2_table b.
Proof.
  intros H. unfold L2_table.
  assert (L4_index a = L4_index b) as -> by arith.
  assert (L3_index a = L3_index b) as -> by arith.
  reflexivity.
Qed.

Lemma same_block_39 a b :
  a / 2 ^ 39 = b / 2 ^ 39 -> L3_table a = L3_table b.
Proof.
  intros H. unfold L3_table.
  assert (L4_index a = L4_index b) as -> by arith.
  reflexivity.
Qed.

Section IndexRange.

Variables start last : Z.

Hypothesis range : 0 <= start <= last /\ last < 2 ^ 48.


Lemma l1_cover l2 a :
  l2 mod 2 ^ 21 = 0 -> start <= a <= last -> a / 2 ^ 21 = l2 / 2 ^ 21 ->
  L1_index (Z.max l2 (Z.land start 0xfffffffff000)) <= L1_index a
  <= L1_index (Z.min (l2 + 2 ^ 21 - 1)
                     (Z.land (Z.lor last 0x000000000fff) 0xffffffffffff)).
Proof. intros H1 H2 H3. arith. Qed.


Lemma l2_values l3 l2 :
  l3 mod 2 ^ 30 = 0 -> start / 2 ^ 30 <= l3 / 2 ^ 30 <= last / 2 ^ 30 ->
  l2 ∈ for_values (Z.max l3 (Z.land start 0xffffffe00000))
                  (Z.min (l3 + 2 ^ 30 - 1)
                         (Z.land (Z.lor last 0x0000001fffff) 0xffffffffffff))
                  (2 ^ 21) ->
  l2 mod 2 ^ 21 = 0 /\ start / 2 ^ 21 <= l2 / 2 ^ 21 <= last / 2 ^ 21
  /\ l2 / 2 ^ 30 = l3 / 2 ^ 30
  /\ L2_index (Z.max l3 (Z.land start 0xffffffe00000)) <= L2_index l2
     <= L2_index (Z.min (l3 + 2 ^ 30 - 1)
                        (Z.land (Z.lor last 0x0000001fffff) 0xffffffffffff)).
Proof.
  intros H1 H2 H3. apply for_values_spec in H3; [|lia]. destruct H3 as [H3 H4].
  arith.
Qed.

Lemma l2_cover l3 a :
  l3 mod 2 ^ 30 = 0 -> start <= a <= last -> a / 2 ^ 30 = l3 / 2 ^ 30 ->
  a / 2 ^ 21 * 2 ^ 21
    ∈ for_values (Z.max l3 (Z.land start 0xffffffe00000))
                 (Z.min (l3 + 2 ^ 30 - 1)
                        (Z.land (Z.lor last 0x0000001fffff) 0xffffffffffff))
                 (2 ^ 21)
  /\ a / 2 ^ 21 = (a / 2 ^ 21 * 2 ^ 21) / 2 ^ 21.
Proof.
  intros H1 H2 H3. rewrite for_values_spec by lia. arith.
Qed.

Lemma l2_count l3 :
  Z.of_nat (length (for_values (Z.max l3 (Z.land start 0xffffffe00000))
                  (Z.min (l3 + 2 ^ 30 - 1)
                         (Z.land (Z.lor last 0x0000001fffff) 0xffffffffffff))
                  (2 ^ 21))) <= 512.
Proof. apply for_values_length; [lia | lia |]. arith. Qed.


Lemma l3_values l4 l3 :
  l4 mod 2 ^ 39 = 0 -> start / 2 ^ 39 <= l4 / 2 ^ 39 <= last / 2 ^ 39 ->
  l3 ∈ for_values (Z.max l4 (Z.land start 0xffffc0000000))
                  (Z.min (l4 + 2 ^ 39 - 1)
                         (Z.land (Z.lor last 0x00003fffffff) 0xffffffffffff))
                  (2 ^ 30) ->
  l3 mod 2 ^ 30 = 0 /\ start / 2 ^ 30 <= l3 / 2 ^ 30 <= last / 2 ^ 30
  /\ l3 / 2 ^ 39 = l4 / 2 ^ 39
  /\ L3_index (Z.max l4 (Z.land start 0xffffc0000000)) <= L3_index l3
     <= L3_index (Z.min (l4 + 2 ^ 39 - 1)
                        (Z.land (Z.lor last 0x00003fffffff) 0xffffffffffff)).
Proof.
  intros H1 H2 H3. apply for_values_spec in H3; [|lia]. destruct H3 as [H3 H4].
  arith.
Qed.

Lemma l3_cover l4 a :
  l4 mod 2 ^ 39 = 0 -> start <= a <= last -> a / 2 ^ 39 = l4 / 2 ^ 39 ->
  a / 2 ^ 30 * 2 ^ 30
    ∈ for_values (Z.max l4 (Z.land start 0xffffc0000000))
                 (Z.min (l4 + 2 ^ 39 - 1)
                        (Z.land (Z.lor last 0x00003fffffff) 0xffffffffffff))
                 (2 ^ 30)
  /\ a / 2 ^ 30 = (a / 2 ^ 30 * 2 ^ 30) / 2 ^ 30.
Proof.
  intros H1 H2 H3. rewrite for_values_spec by lia. arith.
Qed.

Lemma l3_count l4 :
  Z.of_nat (length (for_values (Z.max l4 (Z.land start 0xffffc0000000))
                  (Z.min (l4 + 2 ^ 39 - 1)
                         (Z.land (Z.lor last 0x00003fffffff) 0xffffffffffff))
                  (2 ^ 30))) <= 512.
Proof. apply for_values_length; [lia | lia |]. arith. Qed.


Lemma l4_values l4 :
  l4 ∈ for_values (Z.land start 0xff8000000000)
                  (Z.land (Z.lor last 0x007fffffffff) 0xffffffffffff)
                  (2 ^ 39) ->
  l4 mod 2 ^ 39 = 0 /\ start / 2 ^ 39 <= l4 / 2 ^ 39 <= last / 2 ^ 39
  /\ L4_index (Z.land start 0xff8000000000) <= L4_index l4
     <= L4_index (Z.land (Z.lor last 0x007fffffffff) 0xffffffffffff).
Proof.
  intros H3. apply for_values_spec in H3; [|lia]. destruct H3 as [H3 H4].
  arith.
Qed.

Lemma l4_cover a :
  start <= a <= last ->
  a / 2 ^ 39 * 2 ^ 39
    ∈ for_values (Z.land start 0xff8000000000)
                 (Z.land (Z.lor last 0x007fffffffff) 0xffffffffffff)
                 (2 ^ 39)
  /\ a / 2 ^ 39 = (a / 2 ^ 39 * 2 ^ 39) / 2 ^ 39.
Proof.
  intros H2. rewrite for_values_spec by lia. arith.
Qed.

Lemma l4_count :
  Z.of_nat (length (for_values (Z.land start 0xff8000000000)
                  (Z.land (Z.lor last 0x007fffffffff) 0xffffffffffff)
                  (2 ^ 39))) <= 512.
Proof. apply for_values_length; [lia | lia |]. arith. Qed.

End IndexRange.

Lemma mapped_ext s s' a : st_ext s s' -> mapped s a -> mapped s' a.
Proof. intros H. apply H. Qed.

Lemma L1_table_snoc a : L1_table a = L2_table a ++ [Z.to_nat (L2_index a)].
Proof. reflexivity. Qed.

Lemma L2_table_snoc a : L2_table a = L3_table a ++ [Z.to_nat (L3_index a)].
Proof. reflexivity. Qed.

Lemma L3_table_snoc a : L3_table a = [] ++ [Z.to_nat (L4_index a)].
Proof. reflexivity. Qed.




Lemma populate_ok_at (s : wstate) p start end_ level (k : nat) :
  level = Z.of_nat (S k) ->
  st_ok s -> (length p + S k = 4)%nat ->
  (p = [] \/ present (pml4 s.1) p) ->
  0 <= start < 512 -> 0 <= end_ < 512 ->
  0 < s.2 -> s.2 + 512 <= 2 ^ 52 ->
  exists s', populate_ppgtt_table s.1 s.2 p start end_ level = Done s'
             /\ st_ok s' /\ st_ext s s' /\ s.2 <= s'.2 <= s.2 + 512
             /\ forall j, start <= j <= end_ -> present (pml4 s'.1) (p ++ [Z.to_nat j]).
Proof. intros -> ? ? ? ? [_ ?]. apply populate_ok; auto. Qed.


Ltac populate_args tac :=
  match goal with
  | |- context [populate_ppgtt_table _ _ ?p ?st ?en ?lv] => tac p st en lv
  end.

Section MapRange.

Variables start last : Z.

Hypothesis range : 0 <= start <= last /\ last < 2 ^ 48.

Local Abbreviation in_range a := (start <= a <= last).

Lemma map_l1_ok l2 (s : wstate) :
  st_ok s -> 0 < s.2 -> s.2 + K1 <= 2 ^ 52 ->
  l2 mod 2 ^ 21 = 0 -> start / 2 ^ 21 <= l2 / 2 ^ 21 <= last / 2 ^ 21 ->
  present (pml4 s.1) (L1_table l2) ->
  exists s', map_l1 start last l2 s = Done s' /\ st_ok s' /\ st_ext s s'
             /\ s.2 <= s'.2 <= s.2 + K1
             /\ forall a, in_range a -> a / 2 ^ 21 = l2 / 2 ^ 21 -> mapped s' a.
Proof.
  intros Hok Ha Hb H1 H2 Hg. unfold map_l1. cbv zeta.
  populate_args ltac:(fun p st en lv =>
    destruct (populate_ok_at s p st en lv 0%nat eq_refl Hok eq_refl (or_intror Hg)
                (index_range_1 _) (index_range_1 _) Ha ltac:(unfold K1 in *; lia))
      as (s' & E & Hok' & Hext & Hal & Hp)).
  exists s'. split; [exact E|]. split; [exact Hok'|]. split; [exact Hext|].
  split; [exact Hal|].
  intros a Ha1 Ha2. unfold mapped, page_path.
  rewrite (same_block_21 a l2 Ha2).
  apply Hp. apply (l1_cover start last range); auto.
Qed.


Lemma map_l2_ok l3 (s : wstate) :
  st_ok s -> 0 < s.2 -> s.2 + K2 <= 2 ^ 52 ->
  l3 mod 2 ^ 30 = 0 -> start / 2 ^ 30 <= l3 / 2 ^ 30 <= last / 2 ^ 30 ->
  present (pml4 s.1) (L2_table l3) ->
  exists s', map_l2 start last l3 s = Done s' /\ st_ok s' /\ st_ext s s'
             /\ s.2 <= s'.2 <= s.2 + K2
             /\ forall a, in_range a -> a / 2 ^ 30 = l3 / 2 ^ 30 -> mapped s' a.
Proof.
  intros Hok Ha Hb H1 H2 Hg. unfold map_l2. cbv zeta.
  unfold K2, K1 in *.
  populate_args ltac:(fun p st en lv =>
    destruct (populate_ok_at s p st en lv 1%nat eq_refl Hok eq_refl (or_intror Hg)
                (index_range_2 _) (index_range_2 _) Ha ltac:(unfold K1 in *; lia))
      as (s1 & E & Hok1 & Hext1 & Hal1 & Hp)).
  rewrite E. change (Done s1 ≫= ?k) with (k s1). cbv beta.
  pose proof (l2_count start last l3) as Hcount.
  destruct (for_each_ext (map_l1 start last) 512
              (fun s => st_ext s1 s)
              (fun l2 s' => forall a, in_range a -> a / 2 ^ 21 = l2 / 2 ^ 21 -> mapped s' a)
              (for_values (Z.max l3 (Z.land start 0xffffffe00000))
                          (Z.min (l3 + 2 ^ 30 - 1)
                                 (Z.land (Z.lor last 0x0000001fffff) 0xffffffffffff))
                          (2 ^ 21)))
    with (s := s1) as (s2 & E2 & Hok2 & Hext2 & Hal2 & Hq); auto using st_ext_refl; try lia.
  - intros sa sb Hab H. eapply st_ext_trans; eauto.
  - intros l2 sa sb Hab Hq a Hr He. eapply mapped_ext; eauto.
  - intros l2 sa Hin Hoka Hga Haa Hba.
    destruct (l2_values start last range l3 l2 H1 H2 Hin) as (V1 & V2 & V3 & V4).
    apply map_l1_ok; auto.
    apply Hga. rewrite L1_table_snoc, (same_block_30 _ _ V3). apply Hp, V4.
  - exists s2. split; [exact E2|]. split; [exact Hok2|].
    split; [eapply st_ext_trans; eauto|]. split; [lia|].
    intros a Hr He.
    destruct (l2_cover start last range l3 a H1 Hr He) as [Hin Hdiv].
    apply (Hq _ Hin a Hr Hdiv).
Qed.


Lemma map_l3_ok l4 (s : wstate) :
  st_ok s -> 0 < s.2 -> s.2 + K3 <= 2 ^ 52 ->
  l4 mod 2 ^ 39 = 0 -> start / 2 ^ 39 <= l4 / 2 ^ 39 <= last / 2 ^ 39 ->
  present (pml4 s.1) (L3_table l4) ->
  exists s', map_l3 start last l4 s = Done s' /\ st_ok s' /\ st_ext s s'
             /\ s.2 <= s'.2 <= s.2 + K3
             /\ forall a, in_range a -> a / 2 ^ 39 = l4 / 2 ^ 39 -> mapped s' a.
Proof.
  intros Hok Ha Hb H1 H2 Hg. unfold map_l3. cbv zeta.
  unfold K3 in *. assert (HK2 : 0 <= K2) by (unfold K2, K1; lia).
  populate_args ltac:(fun p st en lv =>
    destruct (populate_ok_at s p st en lv 2%nat eq_refl Hok eq_refl (or_intror Hg)
                (index_range_3 _) (index_range_3 _) Ha ltac:(unfold K1 in *; lia))
      as (s1 & E & Hok1 & Hext1 & Hal1 & Hp)).
  rewrite E. change (Done s1 ≫= ?k) with (k s1). cbv beta.
  pose proof (l3_count start last l4) as Hcount.
  destruct (for_each_ext (map_l2 start last) K2
              (fun s => st_ext s1 s)
              (fun l3 s' => forall a, in_range a -> a / 2 ^ 30 = l3 / 2 ^ 30 -> mapped s' a)
              (for_values (Z.max l4 (Z.land start 0xffffc0000000))
                          (Z.min (l4 + 2 ^ 39 - 1)
                                 (Z.land (Z.lor last 0x00003fffffff) 0xffffffffffff))
                          (2 ^ 30)))
    with (s := s1) as (s2 & E2 & Hok2 & Hext2 & Hal2 & Hq); auto using st_ext_refl; try nia.
  - intros sa sb Hab H. eapply st_ext_trans; eauto.
  - intros l3 sa sb Hab Hq a Hr He. eapply mapped_ext; eauto.
  - intros l3 sa Hin Hoka Hga Haa Hba.
    destruct (l3_values start last range l4 l3 H1 H2 Hin) as (V1 & V2 & V3 & V4).
    apply map_l2_ok; auto.
    apply Hga. rewrite L2_table_snoc, (same_block_39 _ _ V3). apply Hp, V4.
  - exists s2. split; [exact E2|]. split; [exact Hok2|].
    split; [eapply st_ext_trans; eauto|]. split; [nia|].
    intros a Hr He.
    destruct (l3_cover start last range l4 a H1 Hr He) as [Hin Hdiv].
    apply (Hq _ Hin a Hr Hdiv).
Qed.


End MapRange.

Lemma valid_range_last start size :
  valid_range start size ->
  wrap64 (start + size - 1) = start + size - 1
  /\ 0 <= start <= start + size - 1 /\ start + size - 1 < 2 ^ 48.
Proof.
  intros (H1 & H2 & H3). unfold wrap64. rewrite Z.mod_small; lia.
Qed.

Lemma aub_map_ppgtt_ok (s : wstate) start size :
  st_ok s -> 0 < s.2 -> s.2 + K4 <= 2 ^ 52 ->
  valid_range start size ->
  exists s', aub_map_ppgtt s.1 s.2 start size = Done s' /\ st_ok s' /\ st_ext s s'
             /\ s.2 <= s'.2 <= s.2 + K4
             /\ forall a, start <= a < start + size -> mapped s' a.
Proof.
  intros Hok Ha Hb Hv.
  destruct (valid_range_last _ _ Hv) as (Hw & Hr1 & Hr2).
  assert (range : 0 <= start <= start + size - 1 /\ start + size - 1 < 2 ^ 48) by lia.
  rewrite aub_map_ppgtt_unfold. cbv zeta. rewrite Hw.
  set (last := start + size - 1) in *.
  unfold K4 in *. assert (HK3 : 0 <= K3) by (unfold K3, K2, K1; lia).
  populate_args ltac:(fun p st en lv =>
      destruct (populate_ok_at s p st en lv 3%nat eq_refl Hok eq_refl (or_introl eq_refl)
                  (index_range_4 _) (index_range_4 _) Ha ltac:(unfold K1 in *; lia))
        as (s1 & E & Hok1 & Hext1 & Hal1 & Hp)).
  rewrite E.
  change (Done s1 ≫= ?k) with (k s1). cbv beta.
  pose proof (l4_count start last) as Hcount.
  destruct (for_each_ext (map_l3 start last) K3
              (fun s => st_ext s1 s)
              (fun l4 s' => forall a, start <= a <= last -> a / 2 ^ 39 = l4 / 2 ^ 39 -> mapped s' a)
              (for_values (Z.land start 0xff8000000000)
                          (Z.land (Z.lor last 0x007fffffffff) 0xffffffffffff)
                          (2 ^ 39)))
    with (s := s1) as (s2 & E2 & Hok2 & Hext2 & Hal2 & Hq); auto using st_ext_refl; try nia.
  - intros sa sb Hab H. eapply st_ext_trans; eauto.
  - intros l4 sa sb Hab Hq a Hr He. eapply mapped_ext; eauto.
  - intros l4 sa Hin Hoka Hga Haa Hba.
    destruct (l4_values start last range l4 Hin) as (V1 & V2 & V4).
    apply map_l3_ok; auto.
    apply Hga. rewrite L3_table_snoc. apply Hp, V4.
  - exists s2. split; [exact E2|]. split; [exact Hok2|].
    split; [eapply st_ext_trans; eauto|]. split; [nia|].
    intros a Hr.
    destruct (l4_cover start last range a ltac:(lia)) as [Hin Hdiv].
    apply (Hq _ Hin a ltac:(lia) Hdiv).
Qed.


Lemma deref_store_same root p t t' :
  deref root p = Some t -> phys_addr t' = phys_addr t ->
  deref (store root p t') p = Some t'.
Proof.
  revert root. induction p as [|i p IH]; intros root H Hp; simpl in H |- *.
  - reflexivity.
  - destruct (subtables root !! i) as [[|a|a s]|] eqn:E; try discriminate.
    simpl. rewrite list_lookup_insert_eq by (apply lookup_lt_Some in E; exact E).
    replace (mk_table (phys_addr (store (mk_table a s) p t'))
                      (subtables (store (mk_table a s) p t')))
      with (store (mk_table a s) p t') by (destruct (store _ _ _); reflexivity).
    apply IH; assumption.
Qed.

(** ** C3 *)

(** C3, as stated, does not hold: page-table slot 1 of the root table is
    populated by a first call; a second call on the slots 0..2 then emits a
    record of three entries (24 bytes at the table's address) whose middle
    entry is the one of slot 1. *)
Lemma populate_rewrites_populated_slot :
  exists aub1 a1 aub2 a2,
    populate_ppgtt_table (fresh_aub 9) phys_addrs_allocator_init [] 1 1 4 = Done (aub1, a1)
    /\ populate_ppgtt_table aub1 a1 [] 0 2 4 = Done (aub2, a2)
    /\ slot (subtables (pml4 aub1)) 1 = TablePtr 0x1e000 calloc_table
    /\ stream_of aub2
       = stream_of aub1
         ++ memory_write_header PML4_PHYS_ADDR 24 AUB_MEM_TRACE_MEMORY_ADDRESS_SPACE_PHYSICAL
         ++ le_bytes 8 (Z.lor 3 0x1f000)
         ++ le_bytes 8 (Z.lor 3 0x1e000)
         ++ le_bytes 8 (Z.lor 3 0x20000).
Proof.
  do 4 eexists. split; [vm_compute; reflexivity|].
  split; [vm_compute; reflexivity|].
  split; vm_compute; reflexivity.
Qed.

(** C3, amended: one call of [populate_ppgtt_table] on a table emits no
    record when every slot of [start .. end_] was populated already, and
    otherwise exactly one memory-write record: its target is the table's
    address plus 8 times the lowest newly populated slot [ds], and its
    payload is the run of entries from [ds] to the highest newly populated
    slot [de], each the address held by the slot on return with the two flag
    bits set. Slots populated before keep their contents, and those lying
    between [ds] and [de] are part of the payload. *)
Theorem populate_emits_dirty_range aub allocator p start end_ (k : nat) t :
  wf_subs (length p + S k) (subtables (pml4 aub)) ->
  deref (pml4 aub) p = Some t ->
  0 <= start < 512 -> 0 <= end_ < 512 ->
  is_Some (file aub) ->
  exists aub' allocator' t',
    populate_ppgtt_table aub allocator p start end_ (Z.of_nat (S k))
    = Done (aub', allocator')
    /\ deref (pml4 aub') p = Some t'
    /\ (forall j, slot (subtables t) j <> NULL ->
                  slot (subtables t') j = slot (subtables t) j)
    /\ (((forall j, start <= j <= end_ -> slot (subtables t) j <> NULL)
         /\ stream_of aub' = stream_of aub)
        \/ exists ds de,
             start <= ds /\ ds <= de /\ de <= end_
             /\ slot (subtables t) ds = NULL /\ slot (subtables t) de = NULL
             /\ (forall j, start <= j <= end_ -> slot (subtables t) j = NULL ->
                           ds <= j <= de)
             /\ stream_of aub'
                = stream_of aub ++ dirty_record (phys_addr t) (subtables t') ds de).
Proof.
  intros Hwf Hd Hs He Hf.
  destruct (populate_table_spec aub allocator p start end_ (S k) t Hwf Hd Hs (proj2 He) Hf)
    as (st' & aub' & P & Hrun & Happ).
  exists aub', (pl_allocator st'), (mk_table (phys_addr t) (pl_subtables st')).
  split; [exact Hrun|].
  split.
  { rewrite (appended_pml4 _ _ _ Happ). simpl. apply (deref_store_same _ _ t); auto. }
  split.
  { intros j Hj. apply (plp_keep _ _ _ _ _ P j Hj). }
  pose proof (appended_stream _ _ _ Happ) as Hst.
  change (stream_of (set_pml4 aub _)) with (stream_of aub) in Hst.
  pose proof (plp_ds _ _ _ _ _ P) as Hds. pose proof (plp_de _ _ _ _ _ P) as Hde.
  pose proof (plp_cover _ _ _ _ _ P) as Hcov.
  simpl in Hds, Hde, Hcov.
  destruct (Z.leb_spec (dirty_start st') (dirty_end st')) as [Hle | Hgt].
  - right. exists (dirty_start st'), (dirty_end st').
    assert (Hds' : start <= dirty_start st' <= end_
                   /\ slot (subtables t) (dirty_start st') = NULL).
    { destruct Hds as [Hds | Hds]; [|split; [lia | tauto]].
      destruct Hde as [Hde | Hde]; lia. }
    assert (Hde' : start <= dirty_end st' <= end_
                   /\ slot (subtables t) (dirty_end st') = NULL).
    { destruct Hde as [Hde | Hde]; [|split; [lia | tauto]].
      replace (dirty_end st') with (dirty_start st') by lia. exact Hds'. }
    repeat split; try tauto; try lia.
    + apply Hcov; auto. lia.
    + apply Hcov; auto. lia.
  - left. split; [|rewrite Hst; apply app_nil_r].
    intros j Hj Hnull. specialize (Hcov j ltac:(lia) Hnull). lia.
Qed.

Lemma populate_emits_dirty_range_witness :
  exists aub' allocator' t',
    populate_ppgtt_table (fresh_aub 9) phys_addrs_allocator_init [] 0 2 (Z.of_nat 4)
    = Done (aub', allocator')
    /\ deref (pml4 aub') [] = Some t'.
Proof.
  destruct (populate_emits_dirty_range (fresh_aub 9) phys_addrs_allocator_init [] 0 2 3
              (pml4 (fresh_aub 9)))
    as (aub' & al' & t' & H1 & H2 & _).
  - apply wf_calloc.
  - reflexivity.
  - lia.
  - lia.
  - eexists; reflexivity.
  - exists aub', al', t'. split; assumption.
Defined.

(** ** C4 *)



(** * [aub_write_trace_block] *)

Lemma for_values_cons lo hi step :
  0 < step -> lo < hi ->
  for_values lo hi step = lo :: for_values (lo + step) hi step.
Proof.
  intros Hs Hlt. unfold for_values.
  replace (lo <? hi) with true by lia.
  assert (Hq : 0 <= (hi - 1 - lo) / step) by (apply Z.div_pos; lia).
  rewrite seqZ_cons by lia. simpl fmap. f_equal; [lia|].
  destruct (Z.ltb_spec (lo + step) hi) as [H1 | H1].
  - replace (Z.pred ((hi - 1 - lo) / step + 1)) with ((hi - 1 - (lo + step)) / step + 1).
    2:{ replace (hi - 1 - lo) with ((hi - 1 - (lo + step)) + 1 * step) by lia.
        rewrite Z.div_add by lia. lia. }
    change (Z.succ 0) with 1.
    rewrite (eq_sym (fmap_add_seqZ 1 0 _) : seqZ 1 _ = _), <- list_fmap_compose.
    apply list_fmap_ext. intros _ k _. simpl. lia.
  - replace ((hi - 1 - lo) / step) with 0.
    + reflexivity.
    + symmetry. apply Z.div_small. lia.
Qed.

Lemma for_values_nil lo hi step : hi <= lo -> for_values lo hi step = [].
Proof. intros H. unfold for_values. replace (lo <? hi) with false by lia. reflexivity. Qed.

Lemma ppgtt_lookup_appended a b a' x :
  appended a b a' -> ppgtt_lookup a' x = ppgtt_lookup a x.
Proof. intros H. unfold ppgtt_lookup. rewrite (appended_pml4 _ _ _ H). reflexivity. Qed.

Lemma block_record_appended a b a' type virtual size gtt_offset offset :
  appended a b a' ->
  block_record a' type virtual size gtt_offset offset
  = block_record a type virtual size gtt_offset offset.
Proof.
  intros H. unfold block_record, chunk_limit, aub_use_execlists, translated, trace_block_header.
  rewrite (ppgtt_lookup_appended _ _ _ _ H), (appended_devinfo _ _ _ H),
          (appended_addr_bits _ _ _ H).
  reflexivity.
Qed.

Lemma trace_block_header_appended aub type addr block_size :
  is_Some (file aub) ->
  exists aub',
    (aub ← dword_out aub (Z.lor CMD_AUB_TRACE_HEADER_BLOCK
                                ((if 32 <? addr_bits aub then 6 else 5) - 2));
     aub ← dword_out aub (Z.lor (Z.lor AUB_TRACE_MEMTYPE_GTT type)
                                AUB_TRACE_OP_DATA_WRITE);
     aub ← dword_out aub 0;
     aub ← dword_out aub addr;
     aub ← dword_out aub (align_u32 block_size 4);
     aub ← (if 32 <? addr_bits aub
            then dword_out aub (Z.shiftr addr 32)
            else Done aub);
     Done (aub, block_size)) = Done (aub', block_size)
    /\ appended aub (trace_block_header aub type addr block_size) aub'.
Proof.
  intros H0. unfold trace_block_header.
  pose proof (dword_out_appended aub
    (Z.lor CMD_AUB_TRACE_HEADER_BLOCK ((if 32 <? addr_bits aub then 6 else 5) - 2)) H0) as H1.
  step_out H1.
  pose proof (dword_out_appended aub0
    (Z.lor (Z.lor AUB_TRACE_MEMTYPE_GTT type) AUB_TRACE_OP_DATA_WRITE)
    (appended_open _ _ _ A)) as H2.
  step_out H2.
  pose proof (dword_out_appended aub1 0 (appended_open _ _ _ A0)) as H3.
  step_out H3.
  pose proof (dword_out_appended aub2 addr (appended_open _ _ _ A1)) as H4.
  step_out H4.
  pose proof (dword_out_appended aub3 (align_u32 block_size 4) (appended_open _ _ _ A2)) as H5.
  step_out H5.
  assert (Hb : addr_bits aub4 = addr_bits aub).
  { rewrite (appended_addr_bits _ _ _ A3), (appended_addr_bits _ _ _ A2),
            (appended_addr_bits _ _ _ A1), (appended_addr_bits _ _ _ A0),
            (appended_addr_bits _ _ _ A). reflexivity. }
  rewrite Hb.
  destruct (32 <? addr_bits aub).
  - pose proof (dword_out_appended aub4 (Z.shiftr addr 32) (appended_open _ _ _ A3)) as H6.
    step_out H6. exists aub5. split; [reflexivity|].
    eauto 10 using appended_app.
  - exists aub4. split; [reflexivity|].
    rewrite app_nil_r. eauto 10 using appended_app.
Qed.

Lemma aub_write_trace_block_loop_spec type virtual size gtt_offset :
  0 <= size < 2 ^ 32 ->
  forall (fuel : nat) aub offset,
    is_Some (file aub) ->
    0 <= offset ->
    size - offset <= Z.of_nat fuel * chunk_limit aub ->
    (aub_use_execlists aub = true ->
     forall off, off ∈ for_values offset size (chunk_limit aub) ->
                 exists p, ppgtt_lookup aub (wrap64 (gtt_offset + off)) = Done p) ->
    exists aub',
      aub_write_trace_block_loop fuel aub type virtual size gtt_offset offset
      = Some (Done aub')
      /\ appended aub
                  (concat (block_record aub type virtual size gtt_offset
                             <$> for_values offset size (chunk_limit aub)))
                  aub'.
Proof.
  intros Hsize fuel. induction fuel as [|fuel IH]; intros aub offset Hf Ho Hfuel Hlk.
  - assert (size <= offset) by lia. clear Hsize.
    simpl. replace (offset <? size) with false by lia. simpl.
    rewrite for_values_nil by lia.
    exists aub. split; [reflexivity | apply appended_nil; exact Hf].
  - destruct (Z.ltb_spec offset size) as [Hlt | Hge].
    2:{ simpl. replace (offset <? size) with false by lia. simpl.
        rewrite for_values_nil by lia.
        exists aub. split; [reflexivity | apply appended_nil; exact Hf]. }
    assert (Hlim : 0 < chunk_limit aub <= 8 * 4096).
    { unfold chunk_limit. destruct (aub_use_execlists aub); lia. }
    rewrite for_values_cons by lia.
    cbn [aub_write_trace_block_loop].
    replace (offset <? size) with true by lia. cbn [negb].
    assert (Hw : wrap32 (size - offset) = size - offset).
    { unfold wrap32. apply Z.mod_small. lia. }
    rewrite Hw.
    set (bs := Z.min (chunk_limit aub) (size - offset)).
    assert (Hbs : 0 < bs <= chunk_limit aub) by (unfold bs; lia).
    (* the header of the block *)
    match goal with
    | |- context [match ?h with Done _ => _ | Trap _ => _ | Crash => _ | Hang => _ end] =>
      assert (Hhead : exists aub1,
        h = Done (aub1, bs)
        /\ appended aub
             (if aub_use_execlists aub
              then memory_write_header (translated aub (wrap64 (gtt_offset + offset))) bs
                                       AUB_MEM_TRACE_MEMORY_ADDRESS_SPACE_PHYSICAL
              else trace_block_header aub type (wrap64 (gtt_offset + offset)) bs)
             aub1)
    end.
    { clear IH. unfold bs, chunk_limit in *. destruct (aub_use_execlists aub) eqn:Hex.
      - destruct (Hlk eq_refl offset) as (p & Hp).
        { rewrite for_values_cons by lia. left. }
        cbv zeta. rewrite Hp. change (Done p ≫= ?k) with (k p). cbv beta.
        replace (Z.min 4096 (Z.min (8 * 4096) (size - offset)))
          with (Z.min 4096 (size - offset)) by lia.
        pose proof (mem_trace_memory_write_header_out_appended aub p
                      (Z.min 4096 (size - offset))
                      AUB_MEM_TRACE_MEMORY_ADDRESS_SPACE_PHYSICAL Hf) as H1.
        step_out H1. exists aub0. split; [reflexivity|].
        unfold translated. rewrite Hp. exact A.
      - replace (Z.min (8 * 4096) (size - offset)) with bs by reflexivity.
        apply (trace_block_header_appended aub type (wrap64 (gtt_offset + offset)) bs Hf). }
    destruct Hhead as (aub1 & Ehead & Ahead).
    rewrite Ehead.
    (* payload and padding *)
    match goal with
    | |- context [match ?h with Done _ => _ | Trap _ => _ | Crash => _ | Hang => _ end] =>
      assert (Hpay : exists aub2,
        h = Done aub2
        /\ appended aub1 (block_data virtual offset bs ++ padding bs) aub2)
    end.
    { unfold block_data, padding.
      destruct virtual as [data|].
      - pose proof (data_out_appended aub1 (slice data offset bs)
                      (appended_open _ _ _ Ahead)) as H1.
        step_out H1.
        pose proof (data_out_appended aub0
                      (slice null_block 0 (Z.land (wrap32 (- bs)) 3))
                      (appended_open _ _ _ A)) as H2.
        destruct H2 as (aub2 & E2 & A2). exists aub2. split; [exact E2|].
        eauto using appended_app.
      - pose proof (data_out_appended aub1 (slice null_block 0 bs)
                      (appended_open _ _ _ Ahead)) as H1.
        step_out H1.
        pose proof (data_out_appended aub0
                      (slice null_block 0 (Z.land (wrap32 (- bs)) 3))
                      (appended_open _ _ _ A)) as H2.
        destruct H2 as (aub2 & E2 & A2). exists aub2. split; [exact E2|].
        eauto using appended_app. }
    destruct Hpay as (aub2 & Epay & Apay).
    rewrite Epay.
    pose proof (appended_app _ _ _ _ _ Ahead Apay) as A12.
    assert (Hw2 : wrap32 (offset + bs) = offset + bs).
    { unfold wrap32. apply Z.mod_small. lia. }
    rewrite Hw2.
    assert (Hcl : chunk_limit aub2 = chunk_limit aub).
    { unfold chunk_limit, aub_use_execlists.
      rewrite (appended_devinfo _ _ _ A12). reflexivity. }
    assert (Hrest : for_values (offset + chunk_limit aub) size (chunk_limit aub)
                    = for_values (offset + bs) size (chunk_limit aub)).
    { unfold bs. destruct (Z.min_spec (chunk_limit aub) (size - offset)) as [[? ->]|[? ->]].
      - reflexivity.
      - rewrite !for_values_nil by lia. reflexivity. }
    destruct (IH aub2 (offset + bs)) as (aub3 & E3 & A3).
    + eapply appended_open; eauto.
    + lia.
    + rewrite Hcl. unfold bs.
      destruct (Z.min_spec (chunk_limit aub) (size - offset)) as [[? ->]|[? ->]]; lia.
    + intros Hex off Hoff. rewrite Hcl in Hoff.
      rewrite (ppgtt_lookup_appended _ _ _ _ A12).
      apply Hlk.
      * unfold aub_use_execlists in *. rewrite <- (appended_devinfo _ _ _ A12). exact Hex.
      * rewrite for_values_cons by lia. right. rewrite Hrest. exact Hoff.
    + exists aub3. split; [exact E3|].
      simpl fmap. simpl concat.
      rewrite Hcl in A3. rewrite Hrest.
      rewrite (list_fmap_ext (block_record aub2 type virtual size gtt_offset)
                             (block_record aub type virtual size gtt_offset)) in A3
        by (intros _ o _; apply (block_record_appended _ _ _ _ _ _ _ _ A12)).
      eapply appended_app; [|exact A3].
      unfold block_record. fold bs. exact A12.
Qed.

Lemma length_slice_null k :
  0 <= k <= 8 * 4096 -> Z.of_nat (length (slice null_block 0 k)) = k.
Proof.
  intros H. unfold slice, null_block. rewrite length_take, length_drop, length_replicate.
  lia.
Qed.

Lemma padding_length bs :
  0 <= bs -> (bs + Z.of_nat (length (padding bs))) mod 4 = 0.
Proof.
  intros H. unfold padding.
  change 3 with (Z.ones 2). rewrite Z.land_ones by lia.
  assert (0 <= wrap32 (- bs) mod 2 ^ 2 < 4) by (apply Z.mod_pos_bound; lia).
  rewrite length_slice_null by lia.
  unfold wrap32. change (2 ^ 2) with 4. change (2 ^ 32) with (4 * 1073741824).
  rewrite Z.rem_mul_r by lia.
  rewrite Z.mul_comm, Z.mod_add by lia. rewrite Z.mod_mod by lia.
  rewrite Z.add_mod_idemp_r by lia.
  replace (bs + - bs) with 0 by lia. reflexivity.
Qed.

Ltac dword_of k D :=
  match goal with
  | |- context [concat (dword_bytes <$> ?vs) ++ ?tail] =>
    pose proof (dwords_lookup vs tail k _ eq_refl) as D;
    let z := eval compute in (Z.of_nat k) in change (Z.of_nat k) with z in D
  end.

Lemma block_record_target aub type virtual size gtt_offset off :
  record_target aub (block_record aub type virtual size gtt_offset off)
  = if aub_use_execlists aub
    then wrap64 (translated aub (wrap64 (gtt_offset + off)))
    else (gtt_offset + off) mod 2 ^ target_bits aub.
Proof.
  unfold record_target, block_record, target_bits. cbv zeta.
  destruct (aub_use_execlists aub).
  - set (a := translated aub _). set (bs := Z.min _ _).
    assert (H : forall tail,
               memory_write_header a bs AUB_MEM_TRACE_MEMORY_ADDRESS_SPACE_PHYSICAL ++ tail
               = concat (dword_bytes <$>
                   [Z.lor CMD_MEM_TRACE_MEMORY_WRITE (wrap32 (5 + wrap32 (ALIGN bs 4 / 4) - 1));
                    Z.land a 0xFFFFFFFF; Z.shiftr a 32;
                    AUB_MEM_TRACE_MEMORY_ADDRESS_SPACE_PHYSICAL; bs]) ++ tail).
    { intros tail. unfold memory_write_header. cbn [fmap list_fmap concat].
      rewrite app_nil_r. reflexivity. }
    rewrite H.
    dword_of 1%nat D1. dword_of 2%nat D2. rewrite D1, D2.
    rewrite !le_value_dword_bytes.
    change 0xFFFFFFFF with (Z.ones 32). rewrite Z.land_ones by lia.
    rewrite Z.shiftr_div_pow2 by lia. unfold wrap32, wrap64.
    rewrite Z.mod_mod by lia.
    change (2 ^ 64) with (2 ^ 32 * 2 ^ 32). rewrite Z.rem_mul_r by lia. reflexivity.
  - set (a := wrap64 (gtt_offset + off)). set (bs := Z.min _ _).
    assert (Ha : 0 <= a < 2 ^ 64) by (apply Z.mod_pos_bound; lia).
    destruct (32 <? addr_bits aub) eqn:Hw.
    + assert (H : forall tail,
                 trace_block_header aub type a bs ++ tail
                 = concat (dword_bytes <$>
                     [Z.lor CMD_AUB_TRACE_HEADER_BLOCK (6 - 2);
                      Z.lor (Z.lor AUB_TRACE_MEMTYPE_GTT type) AUB_TRACE_OP_DATA_WRITE;
                      0; a; align_u32 bs 4; Z.shiftr a 32]) ++ tail).
      { intros tail. unfold trace_block_header. rewrite Hw. cbn [fmap list_fmap concat].
        rewrite app_nil_r, <- !app_assoc. reflexivity. }
      rewrite H.
      dword_of 3%nat D3. dword_of 5%nat D5. rewrite D3, D5.
      rewrite !le_value_dword_bytes.
      change ((gtt_offset + off) mod 2 ^ 64) with a.
      rewrite Z.shiftr_div_pow2 by lia. unfold wrap32.
      assert (0 <= a / 2 ^ 32 < 2 ^ 32)
        by (split; [apply Z.div_pos; lia | apply Z.div_lt_upper_bound; lia]).
      rewrite (Z.mod_small (a / 2 ^ 32)) by lia.
      pose proof (Z.div_mod a (2 ^ 32) ltac:(lia)). lia.
    + assert (H : forall tail,
                 trace_block_header aub type a bs ++ tail
                 = concat (dword_bytes <$>
                     [Z.lor CMD_AUB_TRACE_HEADER_BLOCK (5 - 2);
                      Z.lor (Z.lor AUB_TRACE_MEMTYPE_GTT type) AUB_TRACE_OP_DATA_WRITE;
                      0; a; align_u32 bs 4]) ++ tail).
      { intros tail. unfold trace_block_header. rewrite Hw. cbn [fmap list_fmap concat].
        rewrite !app_nil_r, <- !app_assoc. reflexivity. }
      rewrite H. dword_of 3%nat D3. rewrite D3, le_value_dword_bytes.
      unfold a, wrap32, wrap64.
      apply Z.mod_mod_divide. exists (2 ^ 32). reflexivity.
Qed.

(** ** C8 *)

(** C8, as stated, does not hold in the paged dialect: the two records of
    a write of 4096 + 100 bytes at virtual address 0x1000 go to the
    physical pages 0x22000 and then 0x21000. *)
Lemma paged_blocks_not_contiguous :
  let data := replicate 4096 1 ++ replicate 100 2 in
  exists aub',
    aub_write_trace_block remapped_aub AUB_TRACE_TYPE_NOTYPE (Some data) (4096 + 100) 0x1000
    = Some (Done aub')
    /\ stream_of aub'
       = memory_write_header 0x22000 4096 AUB_MEM_TRACE_MEMORY_ADDRESS_SPACE_PHYSICAL
         ++ replicate 4096 1
         ++ memory_write_header 0x21000 100 AUB_MEM_TRACE_MEMORY_ADDRESS_SPACE_PHYSICAL
         ++ replicate 100 2.
Proof.
  eexists. split; vm_compute; reflexivity.
Qed.

(** C8 fails in the legacy dialect too where the 32-bit address field
    wraps: the two records of a write of 8 * 4096 + 100 bytes at
    0xFFFFC000 target 0xFFFFC000 and then 0x4000. *)
Lemma legacy_targets_wrap :
  record_target (fresh_aub 7)
    <$> (block_record (fresh_aub 7) AUB_TRACE_TYPE_NOTYPE None (8 * 4096 + 100) 0xFFFFC000
           <$> for_values 0 (8 * 4096 + 100) (chunk_limit (fresh_aub 7)))
  = [0xFFFFC000; 0x4000].
Proof. vm_compute. reflexivity. Qed.

(** C8, amended: a memory write is split into successive records, one per
    block of at most [chunk_limit] bytes: 8 pages in the legacy dialect, one
    page in the paged dialect. The blocks start at the buffer offsets 0,
    limit, 2 * limit, ...: each starts where the previous one ended, and only
    the last may be shorter. Each payload is followed by the zero bytes
    that bring it to a multiple of four. In the legacy dialect the target
    address of the record of the block at [off] is [gtt_offset + off]
    truncated to the width of the address in the header (32 bits, 64 where
    the header has the high dword): while the buffer ends at or below that
    limit the targets are [gtt_offset + off] itself, contiguous and
    increasing, each the previous one plus the length of the previous
    block; past the limit they wrap. In the paged dialect the target is the
    physical address that [ppgtt_lookup] gives for [gtt_offset + off], so
    that paged targets are contiguous only where the physical pages are. *)
Theorem aub_write_trace_block_chunks aub type virtual size gtt_offset :
  is_Some (file aub) ->
  0 <= size < 2 ^ 32 ->
  (aub_use_execlists aub = true ->
   forall off, off ∈ for_values 0 size 4096 ->
               exists p, ppgtt_lookup aub (wrap64 (gtt_offset + off)) = Done p) ->
  exists aub',
    aub_write_trace_block aub type virtual size gtt_offset = Some (Done aub')
    /\ stream_of aub'
       = stream_of aub
         ++ concat (block_record aub type virtual size gtt_offset
                      <$> for_values 0 size (chunk_limit aub))
    /\ forall off, off ∈ for_values 0 size (chunk_limit aub) ->
         let block_size := Z.min (chunk_limit aub) (size - off) in
         let target o :=
           record_target aub (block_record aub type virtual size gtt_offset o) in
         0 < block_size <= chunk_limit aub
         /\ (off + block_size < size ->
             off + block_size ∈ for_values 0 size (chunk_limit aub))
         /\ (block_size + Z.of_nat (length (padding block_size))) mod 4 = 0
         /\ (aub_use_execlists aub = true ->
             target off = wrap64 (translated aub (wrap64 (gtt_offset + off))))
         /\ (aub_use_execlists aub = false ->
             target off = (gtt_offset + off) mod 2 ^ target_bits aub
             /\ (0 <= gtt_offset -> gtt_offset + size <= 2 ^ target_bits aub ->
                 target off = gtt_offset + off
                 /\ (off + block_size < size ->
                     target (off + block_size) = target off + block_size))).
Proof.
  intros Hf Hsize Hlk.
  assert (Hlim : 0 < chunk_limit aub /\ (chunk_limit aub = 4096 \/ chunk_limit aub = 8 * 4096)).
  { unfold chunk_limit. destruct (aub_use_execlists aub); lia. }
  destruct (aub_write_trace_block_loop_spec type virtual size gtt_offset Hsize
              (Z.to_nat (size / 4096) + 1) aub 0 Hf ltac:(lia))
    as (aub' & E & A).
  - assert (size / 4096 * 4096 <= size < size / 4096 * 4096 + 4096).
    { pose proof (Z.div_mod size 4096 ltac:(lia)).
      pose proof (Z.mod_pos_bound size 4096 ltac:(lia)). lia. }
    assert (0 <= size / 4096) by (apply Z.div_pos; lia).
    rewrite Nat2Z.inj_add, Z2Nat.id by lia. simpl Z.of_nat. nia.
  - intros Hex off Hoff. apply Hlk; [exact Hex|].
    unfold chunk_limit in Hoff. rewrite Hex in Hoff. exact Hoff.
  - exists aub'. split; [exact E|]. split; [apply (appended_stream _ _ _ A)|].
    intros off Hoff block_size target.
    apply for_values_spec in Hoff; [|lia]. destruct Hoff as [Hr Hm].
    assert (Hbs : 0 < block_size <= chunk_limit aub) by (unfold block_size; lia).
    split; [exact Hbs|]. split; [|split; [|split]].
    + intros Hnext. apply for_values_spec; [lia|]. split; [lia|].
      assert (block_size = chunk_limit aub) as -> by (unfold block_size; lia).
      rewrite Z.sub_0_r in *. rewrite <- Z.add_mod_idemp_l, Hm by lia.
      apply Z.mod_same. lia.
    + apply padding_length. lia.
    + intros Hex. unfold target. rewrite block_record_target, Hex. reflexivity.
    + intros Hex.
      assert (T : forall o, target o = (gtt_offset + o) mod 2 ^ target_bits aub).
      { intros o. unfold target. rewrite block_record_target, Hex. reflexivity. }
      split; [apply T|]. intros Hg Hfit.
      assert (Hb : 0 < 2 ^ target_bits aub).
      { unfold target_bits. destruct (aub_use_execlists aub), (32 <? addr_bits aub); lia. }
      split.
      * rewrite T. apply Z.mod_small. lia.
      * intros Hnext. rewrite !T. rewrite !Z.mod_small by lia. lia.
Qed.

Lemma aub_write_trace_block_chunks_witness :
  (exists aub',
     aub_write_trace_block (fresh_aub 7) AUB_TRACE_TYPE_NOTYPE None (8 * 4096 + 100) 0x10000
     = Some (Done aub')
     /\ stream_of aub'
        = stream_of (fresh_aub 7)
          ++ concat (block_record (fresh_aub 7) AUB_TRACE_TYPE_NOTYPE None
                                  (8 * 4096 + 100) 0x10000 <$> [0; 8 * 4096])
     /\ record_target (fresh_aub 7)
          (block_record (fresh_aub 7) AUB_TRACE_TYPE_NOTYPE None
                        (8 * 4096 + 100) 0x10000 0) = 0x10000
     /\ record_target (fresh_aub 7)
          (block_record (fresh_aub 7) AUB_TRACE_TYPE_NOTYPE None
                        (8 * 4096 + 100) 0x10000 (8 * 4096)) = 0x10000 + 8 * 4096)
  /\ (exists aub',
        aub_write_trace_block remapped_aub AUB_TRACE_TYPE_NOTYPE None (4096 + 100) 0x1000
        = Some (Done aub')
        /\ stream_of aub'
           = stream_of remapped_aub
             ++ concat (block_record remapped_aub AUB_TRACE_TYPE_NOTYPE None
                                     (4096 + 100) 0x1000 <$> [0; 4096])).
Proof.
  split.
  - destruct (aub_write_trace_block_chunks (fresh_aub 7) AUB_TRACE_TYPE_NOTYPE None
                                           (8 * 4096 + 100) 0x10000)
      as (aub' & E & S & T).
    + eexists; reflexivity.
    + lia.
    + intros H. vm_compute in H. discriminate.
    + exists aub'. split; [exact E|]. split; [exact S|].
      destruct (T 0) as (_ & _ & _ & _ & L).
      { apply (bool_decide_unpack _). vm_compute. exact I. }
      destruct (L eq_refl) as (_ & F).
      destruct F as (T0 & T1); [lia | vm_compute; discriminate |].
      split; [exact T0|].
      pose proof (T1 ltac:(vm_compute; reflexivity)) as T2.
      exact (eq_trans T2 (f_equal (fun t => t + 8 * 4096) T0)).
  - destruct (aub_write_trace_block_chunks remapped_aub AUB_TRACE_TYPE_NOTYPE None
                                           (4096 + 100) 0x1000)
      as (aub' & E & S & _).
    + eexists; vm_compute; reflexivity.
    + lia.
    + intros _ off Hoff. vm_compute in Hoff.
      apply elem_of_cons in Hoff as [-> | Hoff];
        [|apply elem_of_cons in Hoff as [-> | Hoff]; [|inversion Hoff]];
        eexists; vm_compute; reflexivity.
    + exists aub'. split; [exact E | exact S].
Defined.

(** * Relocations *)

Lemma canonical_address_value v :
  canonical_address v
  = v mod 2 ^ 48 + (if 2 ^ 47 <=? v mod 2 ^ 48 then 2 ^ 64 - 2 ^ 48 else 0).
Proof.
  unfold canonical_address, wrap64. cbv zeta.
  change (63 - 47) with 16.
  rewrite Z.shiftl_mul_pow2 by lia.
  assert (Hs : (v * 2 ^ 16) mod 2 ^ 64 = (v mod 2 ^ 48) * 2 ^ 16).
  { change (2 ^ 64) with (2 ^ 48 * 2 ^ 16).
    rewrite Z.mul_mod_distr_r by lia. reflexivity. }
  rewrite Hs.
  pose proof (Z.mod_pos_bound v (2 ^ 48) ltac:(lia)) as Hb.
  set (low := v mod 2 ^ 48) in *.
  destruct (Z.leb_spec (2 ^ 47) low) as [Hhi | Hlo].
  - replace (low * 2 ^ 16 <? 2 ^ 63) with false by lia.
    rewrite Z.shiftr_div_pow2 by lia.
    replace (low * 2 ^ 16 - 2 ^ 64) with ((low - 2 ^ 48) * 2 ^ 16) by lia.
    rewrite Z.div_mul by lia.
    replace (low - 2 ^ 48) with (low + (2 ^ 64 - 2 ^ 48) + (-1) * 2 ^ 64) by lia.
    rewrite Z.mod_add by lia. apply Z.mod_small. lia.
  - replace (low * 2 ^ 16 <? 2 ^ 63) with true by lia.
    rewrite Z.shiftr_div_pow2 by lia.
    rewrite Z.div_mul by lia. rewrite Z.add_0_r. apply Z.mod_small. lia.
Qed.

Lemma canonical_address_low v : canonical_address v mod 2 ^ 48 = v mod 2 ^ 48.
Proof.
  rewrite canonical_address_value.
  destruct (2 ^ 47 <=? v mod 2 ^ 48).
  - change (2 ^ 64 - 2 ^ 48) with ((2 ^ 16 - 1) * 2 ^ 48).
    rewrite Z.mod_add by lia. apply Z.mod_mod. lia.
  - rewrite Z.add_0_r. apply Z.mod_mod. lia.
Qed.

Lemma canonical_address_high v i :
  48 <= i < 64 -> Z.testbit (canonical_address v) i = Z.testbit v 47.
Proof.
  intros Hi. rewrite canonical_address_value.
  pose proof (Z.mod_pos_bound v (2 ^ 48) ltac:(lia)) as Hb.
  assert (H47 : Z.testbit v 47 = (2 ^ 47 <=? v mod 2 ^ 48)).
  { rewrite <- (Z.mod_pow2_bits_low v 48 47) by lia.
    set (low := v mod 2 ^ 48) in *.
    rewrite Z.testbit_eqb by lia.
    destruct (Z.leb_spec (2 ^ 47) low).
    - replace (low / 2 ^ 47) with 1; [reflexivity|].
      apply Z.div_unique with (r := low - 2 ^ 47); lia.
    - rewrite Z.div_small by lia. reflexivity. }
  rewrite H47. set (low := v mod 2 ^ 48) in *.
  replace i with ((i - 48) + 48) by lia.
  rewrite <- Z.div_pow2_bits by lia.
  destruct (Z.leb_spec (2 ^ 47) low).
  - replace ((low + (2 ^ 64 - 2 ^ 48)) / 2 ^ 48) with (Z.ones 16).
    + apply Z.ones_spec_low. lia.
    + apply Z.div_unique with (r := low); [lia|].
      change (Z.ones 16) with (2 ^ 16 - 1). lia.
  - rewrite Z.add_0_r, Z.div_small by lia. apply Z.bits_0.
Qed.

Lemma aub_write_reloc_spec di buf off v buf' :
  aub_write_reloc di buf off v = Done buf' -> 0 <= off ->
  (8 <= gen di -> slice buf' off 8 = le_bytes 8 (canonical_address v))
  /\ (gen di < 8 -> slice buf' off 4 = le_bytes 4 (wrap32 v)).
Proof.
  unfold aub_write_reloc. intros H Hoff. split; intros Hg.
  - replace (8 <=? gen di) with true in H by lia.
    destruct (Z.leb_spec (off + 8) (Z.of_nat (length buf))); [|discriminate].
    assert (E : buf' = blit buf off (le_bytes 8 (canonical_address v))) by congruence.
    rewrite E. apply slice_blit; [reflexivity | lia | lia].
  - replace (8 <=? gen di) with false in H by lia.
    destruct (Z.leb_spec (off + 4) (Z.of_nat (length buf))); [|discriminate].
    assert (E : buf' = blit buf off (le_bytes 4 (wrap32 v))) by congruence.
    rewrite E. apply slice_blit; [reflexivity | lia | lia].
Qed.

Lemma relocate_entry_frame di m b eb r relocated relocated' :
  relocate_entry di m b eb r relocated = Done relocated' ->
  0 <= reloc_offset r ->
  length relocated' = length relocated
  /\ reloc_offset r < bo_size b
  /\ forall k : nat,
       ~ (reloc_offset r <= Z.of_nat k < reloc_offset r + reloc_width di) ->
       relocated' !! k = relocated !! k.
Proof.
  unfold relocate_entry, fail_if. intros H Hoff.
  destruct (Z.leb_spec (bo_size b) (reloc_offset r)); [discriminate|].
  cbn [mbind outcome_bind bind] in H.
  apply bind_done in H as (h & _ & H). apply bind_done in H as (target & _ & H).
  unfold aub_write_reloc in H. unfold reloc_width.
  destruct (8 <=? gen di).
  - destruct (Z.leb_spec (reloc_offset r + 8) (Z.of_nat (length relocated)));
      [|discriminate].
    injection H as <-. split; [|split; [assumption|]].
    + apply length_blit; rewrite ?length_le_bytes; simpl Z.of_nat; lia.
    + intros k Hk. apply lookup_blit_outside; rewrite ?length_le_bytes; simpl Z.of_nat; lia.
  - destruct (Z.leb_spec (reloc_offset r + 4) (Z.of_nat (length relocated)));
      [|discriminate].
    injection H as <-. split; [|split; [assumption|]].
    + apply length_blit; rewrite ?length_le_bytes; simpl Z.of_nat; lia.
    + intros k Hk. apply lookup_blit_outside; rewrite ?length_le_bytes; simpl Z.of_nat; lia.
Qed.

(** ** C10 *)

(** The loop of [relocate_bo] keeps the length of the copy and changes no
    byte outside the slots of its entries. *)
Lemma relocate_entries_frame di m b eb l : forall buf buf',
  for_each (relocate_entry di m b eb) l buf = Done buf' ->
  (forall r, r ∈ l -> 0 <= reloc_offset r) ->
  length buf' = length buf
  /\ forall k : nat,
       (forall r, r ∈ l ->
                  ~ (reloc_offset r <= Z.of_nat k < reloc_offset r + reloc_width di)) ->
       buf' !! k = buf !! k.
Proof.
  induction l as [|r l IH]; intros buf buf' H Hpos.
  - injection H as <-. split; reflexivity.
  - cbn [for_each] in H. apply bind_done in H as (buf1 & H1 & H).
    apply relocate_entry_frame in H1 as (L1 & _ & F1); [|apply Hpos; left].
    destruct (IH buf1 buf' H (fun r Hr => Hpos r (proj2 (elem_of_cons _ _ _) (or_intror Hr))))
      as (L2 & F2).
    split; [congruence|].
    intros k Hk. rewrite F2, F1; [reflexivity| |].
    + apply Hk. left.
    + intros r' Hr'. apply Hk. right. exact Hr'.
Qed.

(** What one pass of the loop of [relocate_bo] stores. *)
Lemma relocate_entry_stored di m b eb r relocated relocated' :
  relocate_entry di m b eb r relocated = Done relocated' ->
  0 <= reloc_offset r ->
  exists h,
    (if negb (Z.land (eb_flags eb) I915_EXEC_HANDLE_LUT =? 0)
     then handle <$> buffers eb !! Z.to_nat (target_handle r) = Some h
     else h = target_handle r)
    /\ let v := wrap64 (bo_offset (bos_get m h) + delta r) in
       (8 <= gen di ->
        le_value (slice relocated' (reloc_offset r) 8) = canonical_address v)
       /\ (gen di < 8 -> le_value (slice relocated' (reloc_offset r) 4) = v mod 2 ^ 32).
Proof.
  unfold relocate_entry. intros H Hoff.
  apply bind_done in H as (u & _ & H).
  apply bind_done in H as (h & Hh & H).
  apply bind_done in H as (target & Ht & H).
  exists h. split.
  - destruct (negb _).
    + destruct (buffers eb !! Z.to_nat (target_handle r)) as [o|]; [|discriminate].
      injection Hh as <-. reflexivity.
    + injection Hh as <-. reflexivity.
  - assert (target = bos_get m h) as ->.
    { unfold get_bo in Ht. apply bind_done in Ht as (u' & _ & Ht). congruence. }
    cbv zeta. destruct (aub_write_reloc_spec _ _ _ _ _ H Hoff) as [H8 H4]. split.
    + intros Hg. rewrite (H8 Hg), le_value_le_bytes. apply Z.mod_small.
      unfold canonical_address, wrap64. apply Z.mod_pos_bound. lia.
    + intros Hg. rewrite (H4 Hg), le_value_le_bytes. unfold wrap32. apply Z.mod_mod. lia.
Qed.

(** C10: a writer has 48 address bits on a device of generation 8 or
    later and 32 otherwise. [relocate_bo] applies the relocation entries
    in turn to its private copy of the buffer. On the former kind of
    device the eight bytes at an entry's offset, once the entry has been
    applied, are the canonical form of the target buffer's address plus
    the entry's delta: the low 48 bits are those of the sum and bits 63..48
    all equal bit 47. The raw target 0x0000800000001000 is stored as
    0xFFFF800000001000. On the latter the four bytes stored are the low 32
    bits of the sum. The copy returned holds these bytes at the entry's
    offset unless a later entry's slot overlaps it. The target is the
    buffer registered under the entry's handle, taken through the
    submission's buffer list when [I915_EXEC_HANDLE_LUT] is set. *)
Theorem relocation_stored_canonical di m b eb obj relocated :
  relocate_bo di m b eb obj = Done relocated ->
  (forall r, r ∈ relocs obj -> 0 <= reloc_offset r) ->
  exists contents,
    GET_PTR (bo_map b) = Some contents
    /\ forall (i : nat) r,
         relocs obj !! i = Some r ->
         exists h copy,
           (if negb (Z.land (eb_flags eb) I915_EXEC_HANDLE_LUT =? 0)
            then handle <$> buffers eb !! Z.to_nat (target_handle r) = Some h
            else h = target_handle r)
           /\ for_each (relocate_entry di m b eb) (take (S i) (relocs obj))
                       (slice contents 0 (bo_size b)) = Done copy
           /\ let v := wrap64 (bo_offset (bos_get m h) + delta r) in
              (forall f id aub,
                  aub_file_init f id (Some di) = Done aub ->
                  addr_bits aub = if 8 <=? gen di then 48 else 32)
              /\ (8 <= gen di ->
                  le_value (slice copy (reloc_offset r) 8) = canonical_address v
                  /\ canonical_address v mod 2 ^ 48 = v mod 2 ^ 48
                  /\ (forall i, 48 <= i < 64 ->
                                Z.testbit (canonical_address v) i = Z.testbit v 47))
              /\ (gen di < 8 -> le_value (slice copy (reloc_offset r) 4) = v mod 2 ^ 32)
              /\ ((forall (j : nat) r',
                      (i < j)%nat -> relocs obj !! j = Some r' ->
                      reloc_offset r' + reloc_width di <= reloc_offset r
                      \/ reloc_offset r + reloc_width di <= reloc_offset r') ->
                  slice relocated (reloc_offset r) (reloc_width di)
                  = slice copy (reloc_offset r) (reloc_width di)
                  /\ (8 <= gen di ->
                      le_value (slice relocated (reloc_offset r) 8) = canonical_address v)
                  /\ (gen di < 8 ->
                      le_value (slice relocated (reloc_offset r) 4) = v mod 2 ^ 32))
              /\ canonical_address 0x0000800000001000 = 0xFFFF800000001000.
Proof.
  unfold relocate_bo. destruct (GET_PTR (bo_map b)) as [contents|]; [|discriminate].
  intros H Hpos. exists contents. split; [reflexivity|].
  intros i r Hi.
  pose proof (take_drop_middle _ _ _ Hi) as Hl.
  rewrite <- Hl, for_each_app in H.
  apply bind_done in H as (buf_i & Hpre & H). cbn [for_each] in H.
  apply bind_done in H as (copy & Hr & Hpost).
  assert (Hr0 : 0 <= reloc_offset r).
  { apply Hpos. eapply list_elem_of_lookup_2. exact Hi. }
  destruct (relocate_entry_stored _ _ _ _ _ _ _ Hr Hr0) as (h & Hh & S8 & S4).
  exists h, copy. split; [exact Hh|]. split.
  { rewrite (take_S_r _ _ _ Hi), for_each_app, Hpre. cbn [mbind outcome_bind bind for_each].
    rewrite Hr. reflexivity. }
  cbv zeta. split; [|split; [|split; [|split; [|reflexivity]]]].
  - intros f id aub. unfold aub_file_init. intros [= <-]. reflexivity.
  - intros Hg. split; [apply S8; exact Hg|]. split.
    + apply canonical_address_low.
    + apply canonical_address_high.
  - exact S4.
  - intros Hdis.
    destruct (relocate_entries_frame _ _ _ _ _ _ _ Hpost) as (_ & F).
    { intros r' Hr'. apply Hpos. rewrite <- Hl. apply elem_of_app. right. right. exact Hr'. }
    assert (E : slice relocated (reloc_offset r) (reloc_width di)
                = slice copy (reloc_offset r) (reloc_width di)).
    { apply slice_ext; [exact Hr0|]. intros k Hk. apply F.
      intros r' Hr' Hin.
      apply list_elem_of_lookup_1 in Hr' as (j & Hj). rewrite lookup_drop in Hj.
      destruct (Hdis (S i + j)%nat r' ltac:(lia) Hj); lia. }
    split; [exact E|]. unfold reloc_width in E. split; intros Hg.
    + replace (8 <=? gen di) with true in E by lia. rewrite E. apply S8. exact Hg.
    + replace (8 <=? gen di) with false in E by lia. rewrite E. apply S4. exact Hg.
Qed.

Lemma relocation_stored_canonical_witness :
  let m : gmap Z bo := <[2 := mk_bo 4096 0x0000800000000000 MapNull]> ∅ in
  let contents := replicate 64 1 in
  let relocated := blit contents 0x20 (le_bytes 8 0xFFFF800000001000) in
  relocate_bo (mk_devinfo 9 0) m (mk_bo 64 0 (Mapped false contents))
              (mk_execbuffer2 [] 0 0) (mk_obj 1 [mk_reloc 2 0x1000 0x20] 0 0 0)
  = Done relocated
  /\ le_value (slice relocated 0x20 8) = canonical_address 0x0000800000001000
  /\ canonical_address 0x0000800000001000 = 0xFFFF800000001000.
Proof.
  intros m contents relocated.
  assert (E : relocate_bo (mk_devinfo 9 0) m (mk_bo 64 0 (Mapped false contents))
                          (mk_execbuffer2 [] 0 0) (mk_obj 1 [mk_reloc 2 0x1000 0x20] 0 0 0)
              = Done relocated) by reflexivity.
  split; [exact E|].
  destruct (relocation_stored_canonical _ _ _ _ _ _ E) as (c & Hc & F).
  - intros r Hr. apply list_elem_of_singleton in Hr as ->. simpl. lia.
  - destruct (F 0%nat (mk_reloc 2 0x1000 0x20) eq_refl)
      as (h & copy & Hh & Hcopy & _ & _ & _ & Hfin & Hex).
    assert (h = 2) as -> by exact Hh.
    split; [|exact Hex].
    destruct Hfin as (_ & V & _).
    { intros j r' Hj Hr'. destruct j; [lia | discriminate]. }
    apply V. simpl. lia.
Defined.


(** * The capture shim *)

Lemma assign_offsets_returned env l st :
  for_each (assign_offsets_step env) l (Returned st) = Done (Returned st).
Proof. induction l as [|x l IH]; simpl; auto. Qed.

(** ** C1 *)

Lemma dword_out_null aub v : file aub = None -> dword_out aub v = Crash.
Proof. intros Hf. unfold dword_out, data_out. cbn [le_bytes]. rewrite Hf. reflexivity. Qed.

Lemma header_out_null aub addr len space :
  file aub = None -> mem_trace_memory_write_header_out aub addr len space = Crash.
Proof.
  intros Hf. unfold mem_trace_memory_write_header_out. cbv zeta.
  rewrite dword_out_null by exact Hf. reflexivity.
Qed.

Lemma aub_write_exec_null aub batch_addr offset ring_flag :
  file aub = None -> returns (aub_write_exec aub batch_addr offset ring_flag) = false.
Proof.
  intros Hf. unfold aub_write_exec.
  destruct (aub_use_execlists aub).
  - unfold aub_dump_execlist. destruct (ring_registers ring_flag) as [[[[[[? ?] ?] ?] ?] ?]| | |];
      [|reflexivity..].
    cbn [mbind outcome_bind bind].
    rewrite header_out_null by exact Hf.
    reflexivity.
  - unfold aub_dump_ringbuffer.
    destruct (aub_write_reloc _ _ _ _); [|reflexivity..].
    cbn [mbind outcome_bind bind].
    rewrite dword_out_null by exact Hf. reflexivity.
Qed.

Lemma write_exec_step_open batch_addr offset ring_flag j st st1 :
  write_exec_step batch_addr offset ring_flag j st = Done st1 ->
  files st1 = files st
  /\ forall i, files st !! i = Some true -> aubs st1 !! i = aubs st !! i.
Proof.
  unfold write_exec_step.
  destruct (files st !! j) as [opened|] eqn:Hj; [|discriminate].
  destruct (aubs st !! j) as [aub|]; [|discriminate].
  destruct opened.
  - intros [= <-]. auto.
  - destruct (aub_write_exec _ _ _ _) as [aub'| | |]; try discriminate.
    intros [= <-]. cbn. split; [reflexivity|].
    intros i Hi. apply list_lookup_insert_ne. congruence.
Qed.

(** C1 fails on the code: the loop that writes the execute record skips
    every open file ([if (files[i] != NULL) continue;], the test of the two
    loops before it inverted). No open stream receives the record, and a
    closed one is written through its null [FILE *]. In the scenario, with
    one output closed the submission does not return, and with both open
    the last bytes of each stream are the batch buffer's contents. *)
Theorem write_exec_loop_skips_open_files st batch_addr offset ring_flag :
  (forall st',
      write_exec_loop st batch_addr offset ring_flag = Done st' ->
      forall i, files st !! i = Some true -> aubs st' !! i = aubs st !! i)
  /\ (forall a0 a1, files st = [true; false] -> aubs st = [a0; a1] -> file a1 = None ->
                    returns (write_exec_loop st batch_addr offset ring_flag) = false)
  /\ returns (dump_execbuffer2 scenario_env (scenario_state [true; false]) scenario_submit)
     = false
  /\ (st' ← dump_execbuffer2 scenario_env (scenario_state [true; true]) scenario_submit;
      Done ((fun aub => stream_tail aub 4096) <$> aubs st'))
     = Done [relocated_batch; relocated_batch].
Proof.
  unfold write_exec_loop.
  split; [|split; [|split]].
  - intros st'. cbn [seq for_each].
    destruct (write_exec_step batch_addr offset ring_flag 0%nat st) as [st1| | |] eqn:H0;
      cbn [mbind outcome_bind bind]; try discriminate.
    destruct (write_exec_step batch_addr offset ring_flag 1%nat st1) as [st2| | |] eqn:H1;
      cbn [mbind outcome_bind bind]; try discriminate.
    intros [= <-] i Hi.
    apply write_exec_step_open in H0 as [F0 A0], H1 as [F1 A1].
    rewrite A1, A0; auto. rewrite F0. exact Hi.
  - intros a0 a1 Hf Ha Hnull. cbn [seq for_each].
    assert (H0 : write_exec_step batch_addr offset ring_flag 0 st = Done st).
    { unfold write_exec_step. rewrite Hf, Ha. reflexivity. }
    rewrite H0. cbn [mbind outcome_bind bind].
    unfold write_exec_step. rewrite Hf, Ha.
    change ([true; false] !! 1%nat) with (Some false).
    change ([a0; a1] !! 1%nat) with (Some a1).
    cbv iota.
    pose proof (aub_write_exec_null a1 batch_addr offset ring_flag Hnull) as Hx.
    destruct (aub_write_exec a1 _ _ _); [discriminate|reflexivity..].
  - vm_compute. reflexivity.
  - vm_compute. reflexivity.
Qed.

Lemma write_exec_loop_skips_open_files_witness :
  let st := mk_shim [true; true] 0 false 0x1912 (mk_devinfo 9 12)
                    [fresh_aub 9; fresh_aub 9] scenario_bos 30 in
  write_exec_loop st 0x4000 0x5000 0 = Done st
  /\ files st !! 0%nat = Some true
  /\ aubs st !! 0%nat = aubs st !! 0%nat.
Proof.
  intros st.
  split; [reflexivity|]. split; [reflexivity|].
  exact (proj1 (write_exec_loop_skips_open_files st 0x4000 0x5000 0)
               st eq_refl 0%nat eq_refl).
Defined.

(** ** C6 *)

Lemma assign_offsets_zero_size env obj st off :
  handle obj < MAX_BO_COUNT ->
  bo_size (bos_get (bos st) (handle obj)) = 0 ->
  assign_offsets_step env obj (Continue st off) = Done (Returned st).
Proof.
  intros Hh Hsize. unfold assign_offsets_step, get_bo, fail_if.
  destruct (MAX_BO_COUNT <=? handle obj) eqn:E; [apply Z.leb_le in E; lia|].
  cbn [mbind outcome_bind bind]. rewrite Hsize. reflexivity.
Qed.

(** C6 fails on the code: a submission naming a handle of size zero returns
    to the caller. *)
Lemma zero_size_handle_returns :
  returns (dump_execbuffer2 scenario_env (scenario_state [true; true]) invalid_submit)
  = true.
Proof. vm_compute. reflexivity. Qed.

(** C6, as the code has it: when the first pass of [dump_execbuffer2]
    reaches a buffer whose registered size is zero (a handle never
    registered has size zero), the call returns at once with the state the
    buffers before it produced: no buffer contents and no execute record
    are written, and capture goes on. Registering a buffer of size zero and
    a handle of [MAX_BO_COUNT] or more are what stops the process. *)
Theorem zero_size_handle_skips_submission env st eb st0 any_aub objs1 obj objs2 st1 off1 :
  dump_execbuffer2_init env st = Done st0 ->
  (if default false (files st0 !! 0%nat) then aubs st0 !! 0%nat else aubs st0 !! 1%nat)
  = Some any_aub ->
  buffers eb = objs1 ++ obj :: objs2 ->
  for_each (assign_offsets_step env) objs1
           (Continue st0 (if aub_use_execlists any_aub then 0x1000
                          else aub_gtt_size any_aub))
  = Done (Continue st1 off1) ->
  handle obj < MAX_BO_COUNT ->
  bo_size (bos_get (bos st1) (handle obj)) = 0 ->
  dump_execbuffer2 env st eb = Done st1
  /\ (forall m h map, h < MAX_BO_COUNT ->
        add_new_bo m h 0 map = Trap "intel_aubdump: bo size is invalid")
  /\ (forall m h, MAX_BO_COUNT <= h -> get_bo m h = Trap "bo handle too large").
Proof.
  intros Hinit Hany Hbuf Hpre Hh Hsize.
  split; [|split].
  - unfold dump_execbuffer2. rewrite Hinit. cbn [mbind outcome_bind bind].
    rewrite Hany. cbn [mbind outcome_bind bind].
    rewrite Hbuf, for_each_app, Hpre. cbn [mbind outcome_bind bind for_each].
    rewrite assign_offsets_zero_size by assumption. cbn [mbind outcome_bind bind].
    rewrite assign_offsets_returned. reflexivity.
  - intros m h map Hlt. unfold add_new_bo, fail_if.
    destruct (MAX_BO_COUNT <=? h) eqn:E; [apply Z.leb_le in E; lia|]. reflexivity.
  - intros m h Hge. unfold get_bo, fail_if.
    destruct (MAX_BO_COUNT <=? h) eqn:E; [reflexivity|apply Z.leb_gt in E; lia].
Qed.

Lemma zero_size_handle_skips_submission_witness :
  let st := mk_shim [true; true] 0 false 0x1912 (mk_devinfo 9 12)
                    [fresh_aub 9; fresh_aub 9] scenario_bos 30 in
  dump_execbuffer2 scenario_env st invalid_submit = Done st.
Proof.
  intros st.
  refine (proj1 (zero_size_handle_skips_submission
                   scenario_env st invalid_submit st (fresh_aub 9) []
                   (mk_obj 5 [] 0 0 0) [] st 0x1000 _ _ _ _ _ _));
    try reflexivity.
Defined.

(** * The decoder *)

Module AubinatorFacts.
Import Aubinator.

Lemma set_maps_id d : set_maps d (maps d) = d.
Proof. destruct d; reflexivity. Qed.

Lemma clear_bo_maps_fold (l : list bo_map) : forall d,
  fold_left (fun d _ => set_maps d (tail (maps d))) l d
  = set_maps d (drop (length l) (maps d)).
Proof.
  induction l as [|x l IH]; intros d; cbn [fold_left length].
  - rewrite drop_0. symmetry. apply set_maps_id.
  - rewrite IH. cbn [set_maps maps]. unfold set_maps. f_equal.
    destruct (maps d); [|reflexivity]. cbn [tail]. rewrite !drop_nil. reflexivity.
Qed.

Lemma clear_bo_maps_eq d : clear_bo_maps d = set_maps d [].
Proof.
  unfold clear_bo_maps. rewrite clear_bo_maps_fold, drop_all. reflexivity.
Qed.

(** What [get_ggtt_batch_bo] leaves alone. *)
Lemma get_ggtt_batch_bo_frame d address :
  let d' := fst (get_ggtt_batch_bo d address) in
  ggtt d' = ggtt d /\ mem d' = mem d /\ mem_fd_len d' = mem_fd_len d
  /\ batches d' = batches d /\ state d' = state d /\ outfile d' = outfile d.
Proof.
  unfold get_ggtt_batch_bo.
  destruct (filter _ (maps d)); [|cbn; tauto].
  destruct (rb_tree_first_ge _ _); cbn; tauto.
Qed.

Lemma maps_only_refl d : maps_only d d.
Proof. repeat split. Qed.

Lemma maps_only_trans d1 d2 d3 : maps_only d1 d2 -> maps_only d2 d3 -> maps_only d1 d3.
Proof.
  unfold maps_only. intros (?&?&?&?&?&?&?&?&?) (?&?&?&?&?&?&?&?&?).
  repeat split; congruence.
Qed.

Lemma get_ggtt_batch_bo_maps d address : maps_only d (fst (get_ggtt_batch_bo d address)).
Proof.
  unfold get_ggtt_batch_bo.
  destruct (filter _ (maps d)); [|apply maps_only_refl].
  destruct (rb_tree_first_ge _ _); [apply maps_only_refl|]. repeat split.
Qed.

Lemma get_ppgtt_batch_bo_maps d pml4 address d' b :
  get_ppgtt_batch_bo d pml4 address = Done (d', b) -> maps_only d d'.
Proof.
  unfold get_ppgtt_batch_bo. cbv zeta.
  destruct (negb _); [intros [= <- <-]; apply maps_only_refl|].
  destruct (while_passes _ _ _ _) as [end_|]; [|discriminate].
  intros H. apply bind_done in H as (mapped & _ & H). injection H as <- <-.
  repeat split.
Qed.

Lemma batch_ctx_get_bo_maps d address d' b :
  batch_ctx_get_bo d address = Done (d', b) -> maps_only d d'.
Proof.
  unfold batch_ctx_get_bo. destruct (get_bo d); [discriminate| |].
  - intros [= H]. rewrite (surjective_pairing (get_ggtt_batch_bo _ _)) in H.
    injection H as <- <-. apply get_ggtt_batch_bo_maps.
  - apply get_ppgtt_batch_bo_maps.
Qed.

(** The callbacks touch [maps] only. *)
Lemma run_get_bo_calls_maps calls : forall d d',
  run_get_bo_calls calls d = Done d' -> maps_only d d'.
Proof.
  induction calls as [|address next IH]; intros d d' H; cbn [run_get_bo_calls] in H.
  - injection H as <-. apply maps_only_refl.
  - apply bind_done in H as ([d1 b] & H1 & H).
    eapply maps_only_trans; [exact (batch_ctx_get_bo_maps _ _ _ _ H1) | exact (IH _ _ _ H)].
Qed.

(** With [get_ggtt_batch_bo] installed every callback returns. *)
Lemma run_get_bo_calls_ggtt calls : forall d,
  get_bo d = GetGgttBatchBo -> exists d', run_get_bo_calls calls d = Done d'.
Proof.
  induction calls as [|address next IH]; intros d Hg; cbn [run_get_bo_calls].
  - eauto.
  - unfold batch_ctx_get_bo. rewrite Hg.
    destruct (get_ggtt_batch_bo d (wrap64 address)) as [d1 b] eqn:G.
    cbn [mbind outcome_bind bind]. apply IH.
    pose proof (get_ggtt_batch_bo_maps d (wrap64 address)) as M. rewrite G in M.
    destruct M as (_&_&_&_&_&_&M&_). cbn [fst] in M. congruence.
Qed.

Lemma gen_print_batch_spec dis d b offset size d' :
  gen_print_batch dis d b offset size = Done d' ->
  maps_only (add_batch d (mk_batch_call (get_bo d) b offset size)) d'.
Proof. unfold gen_print_batch. cbv zeta. apply run_get_bo_calls_maps. Qed.

(** The shape of a completed [execlist_submit]. *)
Lemma execlist_submit_spec dis d desc d' :
  execlist_submit dis d desc = Done d' ->
  exists d1 pphwsp_bo d2 ring_bo head tail start,
    let context := wrap32 (Z.land desc 0xfffff000 - bo_addr pphwsp_bo) + 4096 in
    get_ggtt_batch_bo d (Z.land desc 0xfffff000) = (d1, pphwsp_bo)
    /\ read_u32 (bo_mapping pphwsp_bo) (context + 4 * 5) = Done head
    /\ read_u32 (bo_mapping pphwsp_bo) (context + 4 * 7) = Done tail
    /\ read_u32 (bo_mapping pphwsp_bo) (context + 4 * 9) = Done start
    /\ get_ggtt_batch_bo d1 start = (d2, ring_bo)
    /\ 0 < bo_size ring_bo
    /\ exists g d3,
        gen_print_batch dis (set_get_bo d2 g) ring_bo
                        (wrap32 (start - bo_addr ring_bo))
                        (wrap32 (tail - head)) = Done d3
        /\ d' = clear_bo_maps d3.
Proof.
  unfold execlist_submit. cbv zeta.
  destruct (get_ggtt_batch_bo d _) as [d1 pb] eqn:G1.
  destruct (read_u32 _ (_ + 4 * 5)) as [head| | |] eqn:R5; try discriminate.
  cbn [mbind outcome_bind bind].
  destruct (read_u32 _ (_ + 4 * 7)) as [tail| | |] eqn:R7; try discriminate.
  cbn [mbind outcome_bind bind].
  destruct (read_u32 _ (_ + 4 * 9)) as [start| | |] eqn:R9; try discriminate.
  cbn [mbind outcome_bind bind].
  destruct (read_u32 _ (_ + 4 * 49)) as [hi| | |]; try discriminate.
  cbn [mbind outcome_bind bind].
  destruct (read_u32 _ (_ + 4 * 51)) as [lo| | |]; try discriminate.
  cbn [mbind outcome_bind bind].
  destruct (get_ggtt_batch_bo d1 start) as [d2 rb] eqn:G2.
  unfold fail_if. destruct (0 <? bo_size rb) eqn:Hs; try discriminate.
  cbn [negb mbind outcome_bind bind].
  intros H. apply bind_done in H as (d3 & H3 & H). injection H as <-.
  exists d1, pb, d2, rb, head, tail, start. cbv zeta.
  do 5 (split; [assumption || reflexivity|]).
  split; [apply Z.ltb_lt; assumption|].
  destruct (negb _); do 2 eexists; (split; [exact H3 | reflexivity]).
Qed.

(** ** C5 *)

(** C5 fails on the code: after the execute event of the sample trace has
    been processed, [maps] is empty, and the GGTT-entry table and the
    physical-page table still hold every entry the trace wrote. *)
Lemma tables_survive_execute_event :
  (d ← decoded (plain_collaborators device_db) 0x1912 (sample_trace 0 16);
   Some (length (batches d), length (maps d), fst <$> ggtt d, fst <$> mem d))
  = Some (1%nat, 0%nat, [0; 0x1000; 0x2000], [0x10000; 0x12000]).
Proof. vm_compute. reflexivity. Qed.

(** C5, as the code has it: processing an execute event (an execlists
    submission, or a command-write block of the legacy dialect, which
    always returns) empties the list [maps] of buffers mapped for the
    disassembler, and leaves the GGTT-entry table, the physical-page table
    and the length of their backing store as they were. *)
Theorem execute_event_clears_maps_only dis d :
  (forall desc d',
      execlist_submit dis d desc = Done d' ->
      maps d' = [] /\ ggtt d' = ggtt d /\ mem d' = mem d
      /\ mem_fd_len d' = mem_fd_len d)
  /\ (forall f,
        Z.land (dword_at f 1) AUB_TRACE_OPERATION_MASK = AUB_TRACE_OP_COMMAND_WRITE ->
        exists d',
          handle_trace_block dis d f = Done d'
          /\ maps d' = [] /\ ggtt d' = ggtt d /\ mem d' = mem d
          /\ mem_fd_len d' = mem_fd_len d).
Proof.
  split.
  - intros desc d' H.
    apply execlist_submit_spec in H
      as (d1 & pb & d2 & rb & head & tail & start & G1 & _ & _ & _ & G2 & _
          & g & d3 & P & ->).
    pose proof (get_ggtt_batch_bo_frame d (Z.land desc 0xfffff000)) as F1.
    pose proof (get_ggtt_batch_bo_frame d1 start) as F2.
    rewrite G1 in F1. rewrite G2 in F2. cbn [fst] in F1, F2.
    destruct F1 as (F1a & F1b & F1c & _), F2 as (F2a & F2b & F2c & _).
    apply gen_print_batch_spec in P. destruct P as (_ & _ & Pg & Pm & Pl & _).
    rewrite clear_bo_maps_eq. cbn [set_maps maps ggtt mem mem_fd_len].
    rewrite Pg, Pm, Pl. cbn. rewrite <- F1a, <- F1b, <- F1c. auto.
  - intros f Hop. unfold handle_trace_block. cbv zeta.
    rewrite Hop. change (AUB_TRACE_OP_COMMAND_WRITE =? AUB_TRACE_OP_DATA_WRITE) with false.
    change (AUB_TRACE_OP_COMMAND_WRITE =? AUB_TRACE_OP_COMMAND_WRITE) with true.
    cbv iota.
    match goal with
    | |- context [gen_print_batch dis ?d0 ?b ?o ?n] =>
      destruct (run_get_bo_calls_ggtt
                  (dis (add_batch d0 (mk_batch_call (get_bo d0) b o n))
                       (mk_batch_call (get_bo d0) b o n))
                  (add_batch d0 (mk_batch_call (get_bo d0) b o n)) eq_refl)
        as (d3 & P);
      assert (P' : gen_print_batch dis d0 b o n = Done d3) by exact P
    end.
    rewrite P'. cbn [mbind outcome_bind bind].
    eexists. split; [reflexivity|].
    apply gen_print_batch_spec in P'. destruct P' as (_ & _ & Pg & Pm & Pl & _).
    rewrite clear_bo_maps_eq. cbn [set_maps maps ggtt mem mem_fd_len].
    rewrite Pg, Pm, Pl. destruct (_ || _); cbn; auto.
Qed.

Lemma execute_event_clears_maps_only_witness :
  exists d',
    execlist_submit asks_batch_bo (sample_decoder 0 16) 0x1000 = Done d'
    /\ maps d' = []
    /\ fst <$> ggtt d' = [0; 0x1000; 0x2000]
    /\ fst <$> mem d' = [0x10000; 0x12000].
Proof.
  assert (R : returns (execlist_submit asks_batch_bo (sample_decoder 0 16) 0x1000) = true)
    by (vm_compute; reflexivity).
  destruct (execlist_submit asks_batch_bo (sample_decoder 0 16) 0x1000) as [d'| | |] eqn:H;
    try discriminate R.
  exists d'. split; [reflexivity|].
  destruct (proj1 (execute_event_clears_maps_only asks_batch_bo (sample_decoder 0 16)) _ _ H)
    as (A & B & C & _).
  split; [exact A|]. rewrite B, C. split; vm_compute; reflexivity.
Defined.

(** ** C9 *)

(** C9 fails on the code: on the submit-control path the tracker's state
    is left as it was, here with two submit-port values pending. *)
Lemma control_write_keeps_accumulator :
  let s := mk_regs [1; 2; 3; 0x1000] 2 [0; 0; 0; 0] 0 in
  execlist_switch s 0x2550 1 = Done (s, Some (GEN_ENGINE_RENDER, 0x300001000)).
Proof. vm_compute. reflexivity. Qed.

(** The bytes handed to the disassembler begin at the ring start whatever
    the head is: with head 16 and tail 32 in the context image of the
    sample trace they are the ring's first four dwords, not its dwords 4
    to 7. *)
Lemma ring_head_not_added :
  (d ← decoded (plain_collaborators device_db) 0x1912 (sample_trace 16 32);
   Some (call_commands <$> batches d))
  = Some [le_bytes 4 0xA0 ++ le_bytes 4 0xA1 ++ le_bytes 4 0xA2 ++ le_bytes 4 0xA3].
Proof. vm_compute. reflexivity. Qed.

(** C9, as the code has it. A submit-port write that is the fourth for its
    engine stores the value, sets that engine's index back to 0 and
    submits the descriptor made of the third and fourth values; a
    submit-control write submits the descriptor held in the third and
    fourth slots and changes nothing in the tracker. A completed submission
    has read head, tail and start at dwords 5, 7 and 9 of the context image
    one page behind the status page, and has made one call of the
    disassembler on the ring buffer with byte count (tail - head) mod 2^32;
    when head is 0 the bytes begin at ring start plus head. *)
Theorem execlist_submit_forwards_ring dis d desc d' :
  (execlist_submit dis d desc = Done d' ->
   exists d1 pphwsp_bo d2 ring_bo head tail start c,
     let context := wrap32 (Z.land desc 0xfffff000 - bo_addr pphwsp_bo) + 4096 in
     get_ggtt_batch_bo d (Z.land desc 0xfffff000) = (d1, pphwsp_bo)
     /\ read_u32 (bo_mapping pphwsp_bo) (context + 4 * 5) = Done head
     /\ read_u32 (bo_mapping pphwsp_bo) (context + 4 * 7) = Done tail
     /\ read_u32 (bo_mapping pphwsp_bo) (context + 4 * 9) = Done start
     /\ get_ggtt_batch_bo d1 start = (d2, ring_bo)
     /\ batches d' = c :: batches d
     /\ call_bo c = ring_bo
     /\ call_size c = wrap32 (tail - head)
     /\ (head = 0 -> call_offset c = wrap32 (start + head - bo_addr ring_bo)))
  /\ (forall s value,
        render_elsp_index s = 3 ->
        execlist_switch s 0x2230 value
        = Done (mk_regs (<[3%nat := value]> (render_elsp s)) 0
                        (blitter_elsp s) (blitter_elsp_index s),
                Some (GEN_ENGINE_RENDER,
                      Z.lor (Z.shiftl (elsp_get (<[3%nat := value]> (render_elsp s)) 2) 32)
                            (elsp_get (<[3%nat := value]> (render_elsp s)) 3))))
  /\ (forall s value,
        blitter_elsp_index s = 3 ->
        execlist_switch s 0x22230 value
        = Done (mk_regs (render_elsp s) (render_elsp_index s)
                        (<[3%nat := value]> (blitter_elsp s)) 0,
                Some (GEN_ENGINE_BLITTER,
                      Z.lor (Z.shiftl (elsp_get (<[3%nat := value]> (blitter_elsp s)) 2) 32)
                            (elsp_get (<[3%nat := value]> (blitter_elsp s)) 3))))
  /\ (forall s value,
        execlist_switch s 0x2550 value
        = Done (s, Some (GEN_ENGINE_RENDER,
                         Z.lor (Z.shiftl (elsp_get (render_elsp s) 2) 32)
                               (elsp_get (render_elsp s) 3)))
        /\ execlist_switch s 0x22550 value
           = Done (s, Some (GEN_ENGINE_BLITTER,
                            Z.lor (Z.shiftl (elsp_get (blitter_elsp s) 2) 32)
                                  (elsp_get (blitter_elsp s) 3)))).
Proof.
  split; [|split; [|split]].
  - intros H.
    apply execlist_submit_spec in H
      as (d1 & pb & d2 & rb & head & tail & start & G1 & R5 & R7 & R9 & G2 & _
          & g & d3 & P & ->).
    exists d1, pb, d2, rb, head, tail, start,
      (mk_batch_call g rb (wrap32 (start - bo_addr rb)) (wrap32 (tail - head))).
    cbv zeta. do 5 (split; [assumption|]).
    pose proof (get_ggtt_batch_bo_frame d (Z.land desc 0xfffff000)) as F1.
    pose proof (get_ggtt_batch_bo_frame d1 start) as F2.
    rewrite G1 in F1. rewrite G2 in F2. cbn [fst] in F1, F2.
    destruct F1 as (_ & _ & _ & F1 & _), F2 as (_ & _ & _ & F2 & _).
    apply gen_print_batch_spec in P. destruct P as (_&_&_&_&_&_&_&_&Pb).
    rewrite clear_bo_maps_eq. cbn [set_maps batches]. rewrite Pb. cbn.
    rewrite F2, F1.
    repeat split. intros ->. rewrite Z.add_0_r. reflexivity.
  - intros s value Hi. unfold execlist_switch, elsp_set. rewrite Hi. reflexivity.
  - intros s value Hi. unfold execlist_switch, elsp_set. rewrite Hi. reflexivity.
  - intros s value. split; reflexivity.
Qed.

Lemma execlist_submit_forwards_ring_witness :
  exists d' c,
    execlist_submit asks_batch_bo (sample_decoder 0 16) 0x1000 = Done d'
    /\ batches d' = [c] /\ call_size c = 16.
Proof.
  assert (R : returns (execlist_submit asks_batch_bo (sample_decoder 0 16) 0x1000) = true)
    by (vm_compute; reflexivity).
  destruct (execlist_submit asks_batch_bo (sample_decoder 0 16) 0x1000) as [d'| | |] eqn:H;
    try discriminate R.
  destruct (proj1 (execlist_submit_forwards_ring asks_batch_bo (sample_decoder 0 16)
                                                 0x1000 d') H)
    as (d1 & pb & d2 & rb & head & tail & start & c & G1 & R5 & R7 & R9 & G2 & B & Cb & S & O).
  exists d', c. split; [reflexivity|]. split; [exact B|].
  assert (E1 : (d1, pb) = get_ggtt_batch_bo (sample_decoder 0 16) (Z.land 0x1000 0xfffff000))
    by (symmetry; exact G1).
  vm_compute in E1. injection E1 as -> ->.
  vm_compute in R5, R7.
  injection R5 as <-. injection R7 as <-.
  rewrite S. reflexivity.
Defined.

(** ** C7 *)

Lemma unhandled_tag h (x : Z) :
  Z.land h 0xffff0000 ∉ handled_tags -> x ∈ handled_tags ->
  (Z.land h 0xffff0000 =? x) = false.
Proof.
  intros Hn Hx. apply Z.eqb_neq. intros E. apply Hn. rewrite E. exact Hx.
Qed.

(** C7: a record whose top-level opcode is neither [OPCODE_AUB] nor
    [OPCODE_NEW_AUB] makes [aub_file_decode_batch] print the opcode with the
    cursor position and the file length on [outfile] and fail, which ends
    the loop of [main] with everything decoded so far in place. A record
    with a recognized opcode, a tag that has no case and a length that
    stays inside the file prints the unknown-block line on [outfile] and
    moves the cursor by the length in the low 16 bits of the first dword
    plus the bias; the loop of [main] goes on from there with the same
    decoder state but for that line. In both cases the line is the newest
    of [outfile] and nothing else of the decoder's state changes. *)
Theorem unknown_records co d f :
  cursor f < end_ f ->
  let h := dword_at f 0 in
  (opcode_bias h = None ->
   let d' := print d (MsgUnknownOpcode (OPCODE h) (cursor f) (end_ f)) in
   aub_file_decode_batch co d f = Done (d', f, AUB_ITEM_DECODE_FAILED)
   /\ outfile d' = MsgUnknownOpcode (OPCODE h) (cursor f) (end_ f) :: outfile d
   /\ outfile_only d d'
   /\ batches d' = batches d
   /\ forall fuel, decode_loop (S fuel) co d f = Some (Done (d', f)))
  /\ (forall bias,
        opcode_bias h = Some bias ->
        Z.land h 0xffff0000 ∉ handled_tags ->
        cursor f + Z.land h 0xffff + bias <= end_ f ->
        let d' := print d (MsgUnknownBlock (TYPE h) (OPCODE h) (SUBOPCODE h) h) in
        let f' := mk_file (map f) (end_ f) (cursor f + Z.land h 0xffff + bias) in
        aub_file_decode_batch co d f = Done (d', f', AUB_ITEM_DECODE_OK)
        /\ outfile d'
           = MsgUnknownBlock (TYPE h) (OPCODE h) (SUBOPCODE h) h :: outfile d
        /\ outfile_only d d'
        /\ forall fuel, decode_loop (S fuel) co d f = decode_loop fuel co d' f').
Proof.
  intros Hc h.
  assert (Hmore : (cursor f <? end_ f) = true) by (apply Z.ltb_lt; exact Hc).
  split.
  - intros Hb d'.
    assert (E : aub_file_decode_batch co d f = Done (d', f, AUB_ITEM_DECODE_FAILED)).
    { unfold aub_file_decode_batch, fail_if. rewrite Hmore.
      cbn [negb mbind outcome_bind bind]. cbv zeta.
      fold h. unfold opcode_bias in Hb.
      destruct (OPCODE h =? OPCODE_AUB); [discriminate|].
      destruct (OPCODE h =? OPCODE_NEW_AUB); [discriminate|]. reflexivity. }
    split; [exact E|]. split; [reflexivity|]. split; [repeat split|].
    split; [reflexivity|].
    intros fuel. cbn [decode_loop]. unfold aub_file_more_stuff. rewrite Hmore, E.
    reflexivity.
  - intros bias Hb Htag Hend d' f'.
    assert (E : aub_file_decode_batch co d f = Done (d', f', AUB_ITEM_DECODE_OK)).
    { unfold aub_file_decode_batch, fail_if. rewrite Hmore.
      cbn [negb mbind outcome_bind bind]. cbv zeta.
      fold h. fold (opcode_bias h). rewrite Hb.
      rewrite !(unhandled_tag h) by (exact Htag || (unfold handled_tags; set_solver)).
      cbn [mbind outcome_bind bind].
      assert (Hle : (cursor f + Z.land h 65535 + bias <=? end_ f) = true)
        by (apply Z.leb_le; exact Hend).
      rewrite Hle. reflexivity. }
    split; [exact E|]. split; [reflexivity|]. split; [repeat split|].
    intros fuel. cbn [decode_loop]. unfold aub_file_more_stuff. rewrite Hmore, E.
    reflexivity.
Qed.

Lemma unknown_records_witness :
  let co := plain_collaborators device_db in
  let f := mapped_file (le_bytes 4 (MAKE_HEADER TYPE_AUB OPCODE_NEW_AUB 0x7f)
                        ++ le_bytes 4 0) in
  let d := decoder_init 0 in
  let f1 := mk_file (map f) 2 1 in
  exists d1 d2,
    aub_file_decode_batch co d f = Done (d1, f1, AUB_ITEM_DECODE_OK)
    /\ decode_loop 2 co d f = Some (Done (d2, f1))
    /\ outfile d2 = [MsgUnknownOpcode 0 1 2; MsgUnknownBlock 7 0x2e 0x7f 0xF77F0000].
Proof.
  intros co f d f1.
  destruct (unknown_records co d f eq_refl) as [_ Hskip].
  destruct (Hskip 1 eq_refl) as (E & O & _ & L).
  { apply (bool_decide_unpack _). vm_compute. exact I. }
  { vm_compute. discriminate. }
  destruct (unknown_records co (print d (MsgUnknownBlock 7 0x2e 0x7f 0xF77F0000)) f1 eq_refl)
    as [Hstop _].
  destruct (Hstop eq_refl) as (_ & O1 & _ & _ & L1).
  do 2 eexists. split; [exact E|]. split.
  - rewrite (L 1%nat). exact (L1 0%nat).
  - exact O1.
Defined.

End AubinatorFacts.

(** * Capture followed by decoding *)

(** ** C2 *)

(** C2 fails on the code for the scenario of the specification. With both
    outputs open the submission returns, and decoding either stream
    produces no execute event at all: the record was never written. The
    rest of the path is sound: once [aub_write_exec], the call the loop
    skips, has written the record to the first stream, decoding gives one
    call of the disassembler, on the ring bytes that start the batch at A's
    address, and the page the decoder holds at that address is A with
    B's address plus 0x10 in the relocation slot. *)
Theorem scenario_yields_no_execute_event :
  (st ← dump_execbuffer2 scenario_env (scenario_state [true; true]) scenario_submit;
   Done ((fun aub => Aubinator.decoded_calls (stream_of aub) 0x4000) <$> aubs st))
  = Done [Some []; Some []]
  /\ (st ← dump_execbuffer2 scenario_env (scenario_state [true; true]) scenario_submit;
      let batch_addr := bo_offset (bos_get (bos st) 1) in
      match aubs st !! 0%nat with
      | None => Crash
      | Some aub =>
        aub ← aub_write_exec aub batch_addr 0x5000 0;
        Done (bo_offset (bos_get (bos st) 2), batch_addr,
              Aubinator.decoded_calls (stream_of aub) batch_addr)
      end)
     = Done (0x1000, 0x4000,
             Some [(le_bytes 4 (Z.lor (Z.lor AUB_MI_BATCH_BUFFER_START
                                                   MI_BATCH_NON_SECURE_I965) 1)
                          ++ le_bytes 8 0x4000 ++ le_bytes 4 0,
                          Some relocated_batch)]).
Proof. split; vm_compute; reflexivity. Qed.

(** * Page tables: what mapping keeps *)

Lemma filled_refl level subs : filled level subs subs.
Proof. intros j. left. reflexivity. Qed.

Lemma filled_trans level s1 s2 s3 :
  filled level s1 s2 -> filled level s2 s3 -> filled level s1 s3.
Proof.
  intros H12 H23 j. destruct (H23 j) as [E | (E & al & E')].
  - rewrite E. apply H12.
  - destruct (H12 j) as [E1 | (E1 & al1 & E1')].
    + right. split; [congruence | eauto].
    + right. split; [exact E1 | eauto].
Qed.

Lemma populate_iter_filled level i st st' :
  populate_iter level i st = Done st' ->
  filled level (pl_subtables st) (pl_subtables st').
Proof.
  unfold populate_iter.
  destruct (negb _); [discriminate|].
  destruct (pl_subtables st !! Z.to_nat i) as [e|] eqn:E; [|discriminate].
  cbv zeta. destruct (is_null e) eqn:N.
  - cbn [pl_subtables pl_allocator pl_entries dirty_start dirty_end].
    rewrite list_lookup_insert_eq by (apply lookup_lt_Some in E; exact E).
    destruct (entry_address level _); try discriminate.
    cbn [mbind outcome_bind bind]. intros [= <-]. cbn [pl_subtables].
    intros j. destruct (Nat.eq_dec j (Z.to_nat i)) as [->|Hne].
    + right. destruct e; try discriminate. split; [exact E|].
      exists (pl_allocator st).
      rewrite list_lookup_insert_eq by (apply lookup_lt_Some in E; exact E).
      reflexivity.
    + left. apply list_lookup_insert_ne. congruence.
  - rewrite E. destruct (entry_address level e); try discriminate.
    cbn [mbind outcome_bind bind]. intros [= <-]. apply filled_refl.
Qed.

Lemma populate_loop_filled level l : forall st st',
  for_each (populate_iter level) l st = Done st' ->
  filled level (pl_subtables st) (pl_subtables st').
Proof.
  induction l as [|i l IH]; intros st st'; cbn [for_each].
  - intros [= <-]. apply filled_refl.
  - destruct (populate_iter level i st) as [st1| | |] eqn:E; try discriminate.
    cbn [mbind outcome_bind bind]. intros H.
    eapply filled_trans; [eapply populate_iter_filled; eauto | eauto].
Qed.

Lemma walk_calloc idxs : walk calloc_table idxs = NULL.
Proof.
  destruct idxs as [|i [|j rest]]; [reflexivity| |].
  - simpl. unfold calloc_table.
    destruct (replicate 512 NULL !! i) eqn:E; [|reflexivity].
    apply lookup_replicate in E as [-> _]. reflexivity.
  - rewrite walk_cons by discriminate. unfold calloc_table.
    destruct (replicate 512 NULL !! i) eqn:E; [|reflexivity].
    apply lookup_replicate in E as [-> _]. reflexivity.
Qed.

Lemma new_slot_page level al a : new_slot level al = PhysPtr a -> a <> 0.
Proof.
  unfold new_slot, ptr_of_Z. destruct (level =? 1); [|discriminate].
  destruct (Z.eqb_spec (wrap64 (Z.shiftl al 12)) 0); [discriminate|].
  intros [= <-]. assumption.
Qed.

(** Filling empty slots of the table at [p] keeps every page, and adds
    none at address 0. *)
Lemma store_filled_walk level root p t subs' :
  deref root p = Some t ->
  filled level (subtables t) subs' ->
  forall idxs a,
    (walk (subtables root) idxs = PhysPtr a ->
     walk (subtables (store root p (mk_table (phys_addr t) subs'))) idxs = PhysPtr a)
    /\ (walk (subtables (store root p (mk_table (phys_addr t) subs'))) idxs = PhysPtr a ->
        walk (subtables root) idxs = PhysPtr a \/ a <> 0).
Proof.
  revert root. induction p as [|i p IH]; intros root H Hf idxs a; simpl in H.
  - inversion H; subst t; clear H. cbn [store subtables].
    destruct idxs as [|j rest]; [split; [discriminate | intros; discriminate]|].
    destruct rest as [|j' rest].
    + cbn [walk]. destruct (Hf j) as [-> | (E & al & E')]; [tauto|].
      rewrite E, E'. cbn. split; [discriminate|].
      intros Hn. right. eapply new_slot_page; eauto.
    + rewrite !walk_cons by discriminate.
      destruct (Hf j) as [-> | (E & al & E')]; [tauto|].
      rewrite E, E'. split; [discriminate|].
      unfold new_slot. destruct (level =? 1).
      * unfold ptr_of_Z. destruct (_ =? 0); discriminate.
      * rewrite walk_calloc. discriminate.
  - destruct (subtables root !! i) as [[|b|b s]|] eqn:E; try discriminate.
    cbn [store]. rewrite E. cbn [subtables].
    assert (Hi : (i < length (subtables root))%nat) by (apply lookup_lt_Some in E; exact E).
    destruct idxs as [|j rest]; [split; [discriminate | intros; discriminate]|].
    destruct (Nat.eq_dec j i) as [->|Hne].
    + destruct rest as [|j' rest].
      * cbn [walk]. rewrite list_lookup_insert_eq by exact Hi. rewrite E.
        cbn. split; discriminate.
      * rewrite !walk_cons by discriminate.
        rewrite list_lookup_insert_eq by exact Hi. rewrite E.
        apply (IH (mk_table b s)); assumption.
    + destruct rest as [|j' rest].
      * cbn [walk]. rewrite list_lookup_insert_ne by auto. tauto.
      * rewrite !walk_cons by discriminate.
        rewrite list_lookup_insert_ne by auto. tauto.
Qed.

Lemma data_out_pml4 aub data aub' : data_out aub data = Done aub' -> pml4 aub' = pml4 aub.
Proof.
  unfold data_out. destruct data; [intros [= <-]; reflexivity|].
  destruct (file aub); [|discriminate]. intros [= <-]. reflexivity.
Qed.

Lemma header_out_pml4 aub addr len space aub' :
  mem_trace_memory_write_header_out aub addr len space = Done aub' ->
  pml4 aub' = pml4 aub.
Proof.
  unfold mem_trace_memory_write_header_out, dword_out. cbv zeta. intros H.
  apply bind_done in H as (a1 & H1 & H). apply bind_done in H as (a2 & H2 & H).
  apply bind_done in H as (a3 & H3 & H). apply bind_done in H as (a4 & H4 & H).
  apply data_out_pml4 in H1, H2, H3, H4, H. congruence.
Qed.

Lemma page_order_refl s : page_order s s.
Proof. split; [intros idxs a H; exact H | auto]. Qed.

Lemma page_order_trans s1 s2 s3 : page_order s1 s2 -> page_order s2 s3 -> page_order s1 s3.
Proof.
  intros [K1 Z1] [K2 Z2]. split; [|auto].
  intros idxs a H. apply K2, K1, H.
Qed.

Lemma populate_page_order aub allocator p start end_ level s' :
  populate_ppgtt_table aub allocator p start end_ level = Done s' ->
  page_order (aub, allocator) s'.
Proof.
  unfold populate_ppgtt_table.
  destruct (deref (pml4 aub) p) as [t|] eqn:D; [|discriminate].
  intros H. apply bind_done in H as (st & Hloop & H).
  apply populate_loop_filled in Hloop. cbn [pl_subtables] in Hloop.
  pose proof (store_filled_walk level (pml4 aub) p t (pl_subtables st) D Hloop) as Hw.
  assert (Hp : pml4 s'.1 = store (pml4 aub) p (mk_table (phys_addr t) (pl_subtables st))).
  { cbv zeta in H. destruct (dirty_start st <=? dirty_end st).
    - apply bind_done in H as (a1 & H1 & H). apply bind_done in H as (a2 & H2 & H).
      injection H as <-. cbn [fst].
      apply header_out_pml4 in H1. apply data_out_pml4 in H2. rewrite H2, H1. reflexivity.
    - injection H as <-. reflexivity. }
  split.
  - intros idxs a Ha. rewrite Hp. apply Hw, Ha.
  - intros Hz idxs Ha. rewrite Hp in Ha. apply Hw in Ha as [Ha | Ha]; [|congruence].
    exact (Hz idxs Ha).
Qed.

Lemma aub_map_ppgtt_page_order aub allocator start size s' :
  aub_map_ppgtt aub allocator start size = Done s' ->
  page_order (aub, allocator) s'.
Proof.
  rewrite aub_map_ppgtt_unfold. cbv zeta. intros H.
  apply bind_done in H as (s1 & H1 & H).
  apply populate_page_order in H1.
  eapply page_order_trans; [exact H1|].
  refine (for_each_order page_order _ _ page_order_refl page_order_trans _ _ _ H).
  clear H.
  intros l4 s2 s2' H. unfold map_l3 in H. cbv zeta in H.
  apply bind_done in H as (s3 & H3 & H). destruct s2 as [a2 al2].
  apply populate_page_order in H3.
  eapply page_order_trans; [exact H3|].
  refine (for_each_order page_order _ _ page_order_refl page_order_trans _ _ _ H).
  clear H.
  intros l3 s4 s4' H. unfold map_l2 in H. cbv zeta in H.
  apply bind_done in H as (s5 & H5 & H). destruct s4 as [a4 al4].
  apply populate_page_order in H5.
  eapply page_order_trans; [exact H5|].
  refine (for_each_order page_order _ _ page_order_refl page_order_trans _ _ _ H).
  clear H.
  intros l2 s6 s6' H. unfold map_l1 in H. cbv zeta in H. destruct s6 as [a6 al6].
  apply populate_page_order in H. exact H.
Qed.

(** [ppgtt_lookup] against the chain of indices of the page. *)
Lemma ppgtt_lookup_walk aub a p :
  p <> 0 ->
  ppgtt_lookup aub a = Done p <-> walk (subtables (pml4 aub)) (page_path a) = PhysPtr p.
Proof.
  intros Hp. unfold ppgtt_lookup, page_path. split.
  - destruct (deref (pml4 aub) (L1_table a)) as [t|] eqn:D; [|discriminate].
    rewrite (deref_walk _ _ _ _ D).
    destruct (subtables t !! Z.to_nat (L1_index a)) as [[|b|b s]|]; try discriminate.
    + intros [= <-]. congruence.
    + intros [= <-]. reflexivity.
  - intros H.
    destruct (present_deref (pml4 aub) (L1_table a) (Z.to_nat (L1_index a))) as (t & D & _).
    { unfold present. rewrite H. discriminate. }
    rewrite D. rewrite (deref_walk _ _ _ _ D) in H.
    destruct (subtables t !! Z.to_nat (L1_index a)) as [[|b|b s]|]; try discriminate.
    injection H as ->. reflexivity.
Qed.

Lemma wf_walk_leaf idxs : forall subs,
  wf_subs (length idxs) subs ->
  walk subs idxs = NULL \/ exists p, walk subs idxs = PhysPtr p.
Proof.
  induction idxs as [|i rest IH]; intros subs Hwf; [left; reflexivity|].
  destruct rest as [|j rest].
  - cbn [walk]. destruct (subs !! i) as [e|] eqn:E; [|left; reflexivity].
    destruct Hwf as [_ Hall]. cbn in Hall.
    pose proof (Forall_lookup_1 _ _ _ _ Hall E) as He. cbn in He.
    destruct e as [|p|p s]; [left; reflexivity | right; eauto | destruct He; congruence].
  - rewrite walk_cons by discriminate.
    destruct (subs !! i) as [[|p|p s]|] eqn:E; try (left; reflexivity).
    destruct Hwf as [_ Hall]. cbn [length] in Hall.
    pose proof (Forall_lookup_1 _ _ _ _ Hall E) as He. cbn beta iota in He.
    apply IH. apply He.
Qed.

Lemma no_zero_page_calloc phys : no_zero_page (mk_table phys calloc_table).
Proof. intros idxs. cbn [subtables]. rewrite walk_calloc. discriminate. Qed.

(** ** Mapping a range makes every page of it translatable *)

(** X1. After [aub_map_ppgtt] on a range of the 48-bit address space,
    [ppgtt_lookup] gives a physical address other than 0 for every address of
    the range; the call uses at most [K4] fresh pages. *)
Theorem aub_map_ppgtt_translates_range aub allocator start size :
  st_ok (aub, allocator) -> no_zero_page (pml4 aub) ->
  0 < allocator -> allocator + K4 <= 2 ^ 52 ->
  valid_range start size ->
  exists aub' allocator',
    aub_map_ppgtt aub allocator start size = Done (aub', allocator')
    /\ allocator <= allocator' <= allocator + K4
    /\ st_ok (aub', allocator') /\ no_zero_page (pml4 aub')
    /\ forall a, start <= a < start + size ->
                 exists p, p <> 0 /\ ppgtt_lookup aub' a = Done p.
Proof.
  intros Hok Hz Ha Hb Hv.
  destruct (aub_map_ppgtt_ok (aub, allocator) start size Hok Ha Hb Hv)
    as ([aub' al'] & E & Hok' & _ & Hal & Hm).
  cbn [fst snd] in E, Hal.
  pose proof (aub_map_ppgtt_page_order _ _ _ _ _ E) as [_ Hz'].
  specialize (Hz' Hz). cbn [fst] in Hz'.
  exists aub', al'. split; [exact E|]. split; [exact Hal|].
  split; [exact Hok'|]. split; [exact Hz'|].
  intros a Hr. specialize (Hm a Hr). unfold mapped, present in Hm. cbn [fst] in Hm.
  destruct (wf_walk_leaf (page_path a) (subtables (pml4 aub'))) as [Hn | [p Hp]].
  - exact (proj1 Hok').
  - contradiction.
  - assert (p <> 0) by (intros ->; exact (Hz' _ Hp)).
    exists p. split; [assumption|]. apply ppgtt_lookup_walk; assumption.
Qed.

Lemma aub_map_ppgtt_translates_range_witness :
  exists aub' allocator',
    aub_map_ppgtt (fresh_aub 9) phys_addrs_allocator_init 0x1000 8192
    = Done (aub', allocator')
    /\ exists p, p <> 0 /\ ppgtt_lookup aub' 0x2abc = Done p.
Proof.
  destruct (aub_map_ppgtt_translates_range (fresh_aub 9) phys_addrs_allocator_init
                                           0x1000 8192)
    as (aub' & al' & E & _ & _ & _ & H).
  - split; [apply wf_calloc | eexists; reflexivity].
  - apply no_zero_page_calloc.
  - vm_compute; reflexivity.
  - vm_compute; discriminate.
  - unfold valid_range; lia.
  - exists aub', al'. split; [exact E|]. apply H. lia.
Defined.

(** ** Mapping never moves a page *)

(** X2. A translation [ppgtt_lookup] gives before [aub_map_ppgtt] is the one it
    gives after, whatever range is mapped. *)
Theorem aub_map_ppgtt_keeps_translations aub allocator start size aub' allocator' :
  aub_map_ppgtt aub allocator start size = Done (aub', allocator') ->
  forall a p, p <> 0 -> ppgtt_lookup aub a = Done p -> ppgtt_lookup aub' a = Done p.
Proof.
  intros E a p Hp H.
  apply aub_map_ppgtt_page_order in E as [Hk _].
  apply ppgtt_lookup_walk; [exact Hp|].
  apply (Hk (page_path a) p). apply ppgtt_lookup_walk; assumption.
Qed.

Lemma aub_map_ppgtt_keeps_translations_witness :
  aub_map_ppgtt remapped_aub 0x23 0x200000 8192 = Done (mapped_twice.1, mapped_twice.2)
  /\ ppgtt_lookup remapped_aub 0x1000 = Done 0x22000
  /\ ppgtt_lookup mapped_twice.1 0x1000 = Done 0x22000.
Proof.
  assert (E : aub_map_ppgtt remapped_aub 0x23 0x200000 8192
              = Done (mapped_twice.1, mapped_twice.2)) by (vm_compute; reflexivity).
  assert (L : ppgtt_lookup remapped_aub 0x1000 = Done 0x22000) by (vm_compute; reflexivity).
  split; [exact E|]. split; [exact L|].
  apply (aub_map_ppgtt_keeps_translations _ _ _ _ _ _ E 0x1000 0x22000);
    [discriminate | exact L].
Defined.

(** * Relocations: canonical form and frame *)

(** X3. [aub_write_reloc] on a device of generation 8 or later stores a value
    below 2^47 as it is (the case the source expects: "in practice ... the
    top bits are zero"), stores a 64-bit value whatever it is given, and
    storing what was stored changes nothing. *)
Theorem aub_write_reloc_canonical_fixpoint di buf off v buf' :
  aub_write_reloc di buf off v = Done buf' -> 0 <= off -> 8 <= gen di ->
  0 <= le_value (slice buf' off 8) < 2 ^ 64
  /\ aub_write_reloc di buf' off (le_value (slice buf' off 8)) = Done buf'
  /\ (0 <= v < 2 ^ 47 -> le_value (slice buf' off 8) = v).
Proof.
  intros H Hoff Hg.
  destruct (aub_write_reloc_spec _ _ _ _ _ H Hoff) as [H8 _]. specialize (H8 Hg).
  assert (Hc : 0 <= canonical_address v < 2 ^ 64).
  { unfold canonical_address, wrap64. apply Z.mod_pos_bound. lia. }
  assert (Hv : le_value (slice buf' off 8) = canonical_address v).
  { rewrite H8, le_value_le_bytes. apply Z.mod_small. exact Hc. }
  rewrite Hv. split; [exact Hc|]. split.
  - assert (Hi : canonical_address (canonical_address v) = canonical_address v).
    { rewrite (canonical_address_value (canonical_address v)), canonical_address_low.
      symmetry. apply canonical_address_value. }
    assert (Hb : buf' = blit buf off (le_bytes 8 (canonical_address v))
                 /\ off + 8 <= Z.of_nat (length buf)).
    { unfold aub_write_reloc in H. replace (8 <=? gen di) with true in H by lia.
      destruct (Z.leb_spec (off + 8) (Z.of_nat (length buf))); [|discriminate].
      split; [congruence | assumption]. }
    destruct Hb as [-> Hb]. clear H H8 Hv.
    assert (Hl : length (blit buf off (le_bytes 8 (canonical_address v))) = length buf).
    { unfold blit. rewrite !length_app, length_take, length_drop, length_le_bytes. lia. }
    unfold aub_write_reloc. replace (8 <=? gen di) with true by lia.
    rewrite Hl. replace (off + 8 <=? Z.of_nat (length buf)) with true by lia.
    rewrite Hi.
    f_equal. unfold blit.
    rewrite take_app_le by (rewrite length_take; lia).
    rewrite take_take. replace (Z.to_nat off `min` Z.to_nat off)%nat with (Z.to_nat off) by lia.
    f_equal. f_equal.
    rewrite length_le_bytes.
    rewrite drop_app_ge by (rewrite length_take; lia).
    rewrite length_take.
    replace (Z.to_nat off + 8 - Z.to_nat off `min` length buf)%nat with 8%nat by lia.
    rewrite drop_app_ge by (rewrite length_le_bytes; lia).
    rewrite length_le_bytes, drop_drop. f_equal. lia.
  - intros Hlow. rewrite canonical_address_value.
    rewrite Z.mod_small by lia. replace (2 ^ 47 <=? v) with false by lia. lia.
Qed.

Lemma aub_write_reloc_canonical_fixpoint_witness :
  let buf' := blit (replicate 16 0) 4 (le_bytes 8 0x1010) in
  0 <= le_value (slice buf' 4 8) < 2 ^ 64
  /\ aub_write_reloc (mk_devinfo 9 0) buf' 4 (le_value (slice buf' 4 8)) = Done buf'
  /\ (0 <= 0x1010 < 2 ^ 47 -> le_value (slice buf' 4 8) = 0x1010).
Proof.
  apply (aub_write_reloc_canonical_fixpoint (mk_devinfo 9 0) (replicate 16 0) 4 0x1010).
  - reflexivity.
  - lia.
  - simpl. lia.
Defined.

(** X4. [relocate_bo] works on a private copy of the first [bo->size] bytes of
    the buffer, keeps its length, and changes no byte outside the slots of
    the relocation entries, each of which starts inside the buffer. *)
Theorem relocate_bo_frame di m b eb obj relocated :
  relocate_bo di m b eb obj = Done relocated ->
  (forall r, r ∈ relocs obj -> 0 <= reloc_offset r) ->
  exists contents,
    GET_PTR (bo_map b) = Some contents
    /\ length relocated = length (slice contents 0 (bo_size b))
    /\ (forall r, r ∈ relocs obj -> reloc_offset r < bo_size b)
    /\ forall k : nat,
         (forall r, r ∈ relocs obj ->
                    ~ (reloc_offset r <= Z.of_nat k < reloc_offset r + reloc_width di)) ->
         relocated !! k = slice contents 0 (bo_size b) !! k.
Proof.
  unfold relocate_bo. destruct (GET_PTR (bo_map b)) as [contents|]; [|discriminate].
  intros H Hpos. exists contents. split; [reflexivity|].
  revert H. generalize (slice contents 0 (bo_size b)) as buf.
  induction (relocs obj) as [|r l IH]; intros buf H.
  - injection H as <-. split; [reflexivity|]. split; [|reflexivity].
    intros r Hr. inversion Hr.
  - cbn [for_each] in H. apply bind_done in H as (buf1 & H1 & H).
    apply relocate_entry_frame in H1 as (L1 & B1 & F1); [|apply Hpos; left].
    destruct (IH (fun r Hr => Hpos r (proj2 (elem_of_cons _ _ _) (or_intror Hr))) buf1 H)
      as (L2 & B2 & F2).
    split; [congruence|]. split.
    + intros r' Hr'. apply elem_of_cons in Hr' as [-> | Hr']; auto.
    + intros k Hk. rewrite F2, F1; [reflexivity| |].
      * apply Hk. left.
      * intros r' Hr'. apply Hk. right. exact Hr'.
Qed.

Lemma relocate_bo_frame_witness :
  let m : gmap Z bo := <[2 := mk_bo 8192 0x1000 MapNull]> ∅ in
  let contents := replicate 64 1 in
  let relocated := blit contents 0x20 (le_bytes 8 0x1010) in
  relocate_bo (mk_devinfo 9 0) m (mk_bo 64 0 (Mapped false contents))
              (mk_execbuffer2 [] 0 0) (mk_obj 1 [mk_reloc 2 0x10 0x20] 0 0 0)
  = Done relocated
  /\ relocated !! 3%nat = Some 1.
Proof.
  intros m contents relocated.
  assert (E : relocate_bo (mk_devinfo 9 0) m (mk_bo 64 0 (Mapped false contents))
                          (mk_execbuffer2 [] 0 0) (mk_obj 1 [mk_reloc 2 0x10 0x20] 0 0 0)
              = Done relocated) by reflexivity.
  split; [exact E|].
  destruct (relocate_bo_frame _ _ _ _ _ _ E) as (c & Hc & _ & _ & F).
  - intros r Hr. apply list_elem_of_singleton in Hr as ->. simpl. lia.
  - injection Hc as <-. rewrite F; [reflexivity|].
    intros r Hr. apply list_elem_of_singleton in Hr as ->. simpl. unfold reloc_width. simpl. lia.
Defined.

(** * The intercepted [ioctl] *)

Lemma same_config_refl s : same_config s s.
Proof. repeat split. Qed.

Lemma same_config_trans s1 s2 s3 :
  same_config s1 s2 -> same_config s2 s3 -> same_config s1 s3.
Proof. unfold same_config. intros (?&?&?) (?&?&?). repeat split; congruence. Qed.

Lemma for_open_files_config st op st' :
  for_open_files st op = Done st' -> same_config st st'.
Proof.
  unfold for_open_files.
  refine (for_each_order same_config _ _ same_config_refl same_config_trans _ _ _).
  intros i s s' H.
  destruct (files s !! i) as [[|]|]; try (injection H as <-; apply same_config_refl).
  destruct (aubs s !! i) as [aub|]; try (injection H as <-; apply same_config_refl).
  apply bind_done in H as ([a al] & _ & H). injection H as <-. repeat split.
Qed.

Lemma assign_offsets_config env obj r r' :
  assign_offsets_step env obj r = Done r' ->
  same_config (first_pass_state r) (first_pass_state r').
Proof.
  unfold assign_offsets_step. destruct r as [st off | st].
  - intros H. apply bind_done in H as (b & _ & H).
    destruct (bo_size b =? 0); [injection H as <-; apply same_config_refl|].
    destruct (if negb _ then _ else _) as [b1 off1].
    apply bind_done in H as (_ & _ & H). apply bind_done in H as (st1 & H1 & H).
    injection H as <-. apply for_open_files_config in H1. exact H1.
  - intros [= <-]. apply same_config_refl.
Qed.

Lemma write_buffers_config eb h obj st st' :
  write_buffers_step eb h obj st = Done st' -> same_config st st'.
Proof.
  unfold write_buffers_step. intros H.
  apply bind_done in H as (b & _ & H). apply bind_done in H as (data & _ & H).
  revert H.
  refine (for_each_order same_config _ _ same_config_refl same_config_trans _ _ _).
  intros i s s' H.
  destruct (files s !! i) as [[|]|]; try (injection H as <-; apply same_config_refl).
  destruct (aubs s !! i) as [aub|]; try (injection H as <-; apply same_config_refl).
  destruct (aub_write_trace_block _ _ _ _ _); [|discriminate].
  apply bind_done in H as (a & _ & H). injection H as <-. repeat split.
Qed.

Lemma write_exec_step_config batch_addr offset ring_flag i st st' :
  write_exec_step batch_addr offset ring_flag i st = Done st' -> same_config st st'.
Proof.
  unfold write_exec_step.
  destruct (files st !! i) as [[|]|]; try discriminate.
  - destruct (aubs st !! i); [|discriminate]. intros [= <-]. apply same_config_refl.
  - destruct (aubs st !! i) as [aub|]; [|discriminate]. intros H.
    apply bind_done in H as (a & _ & H). injection H as <-. repeat split.
Qed.

Lemma dump_execbuffer2_init_config env st st' :
  dump_execbuffer2_init env st = Done st' -> same_config st st'.
Proof.
  unfold dump_execbuffer2_init. intros H. apply bind_done in H as (st1 & H1 & H).
  assert (C1 : same_config st st1).
  { destruct (device st =? 0).
    - apply bind_done in H1 as (_ & _ & H1). injection H1 as <-. repeat split.
    - injection H1 as <-. apply same_config_refl. }
  apply (same_config_trans _ _ _ C1). clear C1 H1.
  destruct (gen (shim_devinfo st1) =? 0); [|injection H as <-; apply same_config_refl].
  destruct (gen_get_device_info env (device st1)) as [di|]; [|discriminate].
  eapply same_config_trans;
    [|refine (for_each_order same_config _ _ same_config_refl same_config_trans _ _ _ H)].
  - repeat split.
  - intros i s s' Hs.
    destruct (files s !! i) as [[|]|]; try (injection Hs as <-; apply same_config_refl).
    apply bind_done in Hs as (a & _ & Hs). apply bind_done in Hs as (a' & _ & Hs).
    injection Hs as <-. repeat split.
Qed.

Lemma dump_execbuffer2_config env st eb st' :
  dump_execbuffer2 env st eb = Done st' -> same_config st st'.
Proof.
  unfold dump_execbuffer2. cbv zeta. intros H.
  apply bind_done in H as (st0 & H0 & H). apply dump_execbuffer2_init_config in H0.
  apply (same_config_trans _ _ _ H0).
  apply bind_done in H as (any_aub & _ & H).
  apply bind_done in H as (r & Hr & H).
  assert (Cr : same_config st0 (first_pass_state r)).
  { refine (for_each_order (fun a b => same_config (first_pass_state a) (first_pass_state b))
              _ _ _ _ _ _ _ Hr).
    - intros s. apply same_config_refl.
    - intros s1 s2 s3. apply same_config_trans.
    - intros obj s s'. apply assign_offsets_config. }
  apply (same_config_trans _ _ _ Cr). clear Cr Hr.
  destruct r as [st1 off | st1]; [|injection H as <-; apply same_config_refl].
  cbn [first_pass_state].
  destruct (buffers eb !! _) as [batch_obj|]; [|discriminate].
  apply bind_done in H as (bb & _ & H). apply bind_done in H as (st2 & H2 & H).
  assert (C2 : same_config st1 st2).
  { refine (for_each_order same_config _ _ same_config_refl same_config_trans _ _ _ H2).
    intros obj s s'. apply write_buffers_config. }
  apply (same_config_trans _ _ _ C2).
  apply bind_done in H as (bb2 & _ & H).
  unfold write_exec_loop in H.
  refine (for_each_order same_config _ _ same_config_refl same_config_trans _ _ _ H).
  intros i s s'. apply write_exec_step_config.
Qed.

Lemma add_new_bo_done m h size map m' :
  add_new_bo m h size map = Done m' ->
  0 <= h < MAX_BO_COUNT /\ size <> 0
  /\ m' = <[h := mk_bo (wrap32 size) (bo_offset (bos_get m h)) map]> m.
Proof.
  unfold add_new_bo, fail_if.
  destruct (Z.leb_spec MAX_BO_COUNT h); [discriminate|].
  destruct (Z.eqb_spec size 0); [discriminate|].
  cbn [mbind outcome_bind bind].
  destruct (Z.ltb_spec h 0); [discriminate|].
  intros [= <-]. auto with lia.
Qed.

Lemma to_int_small h : 0 <= h < 2 ^ 31 -> to_int h = h.
Proof.
  intros H. unfold to_int, wrap32. cbv zeta. rewrite Z.mod_small by lia.
  replace (h <? 2 ^ 31) with true by lia. reflexivity.
Qed.

Lemma remove_bo_done m h m' :
  remove_bo m h = Done m' ->
  h < MAX_BO_COUNT /\ m' = <[h := mk_bo 0 (bo_offset (bos_get m h)) MapNull]> m.
Proof.
  unfold remove_bo, get_bo, fail_if.
  destruct (Z.leb_spec MAX_BO_COUNT h); [discriminate|].
  intros [= <-]. auto.
Qed.

(** ** The shim is transparent *)

(** X5. Whatever the request, [ioctl] keeps the configuration; without a device
    override it returns what the kernel returned; only a submission writes
    to the output streams or moves the page allocator; and a request to
    register a buffer that the kernel refused changes nothing. *)
Theorem ioctl_transparent env st request libc_ret st' r v :
  ioctl env st request libc_ret = Done (st', r, v) ->
  same_config st st'
  /\ (device_override st = false -> r = libc_ret)
  /\ (is_submission request = false ->
      aubs st' = aubs st /\ phys_addrs_allocator st' = phys_addrs_allocator st
      /\ shim_devinfo st' = shim_devinfo st)
  /\ (registers_buffer request = true -> libc_ret <> 0 -> st' = st).
Proof.
  destruct request; cbn [ioctl is_submission registers_buffer]; intros H.
  - destruct (device_override st) eqn:O; cbn [andb] in H.
    + destruct (param =? I915_PARAM_CHIPSET_ID); injection H as <- <- <-;
        repeat split; try discriminate.
    + destruct (param =? I915_PARAM_CHIPSET_ID); injection H as <- <- <-;
        repeat split; try discriminate; auto.
  - injection H as <- <- <-. repeat split; discriminate.
  - apply bind_done in H as (st1 & H1 & H). apply dump_execbuffer2_config in H1.
    assert (device_override st1 = device_override st) as E by apply H1.
    rewrite E in H.
    destruct (device_override st); injection H as <- <- <-;
      repeat split; try apply H1; try discriminate.
  - destruct (Z.eqb_spec libc_ret 0).
    + apply bind_done in H as (m & _ & H). injection H as <- <- <-.
      repeat split; try discriminate. congruence.
    + injection H as <- <- <-. repeat split.
  - destruct (Z.eqb_spec libc_ret 0).
    + apply bind_done in H as (m & _ & H). injection H as <- <- <-.
      repeat split; try discriminate. congruence.
    + injection H as <- <- <-. repeat split.
  - apply bind_done in H as (m & _ & H). injection H as <- <- <-.
    repeat split; discriminate.
  - destruct (Z.eqb_spec libc_ret 0).
    + apply bind_done in H as (m & _ & H). injection H as <- <- <-.
      repeat split; try discriminate. congruence.
    + injection H as <- <- <-. repeat split.
  - destruct (Z.eqb_spec libc_ret 0).
    + apply bind_done in H as (u & _ & H). apply bind_done in H as (m & _ & H).
      injection H as <- <- <-. repeat split; try discriminate. congruence.
    + injection H as <- <- <-. repeat split.
  - injection H as <- <- <-. repeat split; discriminate.
Qed.

Lemma ioctl_transparent_witness :
  let st := scenario_state [true; false] in
  let st' := set_bos st (<[7 := mk_bo 4096 0 MapNull]> (bos st)) in
  ioctl scenario_env st (DRM_IOCTL_I915_GEM_CREATE 7 4096) 0 = Done (st', 0, None)
  /\ same_config st st'.
Proof.
  intros st st'.
  assert (E : ioctl scenario_env st (DRM_IOCTL_I915_GEM_CREATE 7 4096) 0 = Done (st', 0, None))
    by reflexivity.
  split; [exact E|].
  exact (proj1 (ioctl_transparent _ _ _ _ _ _ _ E)).
Defined.

Lemma dump_execbuffer2_init_bos env st st' :
  dump_execbuffer2_init env st = Done st' -> bos st' = bos st.
Proof.
  unfold dump_execbuffer2_init. intros H. apply bind_done in H as (st1 & H1 & H).
  assert (C1 : bos st1 = bos st).
  { destruct (device st =? 0).
    - apply bind_done in H1 as (_ & _ & H1). injection H1 as <-. reflexivity.
    - injection H1 as <-. reflexivity. }
  rewrite <- C1. clear C1 H1.
  destruct (gen (shim_devinfo st1) =? 0); [|injection H as <-; reflexivity].
  destruct (gen_get_device_info env (device st1)) as [di|]; [|discriminate].
  refine (for_each_order (fun s s' => bos s' = bos s) _ _ _ _ _ _ _ H).
  - reflexivity.
  - intros s1 s2 s3 E1 E2. congruence.
  - intros i s s' Hs.
    destruct (files s !! i) as [[|]|]; try (injection Hs as <-; reflexivity).
    apply bind_done in Hs as (a & _ & Hs). apply bind_done in Hs as (a' & _ & Hs).
    injection Hs as <-. reflexivity.
Qed.

Lemma dump_execbuffer2_init_done env st :
  device st <> 0 -> gen (shim_devinfo st) <> 0 -> dump_execbuffer2_init env st = Done st.
Proof.
  intros Hd Hg. unfold dump_execbuffer2_init.
  destruct (Z.eqb_spec (device st) 0); [contradiction|].
  cbn [mbind outcome_bind bind].
  destruct (Z.eqb_spec (gen (shim_devinfo st)) 0); [contradiction|]. reflexivity.
Qed.

(** A submission whose first buffer has size zero returns the globals as
    the initialisation block left them. *)
Lemma zero_size_first_buffer env st st0 eb obj rest libc_ret :
  dump_execbuffer2_init env st = Done st0 ->
  is_Some (if default false (files st0 !! 0%nat) then aubs st0 !! 0%nat
           else aubs st0 !! 1%nat) ->
  buffers eb = obj :: rest ->
  handle obj < MAX_BO_COUNT ->
  bo_size (bos_get (bos st) (handle obj)) = 0 ->
  ioctl env st (DRM_IOCTL_I915_GEM_EXECBUFFER2 eb) libc_ret
  = Done (st0, if device_override st then 0 else libc_ret, None).
Proof.
  intros Hinit [any Hany] Hb Hh Hs. cbn [ioctl].
  assert (E : dump_execbuffer2 env st eb = Done st0).
  { unfold dump_execbuffer2. cbv zeta. rewrite Hinit.
    cbn [mbind outcome_bind bind].
    rewrite Hany. cbn [mbind outcome_bind bind].
    rewrite Hb. cbn [for_each].
    rewrite assign_offsets_zero_size;
      [|assumption | rewrite (dump_execbuffer2_init_bos _ _ _ Hinit); assumption].
    cbn [mbind outcome_bind bind].
    rewrite assign_offsets_returned. reflexivity. }
  rewrite E. cbn [mbind outcome_bind bind].
  destruct (dump_execbuffer2_init_config _ _ _ Hinit) as (_ & _ & ->).
  destruct (device_override st); reflexivity.
Qed.

(** ** Buffers: registration, truncation, use after close *)

(** X6. [DRM_IOCTL_I915_GEM_CREATE] accepted by the kernel registers the handle
    with the low 32 bits of the size, no mapping, and the offset the handle
    had; the other handles are as they were. [DRM_IOCTL_GEM_CLOSE] sets the
    size to zero. A submission whose first buffer is a handle that was
    closed, or created with a size that is a multiple of 2^32, returns
    with the globals as the initialisation block of [dump_execbuffer2] left
    them: no buffer contents and no execute record are written. That
    block writes the headers of the first submission; once the shim holds
    a chipset id and a generation it changes nothing, and the submission
    leaves the globals as they were. *)
Theorem buffer_lifecycle env st h size map_ret :
  0 <= h < MAX_BO_COUNT -> size <> 0 ->
  exists st1 st2,
    ioctl env st (DRM_IOCTL_I915_GEM_CREATE h size) 0 = Done (st1, 0, None)
    /\ get_bo (bos st1) h
       = Done (mk_bo (size mod 2 ^ 32) (bo_offset (bos_get (bos st) h)) MapNull)
    /\ (forall h', h' <> h -> bos_get (bos st1) h' = bos_get (bos st) h')
    /\ ioctl env st1 (DRM_IOCTL_GEM_CLOSE h) map_ret = Done (st2, map_ret, None)
    /\ bo_size (bos_get (bos st2) h) = 0
    /\ (forall h', h' <> h -> bos_get (bos st2) h' = bos_get (bos st) h')
    /\ forall eb obj rest libc_ret,
         buffers eb = obj :: rest -> handle obj = h ->
         (forall st0,
             dump_execbuffer2_init env st2 = Done st0 ->
             is_Some (if default false (files st0 !! 0%nat) then aubs st0 !! 0%nat
                      else aubs st0 !! 1%nat) ->
             ioctl env st2 (DRM_IOCTL_I915_GEM_EXECBUFFER2 eb) libc_ret
             = Done (st0, if device_override st then 0 else libc_ret, None))
         /\ (size mod 2 ^ 32 = 0 ->
             forall st0,
               dump_execbuffer2_init env st1 = Done st0 ->
               is_Some (if default false (files st0 !! 0%nat) then aubs st0 !! 0%nat
                        else aubs st0 !! 1%nat) ->
               ioctl env st1 (DRM_IOCTL_I915_GEM_EXECBUFFER2 eb) libc_ret
               = Done (st0, if device_override st then 0 else libc_ret, None))
         /\ (device st <> 0 -> gen (shim_devinfo st) <> 0 ->
             dump_execbuffer2_init env st2 = Done st2
             /\ dump_execbuffer2_init env st1 = Done st1).
Proof.
  intros Hh Hs.
  set (b1 := mk_bo (wrap32 size) (bo_offset (bos_get (bos st) h)) MapNull).
  set (st1 := set_bos st (<[h := b1]> (bos st))).
  set (b2 := mk_bo 0 (bo_offset (bos_get (bos st1) h)) MapNull).
  set (st2 := set_bos st1 (<[h := b2]> (bos st1))).
  assert (G1 : bos_get (bos st1) h = b1).
  { unfold bos_get, st1. cbn [bos set_bos]. rewrite lookup_insert_eq. reflexivity. }
  assert (G2 : bos_get (bos st2) h = b2).
  { unfold bos_get, st2. cbn [bos set_bos]. rewrite lookup_insert_eq. reflexivity. }
  exists st1, st2.
  split.
  { cbn [ioctl]. rewrite to_int_small by (unfold MAX_BO_COUNT in Hh; lia).
    unfold add_new_bo, fail_if.
    replace (MAX_BO_COUNT <=? h) with false by lia.
    destruct (Z.eqb_spec size 0); [contradiction|].
    cbn [mbind outcome_bind bind]. replace (h <? 0) with false by lia. reflexivity. }
  split.
  { unfold get_bo, fail_if. replace (MAX_BO_COUNT <=? h) with false by lia.
    cbn [mbind outcome_bind bind]. rewrite G1. reflexivity. }
  split.
  { intros h' Hne. unfold bos_get, st1. cbn [bos set_bos].
    rewrite lookup_insert_ne by congruence. reflexivity. }
  split.
  { cbn [ioctl]. unfold remove_bo, get_bo, fail_if.
    replace (MAX_BO_COUNT <=? h) with false by lia. reflexivity. }
  split; [rewrite G2; reflexivity|].
  split.
  { intros h' Hne. unfold bos_get, st2, st1. cbn [bos set_bos].
    rewrite !lookup_insert_ne by congruence. reflexivity. }
  intros eb obj rest libc_ret Hb Ho. split; [|split].
  - intros st0 Hinit Hany.
    apply (zero_size_first_buffer env st2 st0 eb obj rest libc_ret); auto.
    + rewrite Ho. lia.
    + rewrite Ho, G2. reflexivity.
  - intros Hz st0 Hinit Hany.
    apply (zero_size_first_buffer env st1 st0 eb obj rest libc_ret); auto.
    + rewrite Ho. lia.
    + rewrite Ho, G1. exact Hz.
  - intros Hd Hg. split; apply dump_execbuffer2_init_done; assumption.
Qed.

Lemma buffer_lifecycle_witness :
  let st := mk_shim [true; true] 0 false 0x1912 (mk_devinfo 9 12)
                    [fresh_aub 9; fresh_aub 9] scenario_bos 30 in
  let eb := mk_execbuffer2 [mk_obj 7 [] 0 0 0] 0 0 in
  exists st1 st2,
    ioctl scenario_env st (DRM_IOCTL_I915_GEM_CREATE 7 (2 ^ 32)) 0 = Done (st1, 0, None)
    /\ get_bo (bos st1) 7 = Done (mk_bo 0 0 MapNull)
    /\ ioctl scenario_env st1 (DRM_IOCTL_I915_GEM_EXECBUFFER2 eb) 0 = Done (st1, 0, None)
    /\ ioctl scenario_env st1 (DRM_IOCTL_GEM_CLOSE 7) 0 = Done (st2, 0, None)
    /\ ioctl scenario_env st2 (DRM_IOCTL_I915_GEM_EXECBUFFER2 eb) 0 = Done (st2, 0, None).
Proof.
  intros st eb.
  destruct (buffer_lifecycle scenario_env st 7 (2 ^ 32) 0)
    as (st1 & st2 & E & G & _ & C & _ & _ & S).
  - unfold MAX_BO_COUNT; lia.
  - lia.
  - destruct (S eb (mk_obj 7 [] 0 0 0) [] 0 eq_refl eq_refl) as (S2 & S1 & I).
    destruct I as [I2 I1]; [simpl; lia | simpl; lia |].
    exists st1, st2. split; [exact E|]. split; [exact G|].
    split; [|split; [exact C|]].
    + apply (S1 eq_refl st1 I1).
      injection E as <-. eexists; reflexivity.
    + apply (S2 st2 I2).
      injection E as <-. injection C as <-. eexists; reflexivity.
Defined.

(** ** Identifying the chipset *)

Lemma init_loop_device env l st st' :
  for_each (fun i st =>
    match files st !! i with
    | Some true =>
      aub ← aub_file_init (Some []) (device st)
                          (gen_get_device_info env (device st));
      aub ← aub_write_header aub (program_invocation_short_name env);
      Done (mk_shim (files st) (verbose st) (device_override st) (device st)
                    (shim_devinfo st) (<[i := aub]> (aubs st)) (bos st)
                    (phys_addrs_allocator st))
    | _ => Done st
    end) l st = Done st' ->
  device st' = device st /\ shim_devinfo st' = shim_devinfo st.
Proof.
  refine (for_each_order
            (fun s s' => device s' = device s /\ shim_devinfo s' = shim_devinfo s)
            _ _ _ _ _ _ _).
  - auto.
  - intros s1 s2 s3 [? ?] [? ?]. split; congruence.
  - intros i s s' H.
    destruct (files s !! i) as [[|]|]; try (injection H as <-; auto).
    apply bind_done in H as (a & _ & H). apply bind_done in H as (a' & _ & H).
    injection H as <-. auto.
Qed.

(** X7. A submission made while the shim holds no chipset id stops the process,
    whatever id the kernel would report: [devinfo.gen] is still 0 when the
    first [fail_if] tests it. Once the initialisation of [dump_execbuffer2]
    has returned on a device database without generation 0, the shim holds
    an id and a generation, and the initialisation does nothing more: each
    output gets its header once. *)
Theorem chipset_identification env st :
  (device st = 0 -> gen (shim_devinfo st) = 0 ->
   forall eb libc_ret,
     ioctl env st (DRM_IOCTL_I915_GEM_EXECBUFFER2 eb) libc_ret
     = Trap "failed to identify chipset")
  /\ (forall st',
        dump_execbuffer2_init env st = Done st' ->
        (forall id di, gen_get_device_info env id = Some di -> gen di <> 0) ->
        device st' <> 0 /\ gen (shim_devinfo st') <> 0
        /\ dump_execbuffer2_init env st' = Done st').
Proof.
  split.
  - intros Hd Hg eb libc_ret. cbn [ioctl]. unfold dump_execbuffer2, dump_execbuffer2_init.
    cbv zeta. rewrite Hd, Hg. cbn [Z.eqb]. unfold fail_if.
    rewrite orb_true_r. reflexivity.
  - intros st' H Hdb. unfold dump_execbuffer2_init in H.
    apply bind_done in H as (st1 & H1 & H).
    assert (Hd1 : device st1 <> 0 /\ shim_devinfo st1 = shim_devinfo st).
    { destruct (Z.eqb_spec (device st) 0) as [E0 | E0].
      - unfold fail_if in H1.
        destruct (Z.eqb_spec (gem_get_param_chipset_id env) 0); [discriminate|].
        destruct (gen (shim_devinfo st) =? 0); [discriminate|].
        injection H1 as <-. auto.
      - injection H1 as <-. auto. }
    destruct Hd1 as [Hd1 Hi1].
    assert (Hst' : device st' <> 0 /\ gen (shim_devinfo st') <> 0).
    { destruct (Z.eqb_spec (gen (shim_devinfo st1)) 0) as [E | E].
      - destruct (gen_get_device_info env (device st1)) as [di|] eqn:Edb; [|discriminate].
        apply init_loop_device in H as [Hdev Hinfo]. cbn [device shim_devinfo] in Hdev, Hinfo.
        rewrite Hdev, Hinfo. split; [exact Hd1 | eapply Hdb; eauto].
      - injection H as <-. auto. }
    destruct Hst' as [Hd' Hg'].
    split; [exact Hd'|]. split; [exact Hg'|].
    unfold dump_execbuffer2_init.
    destruct (Z.eqb_spec (device st') 0); [contradiction|].
    cbn [mbind outcome_bind bind].
    destruct (Z.eqb_spec (gen (shim_devinfo st')) 0); [contradiction|]. reflexivity.
Qed.

Lemma chipset_identification_witness :
  ioctl scenario_env
        (mk_shim [true; false] 0 false 0 (mk_devinfo 0 0) [zero_aub; zero_aub]
                 scenario_bos phys_addrs_allocator_init)
        (DRM_IOCTL_I915_GEM_EXECBUFFER2 scenario_submit) 0
  = Trap "failed to identify chipset"
  /\ dump_execbuffer2_init scenario_env (scenario_state [true; false])
     = Done scenario_initialised
  /\ dump_execbuffer2_init scenario_env scenario_initialised = Done scenario_initialised.
Proof.
  split; [apply (proj1 (chipset_identification scenario_env _)); reflexivity|].
  assert (R : returns (dump_execbuffer2_init scenario_env (scenario_state [true; false]))
              = true) by (vm_compute; reflexivity).
  assert (E : dump_execbuffer2_init scenario_env (scenario_state [true; false])
              = Done scenario_initialised).
  { unfold scenario_initialised.
    destruct (dump_execbuffer2_init scenario_env (scenario_state [true; false]));
      [reflexivity | discriminate R | discriminate R | discriminate R]. }
  split; [exact E|].
  apply (proj2 (chipset_identification scenario_env _) _ E).
  intros id di. cbn [gen_get_device_info scenario_env]. unfold device_db.
  destruct (id =? 6418); [|discriminate]. intros [= <-]. discriminate.
Defined.

(** * Placement of the buffers of a submission *)

Lemma ldiff_bounds x m : 0 <= x -> 0 <= m -> x - m <= Z.ldiff x m <= x.
Proof.
  intros Hx Hm.
  assert (E1 : x - Z.land x m = Z.ldiff x m).
  { rewrite Z.sub_nocarry_ldiff.
    - apply Z.bits_inj'; intros n Hn.
      rewrite !Z.ldiff_spec, Z.land_spec.
      destruct (Z.testbit x n), (Z.testbit m n); reflexivity.
    - apply Z.bits_inj'; intros n Hn.
      rewrite !Z.ldiff_spec, Z.land_spec, Z.bits_0.
      destruct (Z.testbit x n), (Z.testbit m n); reflexivity. }
  assert (E2 : m - Z.land x m = Z.ldiff m x).
  { rewrite Z.sub_nocarry_ldiff.
    - apply Z.bits_inj'; intros n Hn.
      rewrite !Z.ldiff_spec, Z.land_spec.
      destruct (Z.testbit x n), (Z.testbit m n); reflexivity.
    - apply Z.bits_inj'; intros n Hn.
      rewrite !Z.ldiff_spec, Z.land_spec, Z.bits_0.
      destruct (Z.testbit x n), (Z.testbit m n); reflexivity. }
  assert (0 <= Z.land x m) by (apply Z.land_nonneg; auto).
  assert (0 <= Z.ldiff m x) by (apply Z.ldiff_nonneg; auto).
  lia.
Qed.

Lemma align_u32_bounds v a :
  0 <= v -> 0 < a -> v + a - 1 < 2 ^ 32 -> v <= align_u32 v a <= v + a - 1.
Proof.
  intros Hv Ha Hb. unfold align_u32, wrap32.
  rewrite (Z.mod_small (v + a - 1)), (Z.mod_small (a - 1)) by lia.
  rewrite <- Z.ldiff_land.
  pose proof (ldiff_bounds (v + a - 1) (a - 1) ltac:(lia) ltac:(lia)).
  rewrite Z.mod_small by lia. lia.
Qed.

Lemma align_u32_page v : 0 <= v -> (align_u32 v 4096) mod 4096 = 0.
Proof.
  intros Hv. unfold align_u32.
  change (Z.lnot (wrap32 (4096 - 1))) with (Z.lnot (Z.ones 12)).
  rewrite <- Z.ldiff_land, Z.ldiff_ones_r by lia.
  rewrite Z.shiftl_mul_pow2, Z.shiftr_div_pow2 by lia.
  unfold wrap32.
  pose proof (Z.mod_pos_bound (v + 4096 - 1) (2 ^ 32) ltac:(lia)).
  rewrite (Z.mod_small (_ * _)) by (Z.div_mod_to_equations; lia).
  apply Z.mod_mul. lia.
Qed.

Lemma for_open_files_bos st op st' :
  for_open_files st op = Done st' -> bos st' = bos st.
Proof.
  unfold for_open_files.
  refine (for_each_order (fun s s' => bos s' = bos s) _ _ _ _ _ _ _).
  - reflexivity.
  - intros s1 s2 s3 H1 H2. congruence.
  - intros i s s' H.
    destruct (files s !! i) as [[|]|]; try (injection H as <-; reflexivity).
    destruct (aubs s !! i) as [aub|]; try (injection H as <-; reflexivity).
    apply bind_done in H as ([a al] & _ & H). injection H as <-. reflexivity.
Qed.

(** One pass of the first loop on an unpinned buffer. *)
Lemma assign_offsets_step_unpinned env obj st offset st' offset' :
  assign_offsets_step env obj (Continue st offset) = Done (Continue st' offset') ->
  Z.land (obj_flags obj) EXEC_OBJECT_PINNED = 0 ->
  0 <= alignment obj -> 0 <= bo_size (bos_get (bos st) (handle obj)) ->
  0 <= offset ->
  offset + alignment obj + bo_size (bos_get (bos st) (handle obj)) + 8190 < 2 ^ 32 ->
  let b := bos_get (bos st') (handle obj) in
  bo_size b = bo_size (bos_get (bos st) (handle obj))
  /\ 0 < bo_size b
  /\ offset <= bo_offset b
  /\ bo_offset b + bo_size b + 4095 <= offset'
  /\ offset' <= offset + alignment obj + bo_size b + 8190
  /\ offset' mod 4096 = 0
  /\ forall h, h <> handle obj -> bos_get (bos st') h = bos_get (bos st) h.
Proof.
  intros H Hp Ha Hs Ho Hb. cbn [assign_offsets_step] in H.
  apply bind_done in H as (b0 & Hg & H).
  assert (Eb0 : b0 = bos_get (bos st) (handle obj)).
  { unfold get_bo in Hg. apply bind_done in Hg as (u & _ & Hg). congruence. }
  rewrite <- Eb0 in Hs, Hb. rewrite <- Eb0. clear Eb0 Hg.
  destruct (Z.eqb_spec (bo_size b0) 0) as [|Hne]; [discriminate|].
  rewrite Hp in H. cbn [Z.eqb negb] in H.
  set (start := if negb (alignment obj =? 0)
                then align_u32 offset (alignment obj) else offset) in *.
  assert (Hst : offset <= start <= offset + alignment obj).
  { unfold start. destruct (Z.eqb_spec (alignment obj) 0); cbn [negb]; [lia|].
    pose proof (align_u32_bounds offset (alignment obj) Ho ltac:(lia) ltac:(lia)). lia. }
  set (next := align_u32 (wrap32 (start + bo_size b0 + 4095)) 4096) in *.
  assert (Hnx : start + bo_size b0 + 4095 <= next <= start + bo_size b0 + 8190
                /\ next mod 4096 = 0).
  { unfold next, wrap32. rewrite Z.mod_small by lia.
    pose proof (align_u32_bounds (start + bo_size b0 + 4095) 4096
                  ltac:(lia) ltac:(lia) ltac:(lia)).
    split; [lia|]. apply align_u32_page. lia. }
  cbv zeta in H. cbn [bo_map bo_size bo_offset] in H.
  match type of H with
  | context [set_bos st (<[handle obj := ?b]> (bos st))] => set (B := b) in *
  end.
  assert (HB : bo_size B = bo_size b0 /\ bo_offset B = start).
  { unfold B. destruct (bo_map b0); [destruct (0 <? bo_size b0)|..]; split; reflexivity. }
  destruct HB as [HB1 HB2].
  apply bind_done in H as (u & _ & H).
  apply bind_done in H as (st1 & Hf & H).
  injection H as <- <-.
  apply for_open_files_bos in Hf. cbn [bos set_bos] in Hf.
  assert (G : bos_get (bos st1) (handle obj) = B).
  { unfold bos_get. rewrite Hf, lookup_insert_eq. reflexivity. }
  cbv zeta. rewrite G, HB1, HB2.
  repeat split; try lia.
  intros h Hh. unfold bos_get. rewrite Hf, lookup_insert_ne by congruence. reflexivity.
Qed.

Lemma placement_span_ext m m' objs :
  (forall o, o ∈ objs -> bos_get m' (handle o) = bos_get m (handle o)) ->
  placement_span m' objs = placement_span m objs.
Proof.
  induction objs as [|o tl IH]; intros H; cbn [placement_span foldr]; [reflexivity|].
  fold (placement_span m' tl). fold (placement_span m tl).
  rewrite H by left. rewrite IH; [reflexivity|]. intros o' Ho'. apply H. right. exact Ho'.
Qed.

Lemma placement_span_nonneg m objs :
  (forall o, o ∈ objs -> 0 <= alignment o /\ 0 <= bo_size (bos_get m (handle o))) ->
  0 <= placement_span m objs.
Proof.
  induction objs as [|o tl IH]; intros H; cbn [placement_span foldr]; [lia|].
  fold (placement_span m tl).
  destruct (H o ltac:(left)) as [? ?].
  assert (0 <= placement_span m tl) by (apply IH; intros o' Ho'; apply H; right; exact Ho').
  lia.
Qed.

(** X8. The unpinned buffers of a submission, each named once, are placed
    one after the other by the first loop of [dump_execbuffer2], as long as
    the 32-bit offset does not wrap: each keeps its size, starts at or after
    the offset the loop began with, and ends at least 4095 bytes before the
    next one starts and before the offset the loop ends with; buffers that
    are not part of the submission are not touched. *)
Theorem unpinned_buffers_placed env objs st offset st' offset' :
  for_each (assign_offsets_step env) objs (Continue st offset)
  = Done (Continue st' offset') ->
  NoDup (handle <$> objs) ->
  (forall o, o ∈ objs ->
     Z.land (obj_flags o) EXEC_OBJECT_PINNED = 0
     /\ 0 <= alignment o /\ 0 <= bo_size (bos_get (bos st) (handle o))) ->
  0 <= offset -> offset + placement_span (bos st) objs < 2 ^ 32 ->
  offset <= offset' <= offset + placement_span (bos st) objs
  /\ (forall h, h ∉ handle <$> objs -> bos_get (bos st') h = bos_get (bos st) h)
  /\ (forall o, o ∈ objs ->
        let b := bos_get (bos st') (handle o) in
        bo_size b = bo_size (bos_get (bos st) (handle o)) /\ 0 < bo_size b
        /\ offset <= bo_offset b /\ bo_offset b + bo_size b + 4095 <= offset')
  /\ (forall i j oi oj,
        objs !! i = Some oi -> objs !! j = Some oj -> (i < j)%nat ->
        bo_offset (bos_get (bos st') (handle oi))
        + bo_size (bos_get (bos st') (handle oi)) + 4095
        <= bo_offset (bos_get (bos st') (handle oj))).
Proof.
  revert st offset. induction objs as [|o tl IH]; intros st offset H Hnd Hobjs Ho Hb.
  - cbn [for_each] in H. injection H as <- <-. cbn [placement_span foldr].
    split; [lia|]. split; [reflexivity|]. split.
    + intros o Hin. apply elem_of_nil in Hin. contradiction.
    + intros i j oi oj Hi. rewrite lookup_nil in Hi. discriminate.
  - cbn [for_each] in H. apply bind_done in H as (r1 & H1 & H).
    destruct r1 as [st1 off1 | st1];
      [|rewrite assign_offsets_returned in H; discriminate].
    cbn [fmap list_fmap] in Hnd. apply NoDup_cons in Hnd as [Hnotin Hnd].
    assert (Htl : forall o', o' ∈ tl -> handle o' <> handle o).
    { intros o' Ho' E. apply Hnotin. rewrite <- E. apply list_elem_of_fmap. eauto. }
    assert (Hsp : 0 <= placement_span (bos st) tl).
    { apply placement_span_nonneg. intros o' Ho'.
      destruct (Hobjs o' ltac:(right; exact Ho')) as (_ & ? & ?). auto. }
    destruct (Hobjs o ltac:(left)) as (Hp & Ha & Hs).
    cbn [placement_span foldr] in Hb |- *. fold (placement_span (bos st) tl) in Hb |- *.
    pose proof (assign_offsets_step_unpinned env o st offset st1 off1 H1 Hp Ha Hs Ho
                  ltac:(lia)) as S.
    cbv zeta in S. destruct S as (S1 & S2 & S3 & S4 & S5 & S6 & S7).
    assert (Hext : forall o', o' ∈ tl ->
                     bos_get (bos st1) (handle o') = bos_get (bos st) (handle o')).
    { intros o' Ho'. apply S7. apply Htl. exact Ho'. }
    rewrite <- (placement_span_ext (bos st) (bos st1) tl Hext) in Hb, Hsp |- *.
    destruct (IH st1 off1 H Hnd) as (I1 & I2 & I3 & I4).
    { intros o' Ho'. rewrite (Hext o' Ho').
      apply Hobjs. right. exact Ho'. }
    { lia. }
    { lia. }
    assert (Hfirst : bos_get (bos st') (handle o) = bos_get (bos st1) (handle o))
      by (apply I2; exact Hnotin).
    split; [lia|]. split; [|split].
    + intros h Hh. cbn [fmap list_fmap] in Hh. apply not_elem_of_cons in Hh as [Hh1 Hh2].
      rewrite I2 by exact Hh2. apply S7. exact Hh1.
    + intros o' Ho'. cbv zeta. apply elem_of_cons in Ho' as [-> | Ho'].
      * rewrite Hfirst. repeat split; lia.
      * specialize (I3 o' Ho'). cbv zeta in I3. rewrite (Hext o' Ho') in I3.
        destruct I3 as (? & ? & ? & ?). repeat split; lia.
    + intros i j oi oj Hi Hj Hij. destruct j as [|j]; [lia|].
      cbn [lookup list_lookup] in Hj.
      assert (Hoj : oj ∈ tl) by (eapply list_elem_of_lookup_2; exact Hj).
      destruct i as [|i].
      * injection Hi as <-. rewrite Hfirst.
        specialize (I3 oj Hoj). cbv zeta in I3. lia.
      * cbn [lookup list_lookup] in Hi. apply (I4 i j oi oj Hi Hj). lia.
Qed.

Lemma unpinned_buffers_placed_witness :
  let st := mk_shim [true; false] 0 false 0x0166 (mk_devinfo 7 0) [fresh_aub 7; zero_aub]
                    (<[1 := mk_bo 16 0 MapNull]> (<[2 := mk_bo 32 0 MapNull]> ∅))
                    phys_addrs_allocator_init in
  let objs := [mk_obj 2 [] 0 0 0; mk_obj 1 [] 64 0 0] in
  exists st' offset',
    for_each (assign_offsets_step scenario_env) objs (Continue st 0x1000)
    = Done (Continue st' offset')
    /\ bo_offset (bos_get (bos st') 2) + bo_size (bos_get (bos st') 2) + 4095
       <= bo_offset (bos_get (bos st') 1).
Proof.
  intros st objs.
  destruct (for_each (assign_offsets_step scenario_env) objs (Continue st 0x1000))
    as [[st' offset'|]| | |] eqn:E; try (exfalso; vm_compute in E; discriminate).
  exists st', offset'. split; [reflexivity|].
  refine (proj2 (proj2 (proj2 (unpinned_buffers_placed _ _ _ _ _ _ E _ _ _ _)))
            0%nat 1%nat (mk_obj 2 [] 0 0 0) (mk_obj 1 [] 64 0 0) eq_refl eq_refl _).
  - apply (bool_decide_unpack _). vm_compute. exact I.
  - intros o Ho.
    apply elem_of_cons in Ho. destruct Ho as [E0 | Ho];
      [rewrite E0; vm_compute; repeat split; discriminate|].
    apply list_elem_of_singleton in Ho. rewrite Ho.
    vm_compute; repeat split; discriminate.
  - lia.
  - vm_compute. reflexivity.
  - lia.
Defined.

Module AubinatorMore.

Import Aubinator.

(** ** Progress of the decoder; where it can hang *)






(** *** The loop of [get_ppgtt_batch_bo] *)


Lemma iter_pages x k :
  N.iter k (fun e => wrap64 (e + 4096)) (wrap64 x) = wrap64 (x + 4096 * Z.of_N k).
Proof.
  induction k as [|k IH] using N.peano_ind.
  - cbn [N.iter]. f_equal. lia.
  - rewrite N.iter_succ, IH. unfold wrap64.
    rewrite Z.add_mod_idemp_l by lia. f_equal. lia.
Qed.









(** *** Where a hang can come from *)











Lemma while_passes_true {X} (cond : X -> bool) (next : X -> X) n :
  (forall x, cond x = true) -> forall x, exists y, while_passes n cond next x = inr y.
Proof.
  intros C. induction n as [n IH | n IH |]; intros x; cbn [while_passes]; rewrite ?C.
  - destruct (IH (next x)) as (y & ->). apply IH.
  - destruct (IH x) as (y & ->). apply IH.
  - eauto.
Qed.

Lemma looping_tables_mapped a : ppgtt_mapped looping_tables 0x1000 a = true.
Proof.
  assert (En : Forall (fun i => le_value (slice (concat (replicate 512 (le_bytes 8 0x1001)))
                                                 (8 * i) 8) = 0x1001) (seqZ 0 512)).
  { apply (bool_decide_unpack _). vm_compute. exact I. }
  assert (I : forall s, 0 <= Z.land (Z.shiftr a s) 0x1ff < 512).
  { intros s. change 0x1ff with (Z.ones 9). rewrite Z.land_ones by lia.
    apply Z.mod_pos_bound. lia. }
  unfold ppgtt_mapped, ppgtt_walk. cbv zeta. cbn [fold_left].
  match goal with
  | |- context [(((_ ≫= ?fa) ≫= _) ≫= _) ≫= _] => set (sa := fa)
  end.
  assert (S : forall sh, sa (0x1000, sh) = Some (0x1000, sh - 9)).
  { intros sh. unfold sa. cbv beta iota.
    change (search_phys_mem looping_tables 4096)
      with (Some (mk_phys_mem 0 (concat (replicate 512 (le_bytes 8 0x1001))))).
    cbn [mbind option_bind data].
    rewrite Forall_forall in En. rewrite (En (Z.land (Z.shiftr a sh) 0x1ff)).
    - reflexivity.
    - apply elem_of_seqZ. specialize (I sh). lia. }
  change (Some (4096, 39) ≫= sa) with (sa (4096, 39)). rewrite S.
  change (Some (4096, 39 - 9) ≫= sa) with (sa (4096, 39 - 9)). rewrite S.
  change (Some (4096, 39 - 9 - 9) ≫= sa) with (sa (4096, 39 - 9 - 9)). rewrite S.
  change (Some (4096, 39 - 9 - 9 - 9) ≫= sa) with (sa (4096, 39 - 9 - 9 - 9)). rewrite S.
  reflexivity.
Qed.

(** The loop without a bound is met: with a page table whose entries all
    point back at the table, every address is mapped and
    [get_ppgtt_batch_bo] never returns. *)
Lemma looping_tables_hang address :
  get_ppgtt_batch_bo looping_tables 0x1000 address = Hang.
Proof.
  unfold get_ppgtt_batch_bo. cbv zeta. rewrite looping_tables_mapped. cbn [negb].
  destruct (while_passes_true (ppgtt_mapped looping_tables 0x1000)
              (fun e => wrap64 (e + 4096)) (2 ^ 36) looping_tables_mapped
              (Z.land address (Z.lnot 0xfff))) as (y & ->).
  reflexivity.
Qed.



End AubinatorMore.


(** * From the writer to the decoder *)

Lemma reg_write_event_eq dis d f :
  Aubinator.handle_memtrace_reg_write dis d f
  = reg_write_event dis d (Aubinator.dword_at f 1) (Aubinator.dword_at f 5).
Proof. reflexivity. Qed.

Lemma mem_write_event_eq d f :
  Aubinator.handle_memtrace_mem_write d f
  = mem_write_event d
      (Aubinator.gen_48b_address
         (Z.lor (Aubinator.dword_at f 1) (Z.shiftl (Aubinator.dword_at f 2) 32)))
      (Z.shiftr (Aubinator.dword_at f 3) 28)
      (Aubinator.bytes_at f 5 (Aubinator.dword_at f 4))
      (Aubinator.dword_at f 4).
Proof. reflexivity. Qed.

(** The dwords of a record that begins with the dwords [vs], read at the
    cursor. *)
Lemma record_dword f vs tail (k : nat) v :
  record_at f (concat (dword_bytes <$> vs) ++ tail) ->
  vs !! k = Some v ->
  Aubinator.dword_at f (Z.of_nat k) = wrap32 v.
Proof.
  intros (Hc & Hs & _) Hk. unfold Aubinator.dword_at.
  assert (Hlen : (k < length vs)%nat) by (apply lookup_lt_Some in Hk; exact Hk).
  assert (Hl : length (concat (dword_bytes <$> vs)) = (4 * length vs)%nat).
  { clear. induction vs as [|w vs IH]; [reflexivity|].
    cbn [fmap list_fmap concat]. rewrite length_app, length_dword_bytes.
    change (list_fmap Z (list Z) dword_bytes vs) with (dword_bytes <$> vs).
    rewrite IH. cbn [length]. lia. }
  replace (4 * (Aubinator.cursor f + Z.of_nat k))
    with (4 * Aubinator.cursor f + 4 * Z.of_nat k) by lia.
  assert (Hl' : 4 * Z.of_nat k + 4
                <= Z.of_nat (length (concat (dword_bytes <$> vs) ++ tail))).
  { rewrite length_app, Hl. lia. }
  rewrite <- (slice_slice _ _ (Z.of_nat (length (concat (dword_bytes <$> vs) ++ tail))))
    by lia.
  rewrite Hs, (dwords_lookup _ _ _ _ Hk). apply le_value_dword_bytes.
Qed.

Lemma lor_add_low c x k :
  0 <= k -> c mod 2 ^ k = 0 -> 0 <= x < 2 ^ k -> Z.lor c x = c + x.
Proof.
  intros Hk Hc Hx.
  assert (Hd : Z.land c x = 0).
  { apply Z.bits_inj'. intros i Hi. rewrite Z.land_spec, Z.bits_0.
    destruct (Z.lt_ge_cases i k).
    - rewrite <- (Z.mod_pow2_bits_low c k i) by lia. rewrite Hc, Z.bits_0. reflexivity.
    - assert (Z.testbit x i = false) as ->; [|apply andb_false_r].
      destruct (Z.eq_dec x 0) as [->|]; [apply Z.bits_0|].
      apply Z.bits_above_log2; [lia|].
      apply Z.log2_lt_pow2; [lia|].
      apply Z.lt_le_trans with (2 ^ k); [lia|]. apply Z.pow_le_mono_r; lia. }
  rewrite <- Z.lxor_lor by exact Hd. symmetry. apply Z.add_nocarry_lxor. exact Hd.
Qed.

Lemma data_out_done aub data aub' :
  data_out aub data = Done aub' -> data <> [] -> appended aub data aub'.
Proof.
  unfold data_out. destruct data as [|b data]; [congruence|].
  destruct (file aub) as [w|] eqn:E; [|discriminate].
  intros [= <-] _. exists w. auto.
Qed.

Lemma dword_out_done aub v aub' :
  dword_out aub v = Done aub' -> appended aub (dword_bytes v) aub'.
Proof. intros H. apply data_out_done in H; [exact H | discriminate]. Qed.

Lemma register_write_out_done aub addr value aub' :
  register_write_out aub addr value = Done aub' ->
  appended aub (register_write_record addr value) aub'.
Proof.
  unfold register_write_out. cbv zeta. intros H.
  apply bind_done in H as (a1 & H1 & H). apply bind_done in H as (a2 & H2 & H).
  apply bind_done in H as (a3 & H3 & H). apply bind_done in H as (a4 & H4 & H).
  apply bind_done in H as (a5 & H5 & H).
  apply dword_out_done in H1, H2, H3, H4, H5, H.
  unfold register_write_record. cbn [fmap list_fmap concat]. rewrite app_nil_r.
  eauto 10 using appended_app.
Qed.

(** ** Register writes *)

(** X10. The six dwords [register_write_out] appends are one record to the
    decoder: met at the cursor, they are handled as a register write of the
    same offset and value, and the cursor moves past exactly these six
    dwords. *)
Theorem register_write_round_trip aub addr value aub' :
  register_write_out aub addr value = Done aub' ->
  stream_of aub' = stream_of aub ++ register_write_record addr value
  /\ forall co d f,
       record_at f (register_write_record addr value) ->
       Aubinator.aub_file_decode_batch co d f
       = d' ← reg_write_event (Aubinator.disasm co) d (wrap32 addr) (wrap32 value);
         Done (d', advance f 6, Aubinator.AUB_ITEM_DECODE_OK).
Proof.
  intros H. split; [apply appended_stream, register_write_out_done, H|].
  intros co d f Hrec.
  assert (Hrec' : record_at f (concat (dword_bytes <$>
            [Z.lor CMD_MEM_TRACE_REGISTER_WRITE (5 + 1 - 1); addr;
             Z.lor AUB_MEM_TRACE_REGISTER_SIZE_DWORD AUB_MEM_TRACE_REGISTER_SPACE_MMIO;
             0xFFFFFFFF; 0x00000000; value]) ++ [])).
  { rewrite app_nil_r. exact Hrec. }
  pose proof (record_dword f _ _ 0 _ Hrec' eq_refl) as D0.
  pose proof (record_dword f _ _ 1 _ Hrec' eq_refl) as D1.
  pose proof (record_dword f _ _ 5 _ Hrec' eq_refl) as D5.
  change (Z.of_nat 0) with 0 in D0. change (Z.of_nat 1) with 1 in D1.
  change (Z.of_nat 5) with 5 in D5.
  destruct Hrec as (Hc & _ & He).
  change (Z.of_nat (length (register_write_record addr value)) / 4) with 6 in He.
  unfold Aubinator.aub_file_decode_batch, fail_if.
  replace (Aubinator.cursor f <? Aubinator.end_ f) with true by lia.
  cbn [negb mbind outcome_bind bind]. cbv zeta.
  rewrite reg_write_event_eq, D0, D1, D5.
  change (wrap32 (Z.lor CMD_MEM_TRACE_REGISTER_WRITE (5 + 1 - 1))) with 0xF7030005.
  change (Aubinator.OPCODE 0xF7030005 =? OPCODE_AUB) with false.
  change (Aubinator.OPCODE 0xF7030005 =? OPCODE_NEW_AUB) with true.
  cbv iota.
  change (Z.land 0xF7030005 0xffff) with 5.
  change (Z.land 0xF7030005 0xffff0000) with 0xF7030000.
  change (0xF7030000 =? MAKE_HEADER TYPE_AUB OPCODE_AUB SUBOPCODE_BLOCK) with false.
  change (0xF7030000 =? MAKE_HEADER TYPE_AUB OPCODE_AUB SUBOPCODE_HEADER) with false.
  change (0xF7030000 =? MAKE_HEADER TYPE_AUB OPCODE_AUB SUBOPCODE_BMP) with false.
  change (0xF7030000 =? MAKE_HEADER TYPE_AUB OPCODE_NEW_AUB SUBOPCODE_VERSION) with false.
  change (0xF7030000 =? MAKE_HEADER TYPE_AUB OPCODE_NEW_AUB SUBOPCODE_REG_WRITE) with true.
  cbv iota. cbn [mbind outcome_bind bind].
  replace (Aubinator.cursor f + 5 + 1 <=? Aubinator.end_ f) with true by lia.
  cbn [negb mbind outcome_bind bind].
  unfold advance. replace (Aubinator.cursor f + 5 + 1) with (Aubinator.cursor f + 6) by lia.
  reflexivity.
Qed.

Lemma register_write_round_trip_witness :
  exists aub',
    register_write_out (fresh_aub 9) 0x2510 0x1000 = Done aub'
    /\ Aubinator.aub_file_decode_batch
         (Aubinator.plain_collaborators device_db) (Aubinator.decoder_init 0x1912)
         (Aubinator.mapped_file (stream_of aub'))
       = d' ← reg_write_event (fun _ _ => Aubinator.NoMoreCalls) (Aubinator.decoder_init 0x1912)
                              (wrap32 0x2510) (wrap32 0x1000);
         Done (d', advance (Aubinator.mapped_file (stream_of aub')) 6,
               Aubinator.AUB_ITEM_DECODE_OK).
Proof.
  eexists.
  assert (E : register_write_out (fresh_aub 9) 0x2510 0x1000 = Done _) by reflexivity.
  split; [exact E|].
  apply (proj2 (register_write_round_trip _ _ _ _ E)).
  split; [cbn; lia|]. split; [reflexivity | cbn; lia].
Defined.

(** ** Memory writes *)

Lemma ALIGN_4 len : 0 <= len -> ALIGN len 4 = (len + 3) / 4 * 4.
Proof.
  intros H. unfold ALIGN. replace (len + 4 - 1) with (len + 3) by lia.
  change (Z.lnot (4 - 1)) with (Z.lnot (Z.ones 2)).
  rewrite <- Z.ldiff_land, Z.ldiff_ones_r by lia.
  rewrite Z.shiftl_mul_pow2, Z.shiftr_div_pow2 by lia. reflexivity.
Qed.

Lemma memory_write_header_dwords addr len space :
  memory_write_header addr len space
  = concat (dword_bytes <$>
            [Z.lor CMD_MEM_TRACE_MEMORY_WRITE (wrap32 (5 + wrap32 (ALIGN len 4 / 4) - 1));
             Z.land addr 0xFFFFFFFF; Z.shiftr addr 32; space; len]).
Proof.
  unfold memory_write_header. cbn [fmap list_fmap concat]. rewrite app_nil_r. reflexivity.
Qed.

Lemma length_memory_write_header addr len space :
  length (memory_write_header addr len space) = 20%nat.
Proof.
  unfold memory_write_header. rewrite !length_app, !length_dword_bytes. reflexivity.
Qed.

(** The header of a memory-write record whose payload takes [dw] dwords:
    its length field, opcode and tag as the decoder extracts them. *)
Lemma memory_write_header_fields dw :
  0 <= dw -> dw + 4 < 2 ^ 16 ->
  let h := wrap32 (Z.lor CMD_MEM_TRACE_MEMORY_WRITE (wrap32 (5 + wrap32 dw - 1))) in
  Z.land h 0xffff = dw + 4
  /\ Aubinator.OPCODE h = OPCODE_NEW_AUB
  /\ Z.land h 0xffff0000 = MAKE_HEADER TYPE_AUB OPCODE_NEW_AUB SUBOPCODE_MEM_WRITE.
Proof.
  intros H0 H1 h.
  assert (Hh : h = 0xF7060000 + (dw + 4)).
  { unfold h, wrap32. rewrite (Z.mod_small dw) by lia.
    rewrite (Z.mod_small (5 + dw - 1)) by lia.
    rewrite (lor_add_low _ _ 16) by (try reflexivity; lia).
    change CMD_MEM_TRACE_MEMORY_WRITE with 0xF7060000. rewrite Z.mod_small; lia. }
  rewrite Hh. split; [|split].
  - change 0xffff with (Z.ones 16). rewrite Z.land_ones by lia.
    Z.div_mod_to_equations. lia.
  - unfold Aubinator.OPCODE. rewrite Z.shiftr_div_pow2 by lia.
    change 0x3f with (Z.ones 6). rewrite Z.land_ones by lia.
    change OPCODE_NEW_AUB with 46. Z.div_mod_to_equations. lia.
  - change 0xffff0000 with (Z.ldiff (Z.ones 32) (Z.ones 16)).
    rewrite land_high_mask by lia.
    change (MAKE_HEADER TYPE_AUB OPCODE_NEW_AUB SUBOPCODE_MEM_WRITE) with 0xF7060000.
    Z.div_mod_to_equations. lia.
Qed.

(** X11. A memory-write record of the writer (the header of
    [mem_trace_memory_write_header_out], then the payload with its padding)
    is one record to the decoder, provided the payload's dword count leaves
    room in the 16-bit length field: met at the cursor, it is handled as a
    write of the first [len] payload bytes to the low 48 bits of the
    address, in the address space of the header, and the cursor moves past
    exactly the record. *)
Theorem memory_write_round_trip aub addr len space data aub1 aub2 :
  mem_trace_memory_write_header_out aub addr len space = Done aub1 ->
  data_out aub1 data = Done aub2 ->
  0 <= addr < 2 ^ 64 -> 0 <= space < 2 ^ 32 -> 0 <= len ->
  Z.of_nat (length data) = ALIGN len 4 ->
  ALIGN len 4 / 4 + 4 < 2 ^ 16 ->
  stream_of aub2 = stream_of aub ++ memory_write_header addr len space ++ data
  /\ forall co d f,
       record_at f (memory_write_header addr len space ++ data) ->
       Aubinator.aub_file_decode_batch co d f
       = d' ← mem_write_event d (addr mod 2 ^ 48) (space / 2 ^ 28)
                              (slice data 0 len) len;
         Done (d', advance f (5 + ALIGN len 4 / 4), Aubinator.AUB_ITEM_DECODE_OK).
Proof.
  intros H1 H2 Haddr Hspace Hlen Hdata Hdw.
  assert (Hal : ALIGN len 4 = (len + 3) / 4 * 4) by (apply ALIGN_4; exact Hlen).
  assert (Hdw0 : 0 <= ALIGN len 4 / 4) by (rewrite Hal, Z.div_mul by lia; apply Z.div_pos; lia).
  assert (Hlen' : len <= ALIGN len 4 < 2 ^ 18).
  { rewrite Hal in *. rewrite Z.div_mul in Hdw by lia. Z.div_mod_to_equations. lia. }
  split.
  { assert (A1 : appended aub (memory_write_header addr len space) aub1).
    { destruct (mem_trace_memory_write_header_out_appended aub addr len space)
        as (a & E & A); [|congruence].
      destruct (file aub) eqn:F; [eauto|].
      rewrite header_out_null in H1 by exact F. discriminate. }
    assert (A2 : appended aub1 data aub2).
    { destruct data as [|b data].
      - injection H2 as <-. apply appended_nil. eapply appended_open; eauto.
      - apply data_out_done; [exact H2 | discriminate]. }
    rewrite (appended_stream _ _ _ (appended_app _ _ _ _ _ A1 A2)). reflexivity. }
  intros co d f Hrec.
  assert (Hrec' := Hrec). rewrite memory_write_header_dwords in Hrec'.
  pose proof (record_dword f _ _ 0 _ Hrec' eq_refl) as D0.
  pose proof (record_dword f _ _ 1 _ Hrec' eq_refl) as D1.
  pose proof (record_dword f _ _ 2 _ Hrec' eq_refl) as D2.
  pose proof (record_dword f _ _ 3 _ Hrec' eq_refl) as D3.
  pose proof (record_dword f _ _ 4 _ Hrec' eq_refl) as D4.
  change (Z.of_nat 0) with 0 in D0. change (Z.of_nat 1) with 1 in D1.
  change (Z.of_nat 2) with 2 in D2. change (Z.of_nat 3) with 3 in D3.
  change (Z.of_nat 4) with 4 in D4.
  destruct (memory_write_header_fields (ALIGN len 4 / 4) Hdw0 Hdw) as (F1 & F2 & F3).
  cbv zeta in F1, F2, F3. rewrite <- D0 in F1, F2, F3.
  destruct Hrec as (Hc & Hs & He).
  rewrite length_app, length_memory_write_header, Nat2Z.inj_add, Hdata in Hs, He.
  change (Z.of_nat 20) with 20 in Hs, He.
  assert (Hq : (20 + ALIGN len 4) / 4 = 5 + ALIGN len 4 / 4).
  { rewrite Hal. rewrite Z.div_mul by lia. Z.div_mod_to_equations. lia. }
  rewrite Hq in He.
  unfold Aubinator.aub_file_decode_batch, fail_if.
  replace (Aubinator.cursor f <? Aubinator.end_ f) with true by lia.
  cbn [negb mbind outcome_bind bind]. cbv zeta.
  rewrite F2, F1, F3.
  change (OPCODE_NEW_AUB =? OPCODE_AUB) with false.
  change (OPCODE_NEW_AUB =? OPCODE_NEW_AUB) with true. cbv iota.
  change (MAKE_HEADER TYPE_AUB OPCODE_NEW_AUB SUBOPCODE_MEM_WRITE
          =? MAKE_HEADER TYPE_AUB OPCODE_AUB SUBOPCODE_BLOCK) with false.
  change (MAKE_HEADER TYPE_AUB OPCODE_NEW_AUB SUBOPCODE_MEM_WRITE
          =? MAKE_HEADER TYPE_AUB OPCODE_AUB SUBOPCODE_HEADER) with false.
  change (MAKE_HEADER TYPE_AUB OPCODE_NEW_AUB SUBOPCODE_MEM_WRITE
          =? MAKE_HEADER TYPE_AUB OPCODE_AUB SUBOPCODE_BMP) with false.
  change (MAKE_HEADER TYPE_AUB OPCODE_NEW_AUB SUBOPCODE_MEM_WRITE
          =? MAKE_HEADER TYPE_AUB OPCODE_NEW_AUB SUBOPCODE_VERSION) with false.
  change (MAKE_HEADER TYPE_AUB OPCODE_NEW_AUB SUBOPCODE_MEM_WRITE
          =? MAKE_HEADER TYPE_AUB OPCODE_NEW_AUB SUBOPCODE_REG_WRITE) with false.
  change (MAKE_HEADER TYPE_AUB OPCODE_NEW_AUB SUBOPCODE_MEM_WRITE
          =? MAKE_HEADER TYPE_AUB OPCODE_NEW_AUB SUBOPCODE_MEM_WRITE) with true.
  cbv iota. cbn [mbind outcome_bind bind].
  replace (Aubinator.cursor f + (ALIGN len 4 / 4 + 4) + 1 <=? Aubinator.end_ f)
    with true by lia.
  cbn [negb mbind outcome_bind bind].
  rewrite mem_write_event_eq, D1, D2, D3, D4.
  assert (E4 : wrap32 len = len) by (unfold wrap32; apply Z.mod_small; lia).
  assert (E3 : Z.shiftr (wrap32 space) 28 = space / 2 ^ 28).
  { unfold wrap32. rewrite Z.mod_small by lia. apply Z.shiftr_div_pow2. lia. }
  assert (Ea : Aubinator.gen_48b_address
                 (Z.lor (wrap32 (Z.land addr 0xFFFFFFFF))
                        (Z.shiftl (wrap32 (Z.shiftr addr 32)) 32))
               = addr mod 2 ^ 48).
  { unfold Aubinator.gen_48b_address, wrap32.
    change 0xFFFFFFFF with (Z.ones 32). rewrite Z.land_ones by lia.
    rewrite Z.mod_mod by lia.
    rewrite Z.shiftr_div_pow2, Z.shiftl_mul_pow2 by lia.
    rewrite (Z.mod_small (addr / 2 ^ 32)) by (Z.div_mod_to_equations; lia).
    rewrite Z.lor_comm, (lor_add_low _ _ 32);
      [| lia | apply Z.mod_mul; lia | apply Z.mod_pos_bound; lia].
    f_equal. Z.div_mod_to_equations. lia. }
  assert (Eb : Aubinator.bytes_at f 5 len = slice data 0 len).
  { unfold Aubinator.bytes_at.
    replace (4 * (Aubinator.cursor f + 5)) with (4 * Aubinator.cursor f + 20) by lia.
    rewrite <- (slice_slice _ _ (20 + ALIGN len 4)) by lia.
    rewrite Hs. rewrite slice_app_r by (rewrite length_memory_write_header; lia).
    rewrite length_memory_write_header. reflexivity. }
  rewrite E4, E3, Ea, Eb.
  unfold advance.
  replace (Aubinator.cursor f + (ALIGN len 4 / 4 + 4) + 1)
    with (Aubinator.cursor f + (5 + ALIGN len 4 / 4)) by lia.
  reflexivity.
Qed.

Lemma memory_write_round_trip_witness :
  let data := le_bytes 8 0x21003 in
  exists aub1 aub2,
    mem_trace_memory_write_header_out (fresh_aub 9) 0x20008 8
        AUB_MEM_TRACE_MEMORY_ADDRESS_SPACE_PHYSICAL = Done aub1
    /\ data_out aub1 data = Done aub2
    /\ Aubinator.aub_file_decode_batch
         (Aubinator.plain_collaborators device_db) (Aubinator.decoder_init 0x1912)
         (Aubinator.mapped_file (stream_of aub2))
       = d' ← mem_write_event (Aubinator.decoder_init 0x1912) (0x20008 mod 2 ^ 48)
                              (AUB_MEM_TRACE_MEMORY_ADDRESS_SPACE_PHYSICAL / 2 ^ 28)
                              (slice data 0 8) 8;
         Done (d', advance (Aubinator.mapped_file (stream_of aub2)) (5 + ALIGN 8 4 / 4),
               Aubinator.AUB_ITEM_DECODE_OK).
Proof.
  intros data. do 2 eexists.
  assert (E1 : mem_trace_memory_write_header_out (fresh_aub 9) 0x20008 8
                 AUB_MEM_TRACE_MEMORY_ADDRESS_SPACE_PHYSICAL = Done _) by reflexivity.
  match type of E1 with
  | _ = Done ?a => assert (E2 : data_out a data = Done _) by reflexivity
  end.
  split; [exact E1|]. split; [exact E2|].
  apply (proj2 (memory_write_round_trip _ _ _ _ _ _ _ E1 E2
                  ltac:(lia) ltac:(vm_compute; split; [discriminate | reflexivity])
                  ltac:(lia) eq_refl eq_refl)).
  split; [cbn; lia|]. split; [reflexivity | cbn; lia].
Defined.

(** ** Legacy trace blocks *)

Lemma align_u32_4 v : 0 <= v <= 8 * 4096 -> align_u32 v 4 = (v + 3) / 4 * 4.
Proof.
  intros H. unfold align_u32, wrap32.
  change (Z.lnot ((4 - 1) mod 2 ^ 32)) with (Z.lnot (Z.ones 2)).
  rewrite (Z.mod_small (v + 4 - 1)) by lia.
  replace (v + 4 - 1) with (v + 3) by lia.
  rewrite <- Z.ldiff_land, Z.ldiff_ones_r by lia.
  rewrite Z.shiftl_mul_pow2, Z.shiftr_div_pow2 by lia.
  apply Z.mod_small. Z.div_mod_to_equations. lia.
Qed.

Lemma legacy_block_decodes aub type addr block_size payload :
  addr_bits aub <= 32 ->
  type = AUB_TRACE_TYPE_NOTYPE \/ type = AUB_TRACE_TYPE_BATCH ->
  0 <= block_size <= 8 * 4096 ->
  Z.of_nat (length payload) = align_u32 block_size 4 ->
  forall co d f,
    gen (Aubinator.devinfo d) < 8 ->
    record_at f (trace_block_header aub type addr block_size ++ payload) ->
    Aubinator.aub_file_decode_batch co d f
    = Done (Aubinator.add_gtt_bo_map d
              (Aubinator.mk_decode_bo (addr mod 2 ^ 32) (Some payload)
                                      (align_u32 block_size 4)) false,
            advance f (5 + align_u32 block_size 4 / 4),
            Aubinator.AUB_ITEM_DECODE_OK).
Proof.
  intros Hbits Htype Hbs Hpay co d f Hgen Hrec.
  assert (Hal : align_u32 block_size 4 = (block_size + 3) / 4 * 4)
    by (apply align_u32_4; exact Hbs).
  set (al := align_u32 block_size 4) in *.
  assert (Hal4 : 0 <= al / 4 /\ al = al / 4 * 4 /\ 0 <= al <= 8 * 4096).
  { rewrite Hal. rewrite Z.div_mul by lia. Z.div_mod_to_equations. lia. }
  assert (Hhdr : trace_block_header aub type addr block_size
                 = concat (dword_bytes <$>
                           [Z.lor CMD_AUB_TRACE_HEADER_BLOCK (5 - 2);
                            Z.lor (Z.lor AUB_TRACE_MEMTYPE_GTT type) AUB_TRACE_OP_DATA_WRITE;
                            0; addr; al])).
  { unfold trace_block_header. replace (32 <? addr_bits aub) with false by lia.
    cbn [fmap list_fmap concat]. rewrite !app_nil_r. reflexivity. }
  rewrite Hhdr in Hrec.
  pose proof (record_dword f _ _ 0 _ Hrec eq_refl) as D0.
  pose proof (record_dword f _ _ 1 _ Hrec eq_refl) as D1.
  pose proof (record_dword f _ _ 3 _ Hrec eq_refl) as D3.
  pose proof (record_dword f _ _ 4 _ Hrec eq_refl) as D4.
  change (Z.of_nat 0) with 0 in D0. change (Z.of_nat 1) with 1 in D1.
  change (Z.of_nat 3) with 3 in D3. change (Z.of_nat 4) with 4 in D4.
  assert (E4 : wrap32 al = al) by (unfold wrap32; apply Z.mod_small; lia).
  rewrite E4 in D4.
  destruct Hrec as (Hc & Hs & He).
  assert (Hl : Z.of_nat (length (concat (dword_bytes <$>
                 [Z.lor CMD_AUB_TRACE_HEADER_BLOCK (5 - 2);
                  Z.lor (Z.lor AUB_TRACE_MEMTYPE_GTT type) AUB_TRACE_OP_DATA_WRITE;
                  0; addr; al]) ++ payload)) = 20 + al).
  { rewrite length_app. cbn [fmap list_fmap concat]. rewrite !length_app, !length_dword_bytes.
    cbn [length]. lia. }
  rewrite Hl in Hs, He.
  assert (Hq : (20 + al) / 4 = 5 + al / 4) by (Z.div_mod_to_equations; lia).
  rewrite Hq in He.
  unfold Aubinator.aub_file_decode_batch, fail_if.
  replace (Aubinator.cursor f <? Aubinator.end_ f) with true by lia.
  cbn [negb mbind outcome_bind bind]. cbv zeta.
  rewrite D0.
  change (wrap32 (Z.lor CMD_AUB_TRACE_HEADER_BLOCK (5 - 2))) with 0xE0C10003.
  change (Aubinator.OPCODE 0xE0C10003 =? OPCODE_AUB) with true. cbv iota.
  change (Z.land 0xE0C10003 0xffff) with 3.
  change (Z.land 0xE0C10003 0xffff0000) with 0xE0C10000.
  change (0xE0C10000 =? MAKE_HEADER TYPE_AUB OPCODE_AUB SUBOPCODE_BLOCK) with true.
  cbv iota.
  replace (4 <=? Aubinator.end_ f - Aubinator.cursor f) with true by lia.
  cbn [negb mbind outcome_bind bind]. rewrite D4.
  replace (Aubinator.cursor f + 3 + 2 + al / 4 <=? Aubinator.end_ f) with true by lia.
  cbn [negb mbind outcome_bind bind].
  change (0xE0C10000 =? MAKE_HEADER TYPE_AUB OPCODE_AUB SUBOPCODE_HEADER) with false.
  cbv iota. cbn [mbind outcome_bind bind].
  unfold Aubinator.handle_trace_block. cbv zeta.
  rewrite D0, D1, D3, D4.
  change (wrap32 (Z.lor CMD_AUB_TRACE_HEADER_BLOCK (5 - 2))) with 0xE0C10003.
  change (Z.land 0xE0C10003 0xffff) with 3.
  replace (8 <=? gen (Aubinator.devinfo d)) with false by lia.
  assert (Eop : Z.land (wrap32 (Z.lor (Z.lor AUB_TRACE_MEMTYPE_GTT type)
                                      AUB_TRACE_OP_DATA_WRITE))
                       AUB_TRACE_OPERATION_MASK = AUB_TRACE_OP_DATA_WRITE
                /\ Z.land (wrap32 (Z.lor (Z.lor AUB_TRACE_MEMTYPE_GTT type)
                                         AUB_TRACE_OP_DATA_WRITE))
                          AUB_TRACE_ADDRESS_SPACE_MASK = AUB_TRACE_MEMTYPE_GTT).
  { destruct Htype as [-> | ->]; split; reflexivity. }
  destruct Eop as [-> ->].
  change (AUB_TRACE_OP_DATA_WRITE =? AUB_TRACE_OP_DATA_WRITE) with true.
  change (AUB_TRACE_MEMTYPE_GTT =? AUB_TRACE_MEMTYPE_GTT) with true. cbv iota.
  assert (Ea : Aubinator.gen_48b_address (Z.lor 0 (wrap32 addr)) = addr mod 2 ^ 32).
  { unfold Aubinator.gen_48b_address, wrap32. rewrite Z.lor_0_l.
    pose proof (Z.mod_pos_bound addr (2 ^ 32) ltac:(lia)). apply Z.mod_small. lia. }
  assert (Eb : Aubinator.bytes_at f (3 + 2) al = payload).
  { unfold Aubinator.bytes_at.
    replace (4 * (Aubinator.cursor f + (3 + 2))) with (4 * Aubinator.cursor f + 20) by lia.
    rewrite <- (slice_slice _ _ (20 + al)) by lia.
    rewrite Hs. rewrite slice_app_r;
      cbn [fmap list_fmap concat]; rewrite !length_app, !length_dword_bytes;
      cbn [length]; [|lia].
    replace (20 - Z.of_nat (4 + (4 + (4 + (4 + (4 + 0)))))) with 0 by lia.
    unfold slice. cbn [Z.to_nat drop]. rewrite <- Hpay, Nat2Z.id. apply firstn_all. }
  rewrite Ea, Eb. unfold advance.
  replace (Aubinator.cursor f + 3 + 2 + al / 4) with (Aubinator.cursor f + (5 + al / 4)) by lia.
  reflexivity.
Qed.

Lemma length_block_payload virtual size :
  0 < size <= 8 * 4096 ->
  (forall data, virtual = Some data -> size <= Z.of_nat (length data)) ->
  Z.of_nat (length (block_data virtual 0 size ++ padding size)) = align_u32 size 4.
Proof.
  intros Hs Hv.
  assert (Hd : Z.of_nat (length (block_data virtual 0 size)) = size).
  { unfold block_data. destruct virtual as [data|].
    - specialize (Hv data eq_refl). unfold slice.
      rewrite length_take, length_drop. lia.
    - apply length_slice_null. lia. }
  pose proof (padding_length size ltac:(lia)) as Hp.
  assert (Hl : 0 <= Z.of_nat (length (padding size)) < 4).
  { unfold padding. change 3 with (Z.ones 2). rewrite Z.land_ones by lia.
    pose proof (Z.mod_pos_bound (wrap32 (- size)) (2 ^ 2) ltac:(lia)).
    rewrite length_slice_null by lia. change (2 ^ 2) with 4 in *. lia. }
  rewrite length_app, Nat2Z.inj_add, Hd, align_u32_4 by lia.
  Z.div_mod_to_equations. lia.
Qed.

(** X12. A buffer of at most eight pages goes out, in the legacy dialect, as one
    trace block, and that block is one record to a decoder of a device
    below generation 8: met at the cursor, it adds a buffer at the 32-bit
    address [gtt_offset], holding the bytes of the buffer and the padding,
    to the decoder's buffer list, and the cursor moves past exactly the
    record. *)
Theorem legacy_block_round_trip aub type virtual size gtt_offset :
  is_Some (file aub) ->
  aub_use_execlists aub = false -> addr_bits aub <= 32 ->
  type = AUB_TRACE_TYPE_NOTYPE \/ type = AUB_TRACE_TYPE_BATCH ->
  0 < size <= 8 * 4096 ->
  (forall data, virtual = Some data -> size <= Z.of_nat (length data)) ->
  exists aub' record,
    aub_write_trace_block aub type virtual size gtt_offset = Some (Done aub')
    /\ stream_of aub' = stream_of aub ++ record
    /\ forall co d f,
         gen (Aubinator.devinfo d) < 8 ->
         record_at f record ->
         Aubinator.aub_file_decode_batch co d f
         = Done (Aubinator.add_gtt_bo_map d
                   (Aubinator.mk_decode_bo
                      (gtt_offset mod 2 ^ 32)
                      (Some (block_data virtual 0 size ++ padding size))
                      (align_u32 size 4)) false,
                 advance f (5 + align_u32 size 4 / 4),
                 Aubinator.AUB_ITEM_DECODE_OK).
Proof.
  intros Hf Hex Hbits Htype Hs Hv.
  assert (Hlim : chunk_limit aub = 8 * 4096) by (unfold chunk_limit; rewrite Hex; reflexivity).
  destruct (aub_write_trace_block_loop_spec type virtual size gtt_offset ltac:(lia)
              (Z.to_nat (size / 4096) + 1) aub 0 Hf ltac:(lia))
    as (aub' & E & A).
  - rewrite Hlim. Z.div_mod_to_equations. lia.
  - rewrite Hex. discriminate.
  - rewrite Hlim, for_values_cons, for_values_nil in A by lia.
    cbn [fmap list_fmap concat] in A. rewrite app_nil_r in A.
    unfold block_record in A. rewrite Hex, Hlim, Z.add_0_r, Z.sub_0_r in A.
    rewrite Z.min_r in A by lia.
    exists aub', (trace_block_header aub type (wrap64 gtt_offset) size
                  ++ block_data virtual 0 size ++ padding size).
    split; [exact E|]. split; [exact (appended_stream _ _ _ A)|].
    intros co d f Hgen Hrec.
    rewrite (legacy_block_decodes aub type (wrap64 gtt_offset) size
               (block_data virtual 0 size ++ padding size) Hbits Htype ltac:(lia)
               (length_block_payload virtual size Hs Hv) co d f Hgen Hrec).
    replace (wrap64 gtt_offset mod 2 ^ 32) with (gtt_offset mod 2 ^ 32); [reflexivity|].
    unfold wrap64. change (2 ^ 64) with (2 ^ 32 * 2 ^ 32).
    rewrite Z.rem_mul_r by lia. rewrite Z.mul_comm, Z.mod_add by lia.
    rewrite Z.mod_mod by lia. reflexivity.
Qed.

Lemma legacy_block_round_trip_witness :
  exists aub' record,
    aub_write_trace_block (fresh_aub 7) AUB_TRACE_TYPE_BATCH (Some (le_bytes 6 0x0a0b0c))
                          6 0x4000 = Some (Done aub')
    /\ stream_of aub' = stream_of (fresh_aub 7) ++ record
    /\ Aubinator.aub_file_decode_batch
         (Aubinator.plain_collaborators device_db)
         (Aubinator.mk_decoder 0x0166 (mk_devinfo 7 0) [] [] [] 0 Aubinator.execlist_regs_init
                                Aubinator.GetBoUnset [] [])
         (Aubinator.mapped_file (stream_of aub'))
       = Done (Aubinator.add_gtt_bo_map
                 (Aubinator.mk_decoder 0x0166 (mk_devinfo 7 0) [] [] [] 0 Aubinator.execlist_regs_init
                                Aubinator.GetBoUnset [] [])
                 (Aubinator.mk_decode_bo
                    (0x4000 mod 2 ^ 32)
                    (Some (block_data (Some (le_bytes 6 0x0a0b0c)) 0 6 ++ padding 6))
                    (align_u32 6 4)) false,
               advance (Aubinator.mapped_file (stream_of aub')) (5 + align_u32 6 4 / 4),
               Aubinator.AUB_ITEM_DECODE_OK).
Proof.
  destruct (legacy_block_round_trip (fresh_aub 7) AUB_TRACE_TYPE_BATCH
              (Some (le_bytes 6 0x0a0b0c)) 6 0x4000
              ltac:(eexists; reflexivity) eq_refl ltac:(cbn; lia) ltac:(right; reflexivity)
              ltac:(lia) ltac:(intros data [= <-]; cbn; lia))
    as (aub' & record & E & S & D).
  exists aub', record. split; [exact E|]. split; [exact S|].
  apply D; [cbn; lia|].
  change (stream_of (fresh_aub 7) ++ record) with record in S. rewrite S.
  assert (L : Z.of_nat (length record) = 28).
  { rewrite <- S. vm_compute in E. injection E as <-. reflexivity. }
  unfold record_at, Aubinator.mapped_file.
  cbn [Aubinator.map Aubinator.cursor Aubinator.end_].
  rewrite L. split; [lia|]. split; [|reflexivity].
  unfold slice. change (Z.to_nat (4 * 0)) with 0%nat. cbn [drop].
  replace (Z.to_nat 28) with (length record) by lia. apply firstn_all.
Defined.
